(** * Date and shelf-life recognition: a shallow embedding

    This development embeds the date logic of the expiry tracker
    ([date_recognizer.py], [ocr_processor.py]) and checks the statements
    of its specification against it.

    Layout:
    - [PyCalendar]   : the proleptic Gregorian calendar of Python's
                       [datetime] module (ordinals, validity, day arithmetic);
    - [PyText]       : strings as code points, [int], [str] and the
                       [02d] format;
    - [PyValue]      : the Python values the date code handles;
    - [Regex]        : the backtracking matcher behind [re.findall] and
                       [strptime], for the fragment of syntax the code uses;
    - [DateRecognizer], [OCRProcessor] : the functions of the two classes;
    - [Spec]         : the vocabulary in which the claims are stated;
    - [Support]      : definitions that only the proofs need;
    - [ScanScreen], [Database], [ProductManager], [Server] : the callers
                       of the date code in [main.py], [database.py],
                       [product_manager.py] and [server.py];
    - [Spec2], [Support2] : vocabulary and definitions for the further
                       properties;
    - the lemmas, one theorem per claim of the specification, and the
      further properties of the code (X1, X2, ...).

    Conventions of the model.  Exceptions are explicit ([result]); the
    calls to [Logger] do not influence any returned value and are kept
    only where a claim speaks of side effects ([get_days_remaining]).
    Confidences are the exact rationals written in the code (0.8, 0.7,
    0.6), which compare as the floating-point values do.  [\d] and [int]
    are modelled on ASCII digits. *)

From Stdlib Require Import ZArith List Lia Bool QArith String Ascii.
Import ListNotations.
Open Scope Z_scope.

(* ================================================================== *)
(** * Exceptions and results *)

(** The exception classes that the modelled code can meet.
    [KeyboardInterrupt] stands for the classes that derive from
    [BaseException] only, which [except Exception] does not catch. *)
Inductive exn : Type :=
  | ValueError
  | TypeError
  | OverflowError
  | AttributeError
  | KeyboardInterrupt.

Definition is_Exception (e : exn) : bool :=
  match e with
  | KeyboardInterrupt => false
  | _ => true
  end.

Definition is_ValueError (e : exn) : bool :=
  match e with
  | ValueError => true
  | _ => false
  end.

(** A computation either returns or raises. *)
Inductive result (A : Type) : Type :=
  | Ok (a : A)
  | Raise (e : exn).
Arguments Ok {A} a.
Arguments Raise {A} e.

Definition bind {A B} (m : result A) (k : A -> result B) : result B :=
  match m with
  | Ok a => k a
  | Raise e => Raise e
  end.

Notation "x <- m ;; k" := (bind m (fun x => k))
  (at level 61, m at next level, right associativity).

(** [try: body  except C: handler] for an exception class given by its
    membership test. *)
Definition try_except {A} (body : result A) (cls : exn -> bool)
    (handler : exn -> result A) : result A :=
  match body with
  | Ok a => Ok a
  | Raise e => if cls e then handler e else Raise e
  end.

(* ================================================================== *)
(** * The calendar of [datetime] *)

Module PyCalendar.

Definition MINYEAR : Z := 1.
Definition MAXYEAR : Z := 9999.
Definition _MAXORDINAL : Z := 3652059.

Record date : Type := mkdate { year : Z; month : Z; day : Z }.

Definition date_eqb (a b : date) : bool :=
  (year a =? year b) && (month a =? month b) && (day a =? day b).

Definition _is_leap (y : Z) : bool :=
  (y mod 4 =? 0) && (negb (y mod 100 =? 0) || (y mod 400 =? 0)).

Definition _DAYS_IN_MONTH (m : Z) : Z :=
  match m with
  | 1 => 31 | 2 => 28 | 3 => 31 | 4 => 30 | 5 => 31 | 6 => 30
  | 7 => 31 | 8 => 31 | 9 => 30 | 10 => 31 | 11 => 30 | 12 => 31
  | _ => -1
  end.

Definition _DAYS_BEFORE_MONTH (m : Z) : Z :=
  match m with
  | 1 => 0 | 2 => 31 | 3 => 59 | 4 => 90 | 5 => 120 | 6 => 151
  | 7 => 181 | 8 => 212 | 9 => 243 | 10 => 273 | 11 => 304 | 12 => 334
  | _ => -1
  end.

Definition b2z (b : bool) : Z := if b then 1 else 0.

Definition _days_before_year (y : Z) : Z :=
  let y := y - 1 in y * 365 + y / 4 - y / 100 + y / 400.

Definition _days_in_month (y m : Z) : Z :=
  if (m =? 2) && _is_leap y then 29 else _DAYS_IN_MONTH m.

Definition _days_before_month (y m : Z) : Z :=
  _DAYS_BEFORE_MONTH m + b2z ((2 <? m) && _is_leap y).

Definition _ymd2ord (y m d : Z) : Z :=
  _days_before_year y + _days_before_month y m + d.

Definition _DI400Y : Z := 146097.
Definition _DI100Y : Z := 36524.
Definition _DI4Y : Z := 1461.

(** The tail of [_ord2ymd]: month and day from the zero-based day [n] of
    the year. *)
Definition month_day (leapyear : bool) (n : Z) : Z * Z :=
  let month := Z.shiftr (n + 50) 5 in
  let preceding := _DAYS_BEFORE_MONTH month + b2z ((2 <? month) && leapyear) in
  if n <? preceding then
    let month := month - 1 in
    let preceding :=
      preceding - (_DAYS_IN_MONTH month + b2z ((month =? 2) && leapyear)) in
    (month, n - preceding + 1)
  else (month, n - preceding + 1).

Definition _ord2ymd (n : Z) : date :=
  let n := n - 1 in
  let n400 := n / _DI400Y in
  let n := n mod _DI400Y in
  let y := n400 * 400 + 1 in
  let n100 := n / _DI100Y in
  let n := n mod _DI100Y in
  let n4 := n / _DI4Y in
  let n := n mod _DI4Y in
  let n1 := n / 365 in
  let n := n mod 365 in
  let y := y + n100 * 100 + n4 * 4 + n1 in
  if (n1 =? 4) || (n100 =? 4) then mkdate (y - 1) 12 31
  else
    let leapyear := (n1 =? 3) && (negb (n4 =? 24) || (n100 =? 3)) in
    let '(m, d) := month_day leapyear n in
    mkdate y m d.

(** [_check_date_fields]: the test every [date] and [datetime]
    constructor applies. *)
Definition valid_ymd (y m d : Z) : bool :=
  (MINYEAR <=? y) && (y <=? MAXYEAR) &&
  (1 <=? m) && (m <=? 12) &&
  (1 <=? d) && (d <=? _days_in_month y m).

Definition valid_date (x : date) : bool := valid_ymd (year x) (month x) (day x).

(** [datetime.date(year, month, day)] *)
Definition date_new (y m d : Z) : result date :=
  if valid_ymd y m d then Ok (mkdate y m d) else Raise ValueError.

Definition toordinal (x : date) : Z := _ymd2ord (year x) (month x) (day x).
Definition fromordinal (n : Z) : date := _ord2ymd n.

(** [timedelta(days=n)]: the constructor refuses more than 999999999 days. *)
Definition timedelta_days (n : Z) : result Z :=
  if Z.abs n <=? 999999999 then Ok n else Raise OverflowError.

(** [date + timedelta(days=k)] *)
Definition date_add (x : date) (k : Z) : result date :=
  let o := toordinal x + k in
  if (0 <? o) && (o <=? _MAXORDINAL) then Ok (fromordinal o)
  else Raise OverflowError.

(** Calendar order on dates. *)
Definition date_ltb (a b : date) : bool :=
  (year a <? year b)
  || ((year a =? year b) &&
      ((month a <? month b) || ((month a =? month b) && (day a <? day b)))).

End PyCalendar.

(* ================================================================== *)
(** * Text: Python [str] as a sequence of code points *)

Module PyText.

Definition cp : Type := N.
Definition text : Type := list cp.

(** Decoding of the UTF-8 literals of this file into code points:
    [need] continuation bytes are still expected for the code point
    accumulated in [acc]. *)
Fixpoint utf8_go (s : string) (need : nat) (acc : N) : text :=
  match s with
  | EmptyString => []
  | String a s' =>
      let b := N_of_ascii a in
      match need with
      | O =>
          if (b <? 128)%N then b :: utf8_go s' 0 0%N
          else if (b <? 224)%N then utf8_go s' 1 (b - 192)%N
          else if (b <? 240)%N then utf8_go s' 2 (b - 224)%N
          else utf8_go s' 3 (b - 240)%N
      | S O => (acc * 64 + (b - 128))%N :: utf8_go s' 0 0%N
      | S k => utf8_go s' k (acc * 64 + (b - 128))%N
      end
  end.

Definition u (s : string) : text := utf8_go s 0 0%N.

(** The single code point of a one-character literal. *)
Definition ch (s : string) : cp := hd 0%N (u s).

Definition is_digit (c : cp) : bool := ((48 <=? c) && (c <=? 57))%N.
Definition is_space (c : cp) : bool :=
  ((c =? 32) || ((9 <=? c) && (c <=? 13)))%N.

Definition digit_val (c : cp) : Z := Z.of_N c - 48.
Definition digit_char (k : Z) : cp := Z.to_N (k + 48).

Definition digits_val (s : text) : Z :=
  fold_left (fun acc c => acc * 10 + digit_val c) s 0.

Fixpoint lstrip (s : text) : text :=
  match s with
  | c :: s' => if is_space c then lstrip s' else s
  | [] => []
  end.

Definition strip (s : text) : text := rev (lstrip (rev (lstrip s))).

Definition int_digits (s : text) : result Z :=
  match s with
  | [] => Raise ValueError
  | _ => if forallb is_digit s then Ok (digits_val s) else Raise ValueError
  end.

(** [int(s)] on a string: surrounding white space, an optional sign and
    ASCII decimal digits.  (Underscore separators and the decimal digits
    of other scripts, which [int] also accepts, never reach the calls in
    the code in texts over ASCII digits.) *)
Definition py_int (s : text) : result Z :=
  match strip s with
  | c :: ds =>
      if (c =? 43)%N then int_digits ds
      else if (c =? 45)%N then n <- int_digits ds ;; Ok (- n)
      else int_digits (c :: ds)
  | [] => Raise ValueError
  end.

(** [str(n)] for a non-negative integer, most significant digit first. *)
Fixpoint str_digits (fuel : nat) (n : Z) (acc : text) : text :=
  match fuel with
  | O => acc
  | S f =>
      let acc := digit_char (n mod 10) :: acc in
      if n <? 10 then acc else str_digits f (n / 10) acc
  end.

Definition py_str (n : Z) : text := str_digits (S (Z.to_nat (Z.log2 n))) n [].

(** [f"{n:02d}"] for a non-negative integer: zero padding to width two. *)
Definition fmt_02d (n : Z) : text :=
  let s := py_str n in
  List.repeat (ch "0") (2 - List.length s) ++ s.

(** [f"{year}-{month:02d}-{day:02d}"] *)
Definition iso_text (y m d : Z) : text :=
  py_str y ++ ch "-" :: fmt_02d m ++ ch "-" :: fmt_02d d.

End PyText.

(* ================================================================== *)
(** * The Python values handled by the date code *)

Module PyValue.
Import PyCalendar PyText.

Record time_of_day : Type :=
  mktime { hour : Z; minute : Z; second : Z; microsecond : Z }.

Definition midnight : time_of_day := mktime 0 0 0 0.

(** [VTimedelta n] is a [timedelta] of [n] whole days, the only kind the
    code builds or obtains. *)
Inductive pyval : Type :=
  | VNone
  | VInt (z : Z)
  | VStr (s : text)
  | VDate (d : date)
  | VDatetime (d : date) (t : time_of_day)
  | VTimedelta (days : Z).

(** [datetime(year, month, day)] *)
Definition datetime_new (y m d : Z) : result pyval :=
  x <- date_new y m d ;; Ok (VDatetime x midnight).

(** [v + timedelta(days=k)] *)
Definition py_add_days (v : pyval) (k : Z) : result pyval :=
  match v with
  | VDate d => x <- date_add d k ;; Ok (VDate x)
  | VDatetime d t => x <- date_add d k ;; Ok (VDatetime x t)
  | VTimedelta n => s <- timedelta_days (n + k) ;; Ok (VTimedelta s)
  | VNone | VInt _ | VStr _ => Raise TypeError
  end.

(** [v - today] where [today] is a [date] object. *)
Definition py_sub_date (v : pyval) (today : date) : result pyval :=
  match v with
  | VDate d => Ok (VTimedelta (toordinal d - toordinal today))
  | _ => Raise TypeError
  end.

(** [v.days] *)
Definition attr_days (v : pyval) : result Z :=
  match v with
  | VTimedelta n => Ok n
  | _ => Raise AttributeError
  end.

(** Truth value of an optional integer argument: [None] and [0] are false. *)
Definition truthy (o : option Z) : bool :=
  match o with
  | Some z => negb (z =? 0)
  | None => false
  end.

Definition int_arg (o : option Z) : Z :=
  match o with
  | Some z => z
  | None => 0
  end.

(** The date of a date-like value, for stating results. *)
Definition date_part (v : pyval) : option date :=
  match v with
  | VDate d => Some d
  | VDatetime d _ => Some d
  | _ => None
  end.

End PyValue.

(* ================================================================== *)
(** * Regular expressions: the fragment used by the patterns *)

Module Regex.
Import PyText.

(** Character classes: [\d], a bracket set such as [[-./]], a bracket
    range such as [[0-2]]. *)
Inductive cclass : Type :=
  | CDigit
  | CSet (cs : list cp)
  | CRange (lo hi : cp).

Definition cmatch (k : cclass) (c : cp) : bool :=
  match k with
  | CDigit => is_digit c
  | CSet cs => existsb (N.eqb c) cs
  | CRange lo hi => ((lo <=? c) && (c <=? hi))%N
  end.

(** [Rep k lo hi] is the greedy repetition [k{lo,hi}] of a class ([hi]
    absent for [*] and [+]); [Grp r] is a capturing group.  In every
    pattern of the code the groups follow one another at top level, so
    the captures are kept in the order they are closed, which is the
    order of their numbers. *)
Inductive regex : Type :=
  | Eps
  | Chr (c : cp)
  | Cls (k : cclass)
  | Seq (r1 r2 : regex)
  | Alt (r1 r2 : regex)
  | Grp (r : regex)
  | Rep (k : cclass) (lo : nat) (hi : option nat).

Fixpoint rseq (rs : list regex) : regex :=
  match rs with
  | [] => Eps
  | r :: rs' => Seq r (rseq rs')
  end.

Fixpoint ralt (r : regex) (rs : list regex) : regex :=
  match rs with
  | [] => r
  | r' :: rs' => Alt r (ralt r' rs')
  end.

(** A literal string. *)
Definition lit (s : string) : regex := rseq (map Chr (u s)).

Fixpoint ngroups (r : regex) : nat :=
  match r with
  | Seq r1 r2 | Alt r1 r2 => ngroups r1 + ngroups r2
  | Grp r => S (ngroups r)
  | _ => 0
  end.

(** Length of the longest prefix of [s] in class [k], at most [limit]. *)
Fixpoint span (k : cclass) (limit : option nat) (s : text) : nat :=
  match s with
  | c :: s' =>
      if cmatch k c then
        match limit with
        | Some O => O
        | Some (S l) => S (span k (Some l) s')
        | None => S (span k None s')
        end
      else O
  | [] => O
  end.

(** The repetition counts a greedy quantifier tries: [n], [n-1], ..., [lo]. *)
Definition rep_choices (lo n : nat) : list nat := rev (seq lo (S n - lo)).

(** What was consumed between [s] and its suffix [rest]. *)
Definition consumed (s rest : text) : text :=
  firstn (List.length s - List.length rest) s.

(** All the ways [r] matches a prefix of [s], in the order a backtracking
    matcher tries them: the captures and the unread rest. *)
Fixpoint rx_run (r : regex) (s : text) : list (list text * text) :=
  match r with
  | Eps => [([], s)]
  | Chr c =>
      match s with
      | x :: s' => if (x =? c)%N then [([], s')] else []
      | [] => []
      end
  | Cls k =>
      match s with
      | x :: s' => if cmatch k x then [([], s')] else []
      | [] => []
      end
  | Seq r1 r2 =>
      flat_map
        (fun '(g1, s1) => map (fun '(g2, s2) => (g1 ++ g2, s2)) (rx_run r2 s1))
        (rx_run r1 s)
  | Alt r1 r2 => rx_run r1 s ++ rx_run r2 s
  | Grp r1 => map (fun '(g, s') => (consumed s s' :: g, s')) (rx_run r1 s)
  | Rep k lo hi =>
      map (fun j => ([], skipn j s)) (rep_choices lo (span k hi s))
  end.

(** [pattern.match(s)]: the first way, if any. *)
Definition rx_match (r : regex) (s : text) : option (list text * text) :=
  match rx_run r s with
  | m :: _ => Some m
  | [] => None
  end.

(** An element of the list [re.findall] returns: a string when the
    pattern has at most one group, the tuple of the groups otherwise. *)
Inductive fitem : Type :=
  | FStr (s : text)
  | FTuple (gs : list text).

Definition item_of (r : regex) (s : text) (m : list text * text) : fitem :=
  match ngroups r with
  | O => FStr (consumed s (snd m))
  | S O => FStr (hd [] (fst m))
  | _ => FTuple (fst m)
  end.

(** The scan of [re.findall]: leftmost match, then on from its end;
    [skip] characters are still covered by the last match.  (For
    patterns that cannot match the empty string, as all those of the
    code.) *)
Fixpoint findall_from (r : regex) (skip : nat) (s : text) : list fitem :=
  match s with
  | [] => []
  | _ :: s' =>
      match skip with
      | S k => findall_from r k s'
      | O =>
          match rx_match r s with
          | Some m =>
              item_of r s m
                :: findall_from r (List.length s - List.length (snd m) - 1) s'
          | None => findall_from r 0 s'
          end
      end
  end.

Definition findall (r : regex) (s : text) : list fitem := findall_from r 0 s.

(** [len(match)] and the iteration over [match]: a string is the
    sequence of its characters. *)
Definition fitem_items (m : fitem) : list text :=
  match m with
  | FStr s => map (fun c => [c]) s
  | FTuple gs => gs
  end.

Definition fitem_len (m : fitem) : nat := List.length (fitem_items m).

End Regex.

(* ================================================================== *)
(** * [date_recognizer.py]: class [DateRecognizer] *)

Module DateRecognizer.
Import PyCalendar PyText PyValue Regex.

Inductive cand_type : Type := production_date | shelf_life.

(** The dictionaries [parse_date_patterns] appends: one with the key
    ['date'], one with the key ['shelf_life_months']. *)
Inductive candidate : Type :=
  | DateCand (date_obj : pyval) (type : cand_type) (txt : text)
             (confidence : Q)
  | ShelfCand (shelf_life_months : Z) (type : cand_type) (txt : text)
              (confidence : Q).

(** [x.get('confidence', 0)] *)
Definition get_confidence (x : candidate) : Q :=
  match x with
  | DateCand _ _ _ c => c
  | ShelfCand _ _ _ c => c
  end.

Definition get_text (x : candidate) : text :=
  match x with
  | DateCand _ _ t _ => t
  | ShelfCand _ _ t _ => t
  end.

Definition get_type (x : candidate) : cand_type :=
  match x with
  | DateCand _ ty _ _ => ty
  | ShelfCand _ ty _ _ => ty
  end.

Definition d4 : regex := Grp (Rep CDigit 4 (Some 4%nat)).
Definition d12 : regex := Grp (Rep CDigit 1 (Some 2%nat)).
Definition sep : regex := Cls (CSet (u "-./")).
Definition sep_year : regex := Cls (CSet (u "-./年")).
Definition sep_month : regex := Cls (CSet (u "-./月")).
Definition colon : cclass := CSet (u "：:").

(** The list [patterns], in its order. *)
Definition pat_cn_ymd : regex :=      (* (\d{4})年(\d{1,2})月(\d{1,2})日 *)
  rseq [d4; lit "年"; d12; lit "月"; d12; lit "日"].
Definition pat_cn_ym : regex :=       (* (\d{4})年(\d{1,2})月 *)
  rseq [d4; lit "年"; d12; lit "月"].
Definition pat_num_ymd : regex :=     (* (\d{4})[-./](\d{1,2})[-./](\d{1,2}) *)
  rseq [d4; sep; d12; sep; d12].
Definition pat_num_ym : regex :=      (* (\d{4})[-./](\d{1,2}) *)
  rseq [d4; sep; d12].
Definition pat_prod_date : regex :=
  (* 生产日期[：:](\d{4})[-./年](\d{1,2})[-./月](\d{1,2}) *)
  rseq [lit "生产日期"; Cls colon; d4; sep_year; d12; sep_month; d12].
Definition pat_prod : regex :=
  (* 生产[：:]*(\d{4})[-./年](\d{1,2})[-./月](\d{1,2}) *)
  rseq [lit "生产"; Rep colon 0 None; d4; sep_year; d12; sep_month; d12].
Definition pat_manufacture : regex :=
  (* 制造日期[：:](\d{4})[-./年](\d{1,2})[-./月](\d{1,2}) *)
  rseq [lit "制造日期"; Cls colon; d4; sep_year; d12; sep_month; d12].
Definition pat_shelf_months : regex := (* 保质期[：:](\d{1,2})[个]*月 *)
  rseq [lit "保质期"; Cls colon; d12; Rep (CSet (u "个")) 0 None; lit "月"].
Definition pat_best_before : regex :=
  (* 保质期至[：:]*(\d{4})[-./年](\d{1,2})[-./月](\d{1,2}) *)
  rseq [lit "保质期至"; Rep colon 0 None; d4; sep_year; d12; sep_month; d12].

Definition patterns : list regex :=
  [ pat_cn_ymd; pat_cn_ym; pat_num_ymd; pat_num_ym;
    pat_prod_date; pat_prod; pat_manufacture;
    pat_shelf_months; pat_best_before ].

(** Loops that append to one list, any iteration of which may raise. *)
Fixpoint for_each {A B} (f : A -> result (list B)) (l : list A)
    : result (list B) :=
  match l with
  | [] => Ok []
  | x :: l' => ys <- f x ;; zs <- for_each f l' ;; Ok (ys ++ zs)
  end.

Fixpoint map_result {A B} (f : A -> result B) (l : list A) : result (list B) :=
  match l with
  | [] => Ok []
  | x :: l' => y <- f x ;; ys <- map_result f l' ;; Ok (y :: ys)
  end.

(** The [try] block run on one element of [re.findall]: what it appends. *)
Definition match_body (txt : text) (m : fitem) : result (list candidate) :=
  match fitem_len m with
  | 3%nat =>
      nums <- map_result py_int (fitem_items m) ;;
      match nums with
      | [y; mo; d] =>
          date_obj <- datetime_new y mo d ;;
          Ok [DateCand date_obj production_date txt (8 # 10)]
      | _ => Raise ValueError
      end
  | 2%nat =>
      nums <- map_result py_int (fitem_items m) ;;
      match nums with
      | [y; mo] =>
          date_obj <- datetime_new y mo 1 ;;
          Ok [DateCand date_obj production_date txt (6 # 10)]
      | _ => Raise ValueError
      end
  | 1%nat =>
      months <- py_int (nth 0 (fitem_items m) []) ;;
      Ok [ShelfCand months shelf_life txt (7 # 10)]
  | _ => Ok []
  end.

(** [try: ... except ValueError: continue] *)
Definition on_match (txt : text) (m : fitem) : result (list candidate) :=
  try_except (match_body txt m) is_ValueError (fun _ => Ok []).

Definition pattern_candidates (txt : text) (pattern : regex)
    : result (list candidate) :=
  for_each (on_match txt) (findall pattern txt).

Definition text_candidates (txt : text) : result (list candidate) :=
  for_each (pattern_candidates txt) patterns.

Definition parse_date_patterns (texts : list text) : result (list candidate) :=
  for_each text_candidates texts.

(** [max(dates, key=...)]: the running best is replaced only by an item
    whose key is strictly greater. *)
Definition Qgtb (a b : Q) : bool := negb (Qle_bool a b).

Fixpoint max_from {A} (key : A -> Q) (best : A) (l : list A) : A :=
  match l with
  | [] => best
  | x :: l' =>
      if Qgtb (key x) (key best) then max_from key x l'
      else max_from key best l'
  end.

Definition py_max {A} (key : A -> Q) (l : list A) : result A :=
  match l with
  | [] => Raise ValueError
  | x :: l' => Ok (max_from key x l')
  end.

Definition is_nil {A} (l : list A) : bool :=
  match l with
  | [] => true
  | _ => false
  end.

(** [recognize_date] from the point where the texts have been extracted
    from the image; [None] is Python's [None]. *)
Definition recognize_texts (texts : list text) : result (option candidate) :=
  try_except
    (if is_nil texts then Ok None
     else
       dates <- parse_date_patterns texts ;;
       if is_nil dates then Ok None
       else best_date <- py_max get_confidence dates ;; Ok (Some best_date))
    is_Exception (fun _ => Ok None).

(** [calculate_expiry_date]; [VNone] is the [None] of the handler. *)
Definition calculate_expiry_date (production : pyval)
    (shelf_life_months shelf_life_days : option Z) : result pyval :=
  try_except
    (if truthy shelf_life_months then
       td <- timedelta_days (int_arg shelf_life_months * 30) ;;
       py_add_days production td
     else if truthy shelf_life_days then
       td <- timedelta_days (int_arg shelf_life_days) ;;
       py_add_days production td
     else
       td <- timedelta_days 180 ;;
       py_add_days production td)
    is_Exception (fun _ => Ok VNone).

(** The state [get_days_remaining] reads and writes: the system clock
    ([datetime.now()]) and the log. *)
Inductive log_record : Type :=
  | LogError (msg : string) (e : exn).

Record world : Type :=
  mkworld { clock_date : date; clock_time : time_of_day;
            log : list log_record }.

Definition emit (w : world) (r : log_record) : world :=
  mkworld (clock_date w) (clock_time w) (log w ++ [r]).

(** The [try] block of [get_days_remaining]. *)
Definition days_remaining_body (w : world) (expiry_date : pyval) : result Z :=
  let today := clock_date w in
  let expiry_date :=
    match expiry_date with
    | VDatetime d _ => VDate d
    | v => v
    end in
  delta <- py_sub_date expiry_date today ;;
  remaining <- attr_days delta ;;
  Ok remaining.

Definition get_days_remaining (w : world) (expiry_date : pyval)
    : result Z * world :=
  match days_remaining_body w expiry_date with
  | Ok remaining => (Ok remaining, w)
  | Raise e =>
      if is_Exception e then
        (Ok 0, emit w (LogError "Days remaining calculation failed" e))
      else (Raise e, w)
  end.

End DateRecognizer.

(* ================================================================== *)
(** * [ocr_processor.py]: [OCRProcessor.parse_date] *)

Module OCRProcessor.
Import PyCalendar PyText PyValue Regex.

Definition formats : list text :=
  map u [ "%Y-%m-%d"; "%Y/%m/%d"; "%Y.%m.%d"; "%Y年%m月%d日";
          "%d-%m-%Y"; "%d/%m/%Y"; "%d.%m.%Y";
          "%m-%d-%Y"; "%m/%d/%Y"; "%m.%d.%Y" ]%string.

(** The directives of the formats and their regular expressions in
    [_strptime.TimeRE]. *)
Inductive directive : Type := DirY | Dirm | Dird.

Definition directive_of (c : cp) : option directive :=
  if (c =? ch "Y")%N then Some DirY
  else if (c =? ch "m")%N then Some Dirm
  else if (c =? ch "d")%N then Some Dird
  else None.

Definition range (a b : string) : regex := Cls (CRange (ch a) (ch b)).

Definition directive_regex (d : directive) : regex :=
  match d with
  | DirY => (* \d\d\d\d *)
      rseq [Cls CDigit; Cls CDigit; Cls CDigit; Cls CDigit]
  | Dirm => (* 1[0-2]|0[1-9]|[1-9] *)
      ralt (Seq (lit "1") (range "0" "2"))
           [Seq (lit "0") (range "1" "9"); range "1" "9"]
  | Dird => (* 3[0-1]|[1-2]\d|0[1-9]|[1-9]| [1-9] *)
      ralt (Seq (lit "3") (range "0" "1"))
           [Seq (range "1" "2") (Cls CDigit);
            Seq (lit "0") (range "1" "9");
            range "1" "9";
            Seq (lit " ") (range "1" "9")]
  end.

(** [TimeRE.pattern]: the regular expression of a format and the
    directives of its groups, in order.  A [%] not followed by one of the
    directives above is refused.  (The formats hold no white space, which
    [pattern] would turn into [\s+].) *)
Fixpoint format_pattern (fmt : text) : option (regex * list directive) :=
  match fmt with
  | [] => Some (Eps, [])
  | c :: rest =>
      if (c =? ch "%")%N then
        match rest with
        | [] => None
        | k :: rest' =>
            match directive_of k, format_pattern rest' with
            | Some d, Some (r, ds) =>
                Some (Seq (Grp (directive_regex d)) r, d :: ds)
            | _, _ => None
            end
        end
      else
        match format_pattern rest with
        | Some (r, ds) => Some (Seq (Chr c) r, ds)
        | None => None
        end
  end.

(** The fields found, starting from the defaults 1900-01-01. *)
Fixpoint assign_fields (ds : list directive) (gs : list text)
    (acc : Z * Z * Z) : result (Z * Z * Z) :=
  match ds, gs with
  | d :: ds', g :: gs' =>
      v <- py_int g ;;
      let '(y, m, dd) := acc in
      assign_fields ds' gs'
        match d with
        | DirY => (v, m, dd)
        | Dirm => (y, v, dd)
        | Dird => (y, m, v)
        end
  | _, _ => Ok acc
  end.

(** [datetime.datetime.strptime(date_text, fmt).date()] *)
Definition strptime_date (date_text fmt : text) : result date :=
  match format_pattern fmt with
  | None => Raise ValueError
  | Some (r, ds) =>
      match rx_match r date_text with
      | None => Raise ValueError
      | Some (gs, rest) =>
          match rest with
          | _ :: _ => Raise ValueError
          | [] =>
              f <- assign_fields ds gs (1900, 1, 1) ;;
              let '(y, m, d) := f in
              date_new y m d
          end
      end
  end.

(** The loop over [formats]: the first format that parses wins. *)
Fixpoint try_formats (date_text : text) (fmts : list text)
    : result (option date) :=
  match fmts with
  | [] => Ok None
  | fmt :: fmts' =>
      match strptime_date date_text fmt with
      | Ok d => Ok (Some d)
      | Raise e =>
          if is_ValueError e then try_formats date_text fmts' else Raise e
      end
  end.

Definition fitem_str (m : fitem) : text :=
  match m with
  | FStr s => s
  | FTuple _ => []
  end.

(** The last resort: the digit groups of the text. *)
Definition guess_from_numbers (date_text : text) : result (option date) :=
  let numbers := map fitem_str (findall (Rep CDigit 1 None) date_text) in
  if (3 <=? List.length numbers)%nat then
    let n0 := nth 0 numbers [] in
    let n1 := nth 1 numbers [] in
    let n2 := nth 2 numbers [] in
    let year_first := (List.length n0 =? 4)%nat in
    y <- (if year_first then py_int n0 else py_int n2) ;;
    m <- py_int n1 ;;
    d <- (if year_first then py_int n2 else py_int n0) ;;
    try_except (x <- date_new y m d ;; Ok (Some x))
               is_ValueError (fun _ => Ok None)
  else Ok None.

Definition parse_date (date_text : text) : result date :=
  r <- try_formats date_text formats ;;
  match r with
  | Some d => Ok d
  | None =>
      g <- guess_from_numbers date_text ;;
      match g with
      | Some d => Ok d
      | None => Raise ValueError
      end
  end.

End OCRProcessor.

(* ================================================================== *)
(** * Vocabulary of the specification *)

Module Spec.
Import PyCalendar PyText PyValue Regex DateRecognizer OCRProcessor.

(** A production date as the code receives it: a valid [date] or
    [datetime]. *)
Definition valid_production (v : pyval) : bool :=
  match v with
  | VDate p => valid_date p
  | VDatetime p _ => valid_date p
  | _ => false
  end.

Definition in_date_range (n : Z) : Prop := 1 <= n <= _MAXORDINAL.

(** "[r] is [production] plus [k] calendar days": the same kind of
    value, [k] days later on the calendar, with the time of day kept;
    when no such date exists ([date.max] is 9999-12-31) the function
    yields [None]. *)
Definition is_plus_days (r : result pyval) (production : pyval) (k : Z)
    : Prop :=
  match production with
  | VDate p =>
      (in_date_range (toordinal p + k) ->
       exists e, r = Ok (VDate e) /\ valid_date e = true
                 /\ toordinal e = toordinal p + k)
      /\ (~ in_date_range (toordinal p + k) -> r = Ok VNone)
  | VDatetime p t =>
      (in_date_range (toordinal p + k) ->
       exists e, r = Ok (VDatetime e t) /\ valid_date e = true
                 /\ toordinal e = toordinal p + k)
      /\ (~ in_date_range (toordinal p + k) -> r = Ok VNone)
  | _ => False
  end.

(** An optional shelf life counts as absent when it is [None] or [0]. *)
Definition absent (o : option Z) : Prop := o = None \/ o = Some 0.

(** What a candidate appended for the element [m] of [re.findall] on
    [txt] looks like: the confidence follows the number of fields, and a
    date is a valid calendar date at midnight. *)
Definition candidate_of (txt : text) (m : fitem) (c : candidate) : Prop :=
  (fitem_len m = 3%nat
   /\ exists d, c = DateCand (VDatetime d midnight) production_date txt (8 # 10)
               /\ valid_date d = true)
  \/ (fitem_len m = 2%nat
      /\ exists d, c = DateCand (VDatetime d midnight) production_date txt (6 # 10)
                  /\ valid_date d = true /\ day d = 1)
  \/ (fitem_len m = 1%nat
      /\ exists n, c = ShelfCand n shelf_life txt (7 # 10)).

(** [c] is among the candidates pattern [p] yields on the fragment [txt]. *)
Definition from_pattern (txt : text) (p : regex) (c : candidate) : Prop :=
  exists l, pattern_candidates txt p = Ok l /\ In c l.


(** A candidate that carries a date carries a valid one. *)
Definition well_formed (c : candidate) : Prop :=
  match c with
  | DateCand (VDatetime d _) _ _ _ => valid_date d = true
  | DateCand _ _ _ _ => False
  | ShelfCand _ _ _ _ => True
  end.

(** [r] is the first element of [l] with the greatest key. *)
Definition first_greatest {A} (key : A -> Q) (r : A) (l : list A) : Prop :=
  exists pre post,
    l = pre ++ r :: post
    /\ (forall x, In x pre -> (key x < key r)%Q)
    /\ (forall x, In x post -> (key x <= key r)%Q).

End Spec.

(* ================================================================== *)
(** * Definitions used by the proofs *)

Module Support.
Import PyCalendar PyText PyValue Regex DateRecognizer OCRProcessor.

(** The integers [lo], [lo+1], ..., [lo+len-1]. *)
Definition zrange (lo : Z) (len : nat) : list Z :=
  map (fun i => lo + Z.of_nat i) (seq 0 len).

(** What [month_day] must satisfy on day [n] of a year. *)
Definition month_day_ok (leap : bool) (n : Z) : bool :=
  let '(m, d) := month_day leap n in
  (1 <=? m) && (m <=? 12) && (1 <=? d)
  && (d <=? _DAYS_IN_MONTH m + b2z ((m =? 2) && leap))
  && (_DAYS_BEFORE_MONTH m + b2z ((2 <? m) && leap) + d =? n + 1).

(** The three branches of [calculate_expiry_date] share this shape:
    build the [timedelta], add it, and turn any exception into [None]. *)
Definition add_days_or_none (v : pyval) (k : Z) : result pyval :=
  try_except (bind (timedelta_days k) (py_add_days v))
             is_Exception (fun _ => Ok VNone).

(** Alternatives hold no capturing group: then every way of matching
    yields as many captures as the pattern has groups. *)
Fixpoint uniform (r : regex) : bool :=
  match r with
  | Seq r1 r2 => uniform r1 && uniform r2
  | Alt r1 r2 =>
      (ngroups r1 =? 0)%nat && (ngroups r2 =? 0)%nat
      && uniform r1 && uniform r2
  | Grp r1 => uniform r1
  | _ => true
  end.

(** Every group is a bounded repetition of at most [h] characters. *)
Fixpoint caps_le (h : nat) (r : regex) : bool :=
  match r with
  | Seq r1 r2 | Alt r1 r2 => caps_le h r1 && caps_le h r2
  | Grp (Rep _ _ (Some hi)) => (hi <=? h)%nat
  | Grp _ => false
  | _ => true
  end.

(** The text after the year in [f"{year}-{month:02d}-{day:02d}"], and
    the pattern of [%Y-%m-%d] after its year group. *)
Definition iso_tail (m d : Z) : text :=
  ch "-" :: fmt_02d m ++ ch "-" :: fmt_02d d.

Definition iso_tail_regex : regex :=
  Seq (Chr (ch "-"))
      (Seq (Grp (directive_regex Dirm))
           (Seq (Chr (ch "-")) (Seq (Grp (directive_regex Dird)) Eps))).

Definition int_is (s : text) (n : Z) : bool :=
  match py_int s with
  | Ok v => v =? n
  | Raise _ => false
  end.

Definition text_eqb (a b : text) : bool :=
  (List.length a =? List.length b)%nat
  && forallb (fun p => (fst p =? snd p)%N) (combine a b).

(** On the tail for month [md / 100] and day [md mod 100], the pattern
    either captures exactly these two numbers up to the end of the text,
    or the month or day is out of the ranges 1..12 and 1..31 and the
    match fails or leaves text unread. *)
Definition iso_tail_check (md : Z) : bool :=
  let m := md / 100 in
  let d := md mod 100 in
  let in_ranges := (1 <=? m) && (m <=? 12) && (1 <=? d) && (d <=? 31) in
  match rx_match iso_tail_regex (iso_tail m d) with
  | Some ([gm; gd], []) => int_is gm m && int_is gd d
  | Some (_, []) => false
  | Some (_, _ :: _) => negb in_ranges
  | None => negb in_ranges
  end.

(** The digit groups of the tail are the month and the day. *)
Definition iso_tail_numbers_check (md : Z) : bool :=
  let m := md / 100 in
  let d := md mod 100 in
  match findall (Rep CDigit 1 None) (iso_tail m d) with
  | [FStr gm; FStr gd] => int_is gm m && int_is gd d
  | _ => false
  end.

(** The first directive of a format and the literal that follows it. *)
Definition fmt_shape (fmt : text) : option (directive * cp) :=
  match fmt with
  | c :: k :: rest =>
      if (c =? ch "%")%N then
        match directive_of k, format_pattern rest with
        | Some d, Some (Seq (Chr sep) _, _) => Some (d, sep)
        | _, _ => None
        end
      else None
  | _ => None
  end.

End Support.

(* ================================================================== *)
(** * [main.py]: [ScanScreen.on_date_recognized] *)

Module ScanScreen.
Import PyCalendar PyText PyValue Regex DateRecognizer OCRProcessor.

(** What the callback ends with: the values it shows and hands to
    [add_product_record], or the request for manual input of its
    [except] branch. *)
Inductive scan_outcome : Type :=
  | Saved (production expiry : date) (days_remaining : Z)
  | ManualInput (e : exn).

(** [product_info['shelf_life']], where [get_product_info] returns
    [None] for an unknown bar code. *)
Definition shelf_life_of (product_info : option Z) : result Z :=
  match product_info with
  | Some k => Ok k
  | None => Raise TypeError
  end.

(** The class of the object in [self.ocr_processor].  The class
    [OCRProcessor] of [ocr_processor.py] has the method [parse_date];
    [DateRecognizer] has none, and [main.py] sets
    [OCRProcessor = DateRecognizer] before [ScanScreen] instantiates it. *)
Inductive ocr_class : Type := ClsDateRecognizer | ClsOCRProcessor.

Definition main_OCRProcessor : ocr_class := ClsDateRecognizer.

(** The attribute lookup [self.ocr_processor.parse_date]. *)
Definition getattr_parse_date (c : ocr_class)
    : result (text -> result date) :=
  match c with
  | ClsOCRProcessor => Ok parse_date
  | ClsDateRecognizer => Raise AttributeError
  end.

(** [today] is [datetime.datetime.now().date()]. *)
Definition on_date_recognized (ocr_processor : ocr_class) (today : date)
    (product_info : option Z) (date_text : text) : result scan_outcome :=
  try_except
    (parse <- getattr_parse_date ocr_processor ;;
     production_date <- parse date_text ;;
     shelf_life <- shelf_life_of product_info ;;
     td <- timedelta_days shelf_life ;;
     expiry_date <- date_add production_date td ;;
     Ok (Saved production_date expiry_date
               (toordinal expiry_date - toordinal today)))
    is_Exception (fun e => Ok (ManualInput e)).

End ScanScreen.

(* ================================================================== *)
(** * [database.py]: the dates of [DatabaseManager.add_product_record] *)

Module Database.
Import PyCalendar PyText PyValue Regex DateRecognizer OCRProcessor Support.

(** [d.strftime('%Y-%m-%d')].  (For years from 1000 on; below, the
    padding of [%Y] depends on the C library.) *)
Definition strftime_ymd (d : date) : text :=
  iso_text (year d) (month d) (day d).

(** Truth value of the Python values. *)
Definition truthy_val (v : pyval) : bool :=
  match v with
  | VNone => false
  | VInt z => negb (z =? 0)
  | VStr s => negb (is_nil s)
  | VDate _ | VDatetime _ _ => true
  | VTimedelta n => negb (n =? 0)
  end.

(** The white space of [str.strip()]: the characters for which
    [str.isspace] holds. *)
Definition is_whitespace (c : cp) : bool :=
  (((9 <=? c) && (c <=? 13)) || ((28 <=? c) && (c <=? 32))
   || (c =? 133) || (c =? 160) || (c =? 5760)
   || ((8192 <=? c) && (c <=? 8202))
   || (c =? 8232) || (c =? 8233) || (c =? 8239) || (c =? 8287)
   || (c =? 12288))%N.

Fixpoint lstrip_ws (s : text) : text :=
  match s with
  | c :: s' => if is_whitespace c then lstrip_ws s' else s
  | [] => []
  end.

Definition strip_ws (s : text) : text := rev (lstrip_ws (rev (lstrip_ws s))).

(** [v.strip()] *)
Definition str_strip (v : pyval) : result text :=
  match v with
  | VStr s => Ok (strip_ws s)
  | _ => Raise AttributeError
  end.

(** The treatment of [production_date] and of [expiry_date]: a date
    becomes its ISO text, a blank string becomes [None]. *)
Definition normalize_date (v : pyval) : result pyval :=
  match v with
  | VDate d | VDatetime d _ => Ok (VStr (strftime_ymd d))
  | _ =>
      if truthy_val v then
        s <- str_strip v ;;
        if is_nil s then Ok VNone else Ok v
      else Ok v
  end.

(** The [try] block that computes the remaining days from the expiry. *)
Definition remaining_body (today : date) (expiry_date : pyval) : result Z :=
  expiry_dt <-
    match expiry_date with
    | VStr s => d <- strptime_date s (u "%Y-%m-%d") ;; Ok (VDate d)
    | v => Ok v
    end ;;
  delta <- py_sub_date expiry_dt today ;;
  attr_days delta.

(** [days_remaining] as stored: the given one, or the computed one, with
    [0] for whatever the bare [except] catches. *)
Definition stored_days_remaining (today : date) (expiry_date : pyval)
    (days_remaining : option Z) : option Z :=
  match days_remaining with
  | Some n => Some n
  | None =>
      if truthy_val expiry_date then
        match remaining_body today expiry_date with
        | Ok n => Some n
        | Raise _ => Some 0
        end
      else None
  end.

(** The three values [add_product_record] writes for the dates;
    [today] is [datetime.date.today()]. *)
Definition record_dates (today : date) (production_date expiry_date : pyval)
    (days_remaining : option Z) : result (pyval * pyval * option Z) :=
  p <- normalize_date production_date ;;
  e <- normalize_date expiry_date ;;
  Ok (p, e, stored_days_remaining today e days_remaining).

(** A row of [product_records], as far as the lists and counts below
    look at it. *)
Record product_record : Type :=
  mkrecord { rec_barcode : text; rec_name : text; rec_days_remaining : Z }.

(** The condition [filter_products] puts into [WHERE] for a status
    ([get_all_records] of [server.py] has the same): any other status, as
    ['全部'], adds none. *)
Definition status_where (status_filter : text) (r : product_record) : bool :=
  if text_eqb status_filter (u "正常") then 7 <? rec_days_remaining r
  else if text_eqb status_filter (u "即将过期")
  then (rec_days_remaining r <=? 7) && (0 <? rec_days_remaining r)
  else if text_eqb status_filter (u "已过期") then rec_days_remaining r <=? 0
  else true.

(** The rows [filter_products] selects, with an empty search text, in the
    order of the table ([ORDER BY] then sorts them by remaining days). *)
Definition filter_products_rows (status_filter : text)
    (rows : list product_record) : list product_record :=
  filter (status_where status_filter) rows.

(** [get_statistics]: total, expiring soon, expired. *)
Definition get_statistics (rows : list product_record) : nat * nat * nat :=
  (List.length rows,
   List.length
     (filter (fun r => (rec_days_remaining r <=? 7)
                       && (0 <? rec_days_remaining r)) rows),
   List.length (filter (fun r => rec_days_remaining r <=? 0) rows)).

(** [_update_days_remaining] on a row whose [expiry_date] holds the ISO
    text of [expiry]:
    [CAST((julianday(expiry_date) - julianday('now')) AS INTEGER)].
    [julianday] of a date is the midnight that opens it, ['now'] is the
    UTC clock, read in milliseconds ([utc_ms] since midnight), and [CAST]
    drops the fraction, rounding toward zero. *)
Definition day_ms : Z := 86400000.

Definition update_days_remaining (utc_date : date) (utc_ms : Z)
    (expiry : date) : Z :=
  Z.quot ((toordinal expiry - toordinal utc_date) * day_ms - utc_ms) day_ms.

End Database.

(* ================================================================== *)
(** * [product_manager.py]: class [ProductManager] *)

Module ProductManager.
Import PyCalendar PyText PyValue Database.

(** [get_products_by_expiry]: the list comprehension over the rows of
    [get_all_products]. *)
Definition get_products_by_expiry (all_products : list product_record)
    (days_threshold : Z) : list product_record :=
  filter (fun p => rec_days_remaining p <=? days_threshold) all_products.

End ProductManager.

(* ================================================================== *)
(** * [server.py]: the remaining days of [add_records] *)

Module Server.
Import PyCalendar PyText PyValue Regex DateRecognizer OCRProcessor.

Definition valid_time (t : time_of_day) : bool :=
  (0 <=? hour t) && (hour t <? 24) && (0 <=? minute t) && (minute t <? 60)
  && (0 <=? second t) && (second t <? 60)
  && (0 <=? microsecond t) && (microsecond t <? 1000000).

Definition micros (t : time_of_day) : Z :=
  ((hour t * 60 + minute t) * 60 + second t) * 1000000 + microsecond t.

Definition day_micros : Z := 86400 * 1000000.

(** [(a - b).days] for two [datetime] values: the [timedelta] is
    normalised with non-negative seconds and microseconds, so its days
    are the floor of the difference. *)
Definition datetime_sub_days (a : date) (ta : time_of_day)
    (b : date) (tb : time_of_day) : Z :=
  ((toordinal a - toordinal b) * day_micros + (micros ta - micros tb))
  / day_micros.

(** The [days_remaining] computed for one record; the clock is
    [datetime.now()]. *)
Definition record_days_remaining (now_date : date) (now_time : time_of_day)
    (expiry_text : text) : result Z :=
  expiry_date <- strptime_date expiry_text (u "%Y-%m-%d") ;;
  Ok (datetime_sub_days expiry_date midnight now_date now_time).

End Server.

(* ================================================================== *)
(** * Further vocabulary and definitions used by the proofs *)

Module Spec2.
Import PyCalendar PyText PyValue Regex DateRecognizer OCRProcessor.

(** The number of days [calculate_expiry_date] adds. *)
Definition shelf_days (m d : option Z) : Z :=
  if truthy m then 30 * int_arg m
  else if truthy d then int_arg d
  else 180.

(** Code points among which the decimal digits of Unicode, which [\d]
    matches, are the ASCII digits only: those below U+0660 (the first
    decimal digit outside ASCII), those from U+2000 to U+A61F
    (punctuation, symbols and the CJK blocks) and the fullwidth colon of
    the patterns. *)
Definition ascii_digits_only (c : cp) : bool :=
  ((c <? 1632) || ((8192 <=? c) && (c <=? 42527)) || (c =? 65306))%N.

Definition plain_text (s : text) : Prop :=
  forall c, In c s -> ascii_digits_only c = true.

(** No character of [s] is a decimal digit. *)
Definition no_digit (s : text) : Prop :=
  forall c, In c s -> is_digit c = false /\ ascii_digits_only c = true.

(** Every run of digits of [s] has at most nine digits, so that its
    value fits the C [int] of the [date] constructor. *)
Definition short_numbers (s : text) : Prop :=
  forall g, In g (findall (Rep CDigit 1 None) s) -> (fitem_len g <= 9)%nat.

(** A separator of a written date: a character that is no decimal
    digit. *)
Definition sep_char (c : cp) : Prop :=
  is_digit c = false /\ ascii_digits_only c = true.

(** A day or a month of one or two digits as a label writes it: with the
    leading zero or without. *)
Definition num (pad : bool) (n : Z) : text :=
  if pad then fmt_02d n else py_str n.

(** A date written year first, as [2024-01-15], [2024/1/15] or
    [2024年1月15日]: the separators and whatever follows the day are left
    open. *)
Definition year_first_text (y : Z) (s1 : cp) (pm : bool) (m : Z) (s2 : cp)
    (pd : bool) (d : Z) (trailer : text) : text :=
  py_str y ++ s1 :: num pm m ++ s2 :: num pd d ++ trailer.

(** A date written year last, as [15-01-2024] or [1/15/2024]: two small
    numbers [a] and [b], then the year. *)
Definition year_last_text (pa : bool) (a : Z) (s1 : cp) (pb : bool) (b : Z)
    (s2 : cp) (y : Z) : text :=
  num pa a ++ s1 :: num pb b ++ s2 :: py_str y.

(** What stands before a date on a label, as [生产日期:]: a text without
    digits that does not start with a blank. *)
Definition is_label (l : text) : Prop :=
  no_digit l /\ exists c rest, l = c :: rest /\ c <> 32%N.

(** The two separators are the same one of [-], [/] and [.], those of the
    [strptime] formats that end with the year. *)
Definition format_seps (s1 s2 : cp) : bool :=
  ((s1 =? s2) && ((s1 =? ch "-") || (s1 =? ch "/") || (s1 =? ch ".")))%N.

(** A fragment that gives a shelf life in months, as [保质期：6个月] or
    [保质期:12月]: the label, one of the two colons, the digits, and [月]
    with or without [个]. *)
Definition month_count_text (colon : cp) (digits : text) (ge : bool) : text :=
  u "保质期" ++ colon :: digits ++ (if ge then u "个月" else u "月").

End Spec2.

Module Support2.
Import PyCalendar PyText PyValue Regex DateRecognizer OCRProcessor Support.

Definition is_CDigit (k : cclass) : bool :=
  match k with
  | CDigit => true
  | _ => false
  end.

(** Every group is a repetition of [\d]. *)
Fixpoint caps_digits (r : regex) : bool :=
  match r with
  | Seq r1 r2 | Alt r1 r2 => caps_digits r1 && caps_digits r2
  | Grp (Rep k _ _) => is_CDigit k
  | Grp _ => false
  | _ => true
  end.

(** Every match reads at least one digit. *)
Fixpoint needs_digit (r : regex) : bool :=
  match r with
  | Seq r1 r2 => needs_digit r1 || needs_digit r2
  | Alt r1 r2 => needs_digit r1 && needs_digit r2
  | Grp r1 => needs_digit r1
  | Cls k => is_CDigit k
  | Rep k lo _ => is_CDigit k && (1 <=? lo)%nat
  | _ => false
  end.

(** The shapes of the ten [strptime] formats. *)
Definition year_first_regex (a b : cp) (E : regex) : regex :=
  Seq (Grp (directive_regex DirY))
      (Seq (Chr a)
           (Seq (Grp (directive_regex Dirm))
                (Seq (Chr b) (Seq (Grp (directive_regex Dird)) E)))).

Definition year_last_regex (d1 d2 : directive) (f : cp) : regex :=
  Seq (Grp (directive_regex d1))
      (Seq (Chr f)
           (Seq (Grp (directive_regex d2))
                (Seq (Chr f) (Seq (Grp (directive_regex DirY)) Eps)))).

(** The formats in the order [parse_date] tries them: year first, then
    day first, then month first. *)
Definition year_first_formats : list text := firstn 4 formats.
Definition day_first_formats : list text := firstn 3 (skipn 4 formats).
Definition month_first_formats : list text := skipn 7 formats.

(** What [strptime] makes of the three groups of a format. *)
Definition date_of_groups (ds : list directive) (gs : list text)
    : result date :=
  f <- assign_fields ds gs (1900, 1, 1) ;;
  let '(y, m, d) := f in
  date_new y m d.

(** The text is empty or starts with a character that is no digit. *)
Definition starts_no_digit (s : text) : Prop :=
  match s with
  | [] => True
  | c :: _ => is_digit c = false
  end.

(** What a written number of one or two digits must satisfy. *)
Definition num_check (n : Z) : bool :=
  forallb
    (fun pad =>
       match Spec2.num pad n with
       | [a] => is_digit a && int_is [a] n
       | [a; b] => is_digit a && is_digit b && int_is [a; b] n
       | _ => false
       end)
    [true; false].

(** What the group of a directive must do on a written number: read it
    whole, when the number is in the range of the directive. *)
Definition group_check (dir : directive) (hi : Z) (n : Z) : bool :=
  forallb
    (fun pad =>
       let s := Spec2.num pad n in
       if (1 <=? n) && (n <=? hi)
       then existsb (fun m => text_eqb (hd [] (fst m)) s && is_nil (snd m))
                    (rx_run (Grp (directive_regex dir)) s)
       else true)
    [true; false].

(** Every match reads the character [c]. *)
Fixpoint needs_chr (c : cp) (r : regex) : bool :=
  match r with
  | Chr x => (x =? c)%N
  | Seq r1 r2 => needs_chr c r1 || needs_chr c r2
  | Alt r1 r2 => needs_chr c r1 && needs_chr c r2
  | Grp r1 => needs_chr c r1
  | _ => false
  end.

(** On the tail of an ISO text for month [md / 100] and day [md mod 100],
    the two numeric patterns, after their year group, read the two digits
    of the month (and of the day) and find nothing in what they leave. *)
Definition iso_extract_check (md : Z) : bool :=
  let m := md / 100 in
  let d := md mod 100 in
  match rx_run (rseq [sep; d12; sep; d12]) (iso_tail m d),
        rx_run (rseq [sep; d12]) (iso_tail m d) with
  | ([gm; gd], rest3) :: _, ([gm'], rest2) :: _ =>
      int_is gm m && int_is gd d && int_is gm' m
      && is_nil (findall_from pat_num_ymd 0 rest3)
      && is_nil (findall_from pat_num_ym 0 rest2)
  | _, _ => false
  end.

End Support2.

(* ================================================================== *)
(** * Proofs *)

Import PyCalendar PyText PyValue Regex DateRecognizer OCRProcessor Spec Support.

(* ================================================================== *)
(** * Properties of the calendar *)

(** ** Checking a decidable property on an interval by evaluation *)

Lemma zrange_forallb (P : Z -> bool) (lo : Z) (len : nat) :
  forallb P (zrange lo len) = true ->
  forall z, lo <= z < lo + Z.of_nat len -> P z = true.
Proof.
  intros H z Hz. rewrite forallb_forall in H. apply H.
  unfold zrange. apply in_map_iff. exists (Z.to_nat (z - lo)). split.
  - lia.
  - apply in_seq. lia.
Qed.

(** ** Day of the year to month and day *)

Lemma month_day_spec (leap : bool) (n : Z) :
  0 <= n < 365 + b2z leap -> month_day_ok leap n = true.
Proof.
  intros Hn. destruct leap.
  - apply (zrange_forallb (month_day_ok true) 0 366); [vm_compute; reflexivity|].
    simpl in *. lia.
  - apply (zrange_forallb (month_day_ok false) 0 365); [vm_compute; reflexivity|].
    simpl in *. lia.
Qed.

Lemma is_leap_spec y :
  _is_leap y = true <-> (y mod 4 = 0 /\ (y mod 100 <> 0 \/ y mod 400 = 0)).
Proof.
  unfold _is_leap. rewrite andb_true_iff, orb_true_iff, negb_true_iff.
  rewrite !Z.eqb_eq, Z.eqb_neq. tauto.
Qed.

(** ** Years counted in cycles of 400, 100, 4 and 1 *)

Lemma days_before_year_cycles a b c e :
  0 <= b <= 3 -> 0 <= c <= 24 -> 0 <= e <= 3 ->
  _days_before_year (400 * a + 100 * b + 4 * c + e + 1)
  = 146097 * a + 36524 * b + 1461 * c + 365 * e.
Proof.
  intros Hb Hc He. unfold _days_before_year.
  Z.to_euclidean_division_equations. lia.
Qed.

Lemma is_leap_cycles a b c e :
  0 <= b <= 3 -> 0 <= c <= 24 -> 0 <= e <= 3 ->
  _is_leap (400 * a + 100 * b + 4 * c + e + 1)
  = (e =? 3) && (negb (c =? 24) || (b =? 3)).
Proof.
  intros Hb Hc He. unfold _is_leap.
  set (Y := 400 * a + 100 * b + 4 * c + e + 1).
  assert (H4 : Y mod 4 = (e + 1) mod 4).
  { subst Y. Z.to_euclidean_division_equations. lia. }
  assert (H100 : Y mod 100 = (4 * c + e + 1) mod 100).
  { subst Y. Z.to_euclidean_division_equations. lia. }
  assert (H400 : Y mod 400 = (100 * b + 4 * c + e + 1) mod 400).
  { subst Y. Z.to_euclidean_division_equations. lia. }
  rewrite H4, H100, H400. clear H4 H100 H400 Y.
  destruct (e =? 3) eqn:E3; [apply Z.eqb_eq in E3 | apply Z.eqb_neq in E3].
  - subst e. replace ((3 + 1) mod 4) with 0 by reflexivity. cbn [Z.eqb andb].
    destruct (c =? 24) eqn:E24; [apply Z.eqb_eq in E24 | apply Z.eqb_neq in E24].
    + subst c. replace ((4 * 24 + 3 + 1) mod 100) with 0 by reflexivity.
      cbn [Z.eqb negb orb].
      destruct (b =? 3) eqn:Eb; [apply Z.eqb_eq in Eb | apply Z.eqb_neq in Eb].
      * subst b. reflexivity.
      * apply Z.eqb_neq. Z.to_euclidean_division_equations. lia.
    + assert ((4 * c + 3 + 1) mod 100 <> 0)
        by (Z.to_euclidean_division_equations; lia).
      apply Z.eqb_neq in H. rewrite H. reflexivity.
  - assert ((e + 1) mod 4 <> 0) by (Z.to_euclidean_division_equations; lia).
    apply Z.eqb_neq in H. rewrite H. reflexivity.
Qed.

(** ** [_ord2ymd] inverts [_ymd2ord] and yields valid dates *)

Lemma ord2ymd_sound (n : Z) :
  1 <= n ->
  let x := _ord2ymd n in
  _ymd2ord (year x) (month x) (day x) = n
  /\ 1 <= year x /\ 1 <= month x <= 12
  /\ 1 <= day x <= _days_in_month (year x) (month x)
  /\ (n <= _MAXORDINAL -> year x <= MAXYEAR).
Proof.
  intros Hn. unfold _ord2ymd, _DI400Y, _DI100Y, _DI4Y.
  set (n0 := n - 1).
  set (n400 := n0 / 146097). set (r400 := n0 mod 146097).
  set (n100 := r400 / 36524). set (r100 := r400 mod 36524).
  set (n4 := r100 / 1461). set (r4 := r100 mod 1461).
  set (n1 := r4 / 365). set (r := r4 mod 365).
  assert (Hn0 : n0 = n - 1) by reflexivity.
  assert (E400 : n0 = 146097 * n400 + r400) by (apply Z.div_mod; lia).
  assert (R400 : 0 <= r400 < 146097) by (apply Z.mod_pos_bound; lia).
  assert (E100 : r400 = 36524 * n100 + r100) by (apply Z.div_mod; lia).
  assert (R100 : 0 <= r100 < 36524) by (apply Z.mod_pos_bound; lia).
  assert (E4 : r100 = 1461 * n4 + r4) by (apply Z.div_mod; lia).
  assert (R4 : 0 <= r4 < 1461) by (apply Z.mod_pos_bound; lia).
  assert (E1 : r4 = 365 * n1 + r) by (apply Z.div_mod; lia).
  assert (R1 : 0 <= r < 365) by (apply Z.mod_pos_bound; lia).
  assert (B400 : 0 <= n400) by (apply Z.div_pos; lia).
  clearbody n400 r400 n100 r100 n4 r4 n1 r n0.
  assert (B100 : 0 <= n100 <= 4) by lia.
  assert (B4 : 0 <= n4 <= 24) by lia.
  assert (B1 : 0 <= n1 <= 4) by lia.
  unfold _MAXORDINAL, MAXYEAR.
  destruct ((n1 =? 4) || (n100 =? 4)) eqn:Hend.
  - (* the last day of a leap year closing a cycle *)
    cbn [year month day].
    apply orb_true_iff in Hend. rewrite !Z.eqb_eq in Hend.
    assert (Hcyc : exists b c,
               0 <= b <= 3 /\ 0 <= c <= 24 /\ ((c =? 24) = false \/ b = 3) /\
               n400 * 400 + 1 + n100 * 100 + n4 * 4 + n1 - 1
               = 400 * n400 + 100 * b + 4 * c + 3 + 1 /\
               n0 = 146097 * n400 + 36524 * b + 1461 * c + 365 * 3 + 365).
    { destruct Hend as [H|H].
      - exists n100, n4. repeat split; try lia.
      - exists 3, 24. repeat split; try lia. }
    destruct Hcyc as (b & c & Hb & Hc & Hbc & HY & HN).
    rewrite HY.
    unfold _ymd2ord, _days_before_month, _days_in_month.
    rewrite days_before_year_cycles, is_leap_cycles by lia.
    assert (HL : (3 =? 3) && (negb (c =? 24) || (b =? 3)) = true).
    { destruct Hbc as [-> | ->]; [reflexivity|]. cbn. apply orb_true_r. }
    rewrite HL.
    change (_DAYS_BEFORE_MONTH 12 + b2z ((2 <? 12) && true)) with 335.
    change (if (12 =? 2) && true then 29 else _DAYS_IN_MONTH 12) with 31.
    repeat split; lia.
  - apply orb_false_iff in Hend. rewrite !Z.eqb_neq in Hend.
    replace (n400 * 400 + 1 + n100 * 100 + n4 * 4 + n1)
      with (400 * n400 + 100 * n100 + 4 * n4 + n1 + 1) by lia.
    set (leapyear := (n1 =? 3) && (negb (n4 =? 24) || (n100 =? 3))).
    assert (HL : _is_leap (400 * n400 + 100 * n100 + 4 * n4 + n1 + 1) = leapyear)
      by (apply is_leap_cycles; lia).
    assert (Hr : 0 <= r < 365 + b2z leapyear).
    { destruct leapyear; cbn; lia. }
    pose proof (month_day_spec leapyear r Hr) as Hmd.
    unfold month_day_ok in Hmd.
    destruct (month_day leapyear r) as [m d].
    rewrite !andb_true_iff in Hmd.
    destruct Hmd as [[[[Hm1 Hm2] Hd1] Hd2] Hsum].
    apply Z.leb_le in Hm1, Hm2, Hd1, Hd2. apply Z.eqb_eq in Hsum.
    cbn [year month day].
    unfold _ymd2ord, _days_before_month, _days_in_month.
    rewrite days_before_year_cycles, HL by lia.
    assert (Hdim : _DAYS_IN_MONTH m + b2z ((m =? 2) && leapyear)
                   = if (m =? 2) && leapyear then 29 else _DAYS_IN_MONTH m).
    { destruct ((m =? 2) && leapyear) eqn:E; cbn; [|lia].
      apply andb_true_iff in E. destruct E as [E _]. apply Z.eqb_eq in E.
      subst m. reflexivity. }
    rewrite <- Hdim.
    repeat split; lia.
Qed.

(** ** Validity, bounds and order *)

Lemma valid_ymd_iff y m d :
  valid_ymd y m d = true <->
  1 <= y <= 9999 /\ 1 <= m <= 12 /\ 1 <= d <= _days_in_month y m.
Proof.
  unfold valid_ymd, MINYEAR, MAXYEAR.
  rewrite !andb_true_iff, !Z.leb_le. tauto.
Qed.

Ltac calc_months :=
  cbv [_DAYS_BEFORE_MONTH _DAYS_IN_MONTH b2z andb Z.ltb Z.eqb Z.compare
       Pos.compare Pos.compare_cont Pos.eqb].

Ltac month_cases m :=
  let H := fresh in
  assert (H : m = 1 \/ m = 2 \/ m = 3 \/ m = 4 \/ m = 5 \/ m = 6 \/ m = 7
              \/ m = 8 \/ m = 9 \/ m = 10 \/ m = 11 \/ m = 12) by lia;
  repeat (destruct H as [H | H]; [subst m | ]); [ .. | subst m].

Lemma day_of_year_bounds y m d :
  1 <= m <= 12 -> 1 <= d <= _days_in_month y m ->
  1 <= _days_before_month y m + d <= 365 + b2z (_is_leap y).
Proof.
  intros Hm. unfold _days_before_month, _days_in_month.
  month_cases m; destruct (_is_leap y); calc_months; lia.
Qed.

Lemma day_of_year_mono y m1 d1 m2 d2 :
  1 <= m1 <= 12 -> 1 <= m2 <= 12 ->
  1 <= d1 <= _days_in_month y m1 -> 1 <= d2 <= _days_in_month y m2 ->
  m1 < m2 \/ (m1 = m2 /\ d1 < d2) ->
  _days_before_month y m1 + d1 < _days_before_month y m2 + d2.
Proof.
  intros Hm1 Hm2. unfold _days_before_month, _days_in_month.
  month_cases m1; month_cases m2; destruct (_is_leap y); calc_months; lia.
Qed.

Lemma days_before_year_succ y :
  _days_before_year (y + 1) = _days_before_year y + 365 + b2z (_is_leap y).
Proof.
  unfold _days_before_year.
  destruct (_is_leap y) eqn:L.
  - apply is_leap_spec in L. cbn [b2z].
    destruct L as [L4 [L100 | L400]];
      Z.to_euclidean_division_equations; lia.
  - assert (N : ~ (y mod 4 = 0 /\ (y mod 100 <> 0 \/ y mod 400 = 0))).
    { rewrite <- is_leap_spec. congruence. }
    cbn [b2z].
    assert (C : y mod 4 <> 0 \/ (y mod 100 = 0 /\ y mod 400 <> 0)) by lia.
    destruct C as [C | [C1 C2]]; Z.to_euclidean_division_equations; lia.
Qed.

Lemma days_before_year_next y1 y2 :
  y1 < y2 ->
  _days_before_year y1 + 365 + b2z (_is_leap y1) <= _days_before_year y2.
Proof.
  intros H. rewrite <- days_before_year_succ.
  assert (G : forall k, 0 <= k ->
            _days_before_year (y1 + 1) <= _days_before_year (y1 + 1 + k)).
  { apply natlike_ind.
    - rewrite Z.add_0_r. lia.
    - intros k Hk IH. replace (y1 + 1 + Z.succ k) with (y1 + 1 + k + 1) by lia.
      rewrite (days_before_year_succ (y1 + 1 + k)).
      destruct (_is_leap (y1 + 1 + k)); cbn [b2z]; lia. }
  specialize (G (y2 - (y1 + 1))).
  replace (y1 + 1 + (y2 - (y1 + 1))) with y2 in G by lia.
  apply G. lia.
Qed.

Lemma valid_date_iff x :
  valid_date x = true <->
  1 <= year x <= 9999 /\ 1 <= month x <= 12
  /\ 1 <= day x <= _days_in_month (year x) (month x).
Proof. apply valid_ymd_iff. Qed.

(** Calendar order is the order of the ordinals. *)
Lemma toordinal_mono a b :
  valid_date a = true -> valid_date b = true ->
  date_ltb a b = true -> toordinal a < toordinal b.
Proof.
  intros Ha Hb Hlt. apply valid_date_iff in Ha, Hb.
  destruct Ha as (Hya & Hma & Hda), Hb as (Hyb & Hmb & Hdb).
  unfold toordinal, _ymd2ord. unfold date_ltb in Hlt.
  apply orb_true_iff in Hlt. destruct Hlt as [Hy | Hrest].
  - apply Z.ltb_lt in Hy.
    pose proof (days_before_year_next _ _ Hy).
    pose proof (day_of_year_bounds _ _ _ Hma Hda).
    pose proof (day_of_year_bounds _ _ _ Hmb Hdb). lia.
  - apply andb_true_iff in Hrest. destruct Hrest as [Hy Hmd].
    apply Z.eqb_eq in Hy.
    assert (Hc : month a < month b \/ (month a = month b /\ day a < day b)).
    { apply orb_true_iff in Hmd. destruct Hmd as [H | H].
      - left. now apply Z.ltb_lt.
      - right. apply andb_true_iff in H. destruct H as [H1 H2].
        split; [now apply Z.eqb_eq | now apply Z.ltb_lt]. }
    rewrite Hy in *.
    pose proof (day_of_year_mono (year b) _ _ _ _ Hma Hmb Hda Hdb Hc). lia.
Qed.

Lemma date_trichotomy a b :
  date_ltb a b = true \/ a = b \/ date_ltb b a = true.
Proof.
  destruct a as [ya ma da], b as [yb mb db]. unfold date_ltb. cbn.
  destruct (Z.lt_total ya yb) as [H | [H | H]].
  - left. apply orb_true_iff. left. now apply Z.ltb_lt.
  - subst yb. rewrite Z.ltb_irrefl, Z.eqb_refl. cbn.
    destruct (Z.lt_total ma mb) as [Hm | [Hm | Hm]].
    + left. apply orb_true_iff. left. now apply Z.ltb_lt.
    + subst mb. rewrite Z.ltb_irrefl, Z.eqb_refl. cbn.
      destruct (Z.lt_total da db) as [Hd | [Hd | Hd]].
      * left. now apply Z.ltb_lt.
      * right. left. now subst.
      * right. right. now apply Z.ltb_lt.
    + right. right. apply orb_true_iff. left. now apply Z.ltb_lt.
  - right. right. apply orb_true_iff. left. now apply Z.ltb_lt.
Qed.

Lemma toordinal_inj a b :
  valid_date a = true -> valid_date b = true ->
  toordinal a = toordinal b -> a = b.
Proof.
  intros Ha Hb E.
  destruct (date_trichotomy a b) as [H | [H | H]]; [| exact H |].
  - pose proof (toordinal_mono _ _ Ha Hb H). lia.
  - pose proof (toordinal_mono _ _ Hb Ha H). lia.
Qed.

Lemma toordinal_bounds x :
  valid_date x = true -> 1 <= toordinal x <= _MAXORDINAL.
Proof.
  intros Hx. apply valid_date_iff in Hx. destruct Hx as (Hy & Hm & Hd).
  unfold toordinal, _ymd2ord, _MAXORDINAL.
  pose proof (day_of_year_bounds _ _ _ Hm Hd) as Hdoy.
  assert (H1 : _days_before_year 1 = 0) by reflexivity.
  assert (HM : _days_before_year 10000 = 3652059) by reflexivity.
  assert (Hlo : 0 <= _days_before_year (year x)).
  { destruct (Z.eq_dec (year x) 1) as [-> | N]; [lia|].
    pose proof (days_before_year_next 1 (year x)).
    destruct (_is_leap 1); cbn [b2z] in *; lia. }
  pose proof (days_before_year_next (year x) 10000). lia.
Qed.

Lemma fromordinal_valid n :
  1 <= n <= _MAXORDINAL ->
  valid_date (fromordinal n) = true /\ toordinal (fromordinal n) = n.
Proof.
  intros [Hlo Hhi]. pose proof (ord2ymd_sound n Hlo) as H. cbn zeta in H.
  destruct H as (Hord & Hy & Hm & Hd & Hmax).
  split; [| exact Hord].
  apply valid_date_iff. unfold fromordinal. unfold MAXYEAR in Hmax. lia.
Qed.

Lemma fromordinal_toordinal x :
  valid_date x = true -> fromordinal (toordinal x) = x.
Proof.
  intros Hx. pose proof (toordinal_bounds x Hx) as Hb.
  destruct (fromordinal_valid _ Hb) as [Hv Ho].
  now apply toordinal_inj.
Qed.

(** [date + timedelta(days=k)] is the date [k] days later, when there is
    one. *)
Lemma date_add_spec x k :
  valid_date x = true ->
  (1 <= toordinal x + k <= _MAXORDINAL ->
   exists e, date_add x k = Ok e /\ valid_date e = true
             /\ toordinal e = toordinal x + k)
  /\ (~ 1 <= toordinal x + k <= _MAXORDINAL ->
      date_add x k = Raise OverflowError).
Proof.
  intros Hx. unfold date_add. split; intros H.
  - destruct (fromordinal_valid _ H) as [Hv Ho].
    exists (fromordinal (toordinal x + k)).
    replace ((0 <? toordinal x + k) && (toordinal x + k <=? _MAXORDINAL))
      with true by (symmetry; apply andb_true_iff; split;
                    [apply Z.ltb_lt | apply Z.leb_le]; lia).
    auto.
  - destruct ((0 <? toordinal x + k) && (toordinal x + k <=? _MAXORDINAL)) eqn:E;
      [|reflexivity].
    apply andb_true_iff in E. destruct E as [E1 E2].
    apply Z.ltb_lt in E1. apply Z.leb_le in E2. lia.
Qed.

(* ================================================================== *)
(** * The expiry calculator *)

Lemma huge_delta_out_of_range p k :
  valid_date p = true -> (Z.abs k <=? 999999999) = false ->
  ~ in_date_range (toordinal p + k).
Proof.
  intros Hp Hk [H1 H2]. apply Z.leb_gt in Hk.
  pose proof (toordinal_bounds p Hp). unfold _MAXORDINAL in *. lia.
Qed.

Lemma add_days_is_plus_days v k :
  valid_production v = true -> is_plus_days (add_days_or_none v k) v k.
Proof.
  intros Hv. unfold add_days_or_none.
  destruct v as [| | | p | p t |]; try discriminate; cbn in Hv |- *;
    unfold timedelta_days;
    (destruct (Z.abs k <=? 999999999) eqn:Hk; cbn;
     [ destruct (date_add_spec p k Hv) as [Hin Hout]; split; intros H;
       [ destruct (Hin H) as (e & -> & He & Ho); cbn; eauto
       | rewrite (Hout H); reflexivity ]
     | split; intros H;
       [ exfalso; exact (huge_delta_out_of_range p k Hv Hk H) | reflexivity ] ]).
Qed.

Lemma truthy_true_iff o : truthy o = true <-> exists z, o = Some z /\ z <> 0.
Proof.
  destruct o as [z|]; cbn.
  - rewrite negb_true_iff, Z.eqb_neq. split.
    + intros H. now exists z.
    + intros (z' & E & H). now inversion E; subst.
  - split; [discriminate | intros (z & E & _); discriminate].
Qed.

Lemma truthy_false_iff o : truthy o = false <-> absent o.
Proof.
  unfold absent. destruct o as [z|]; cbn.
  - rewrite negb_false_iff, Z.eqb_eq. split.
    + intros ->. now right.
    + intros [H | H]; now inversion H.
  - split; [now left | reflexivity].
Qed.

Lemma calculate_expiry_date_months v m d mm :
  m = Some mm -> mm <> 0 ->
  calculate_expiry_date v m d
  = add_days_or_none v (mm * 30).
Proof.
  intros -> H. unfold calculate_expiry_date. cbn.
  apply Z.eqb_neq in H. rewrite H. reflexivity.
Qed.

Lemma calculate_expiry_date_days v m d dd :
  absent m -> d = Some dd -> dd <> 0 ->
  calculate_expiry_date v m d
  = add_days_or_none v dd.
Proof.
  intros Hm -> H. apply truthy_false_iff in Hm.
  unfold calculate_expiry_date. rewrite Hm. cbn.
  apply Z.eqb_neq in H. rewrite H. reflexivity.
Qed.

Lemma calculate_expiry_date_default v m d :
  absent m -> absent d ->
  calculate_expiry_date v m d
  = add_days_or_none v 180.
Proof.
  intros Hm Hd. apply truthy_false_iff in Hm, Hd.
  unfold calculate_expiry_date. rewrite Hm, Hd. reflexivity.
Qed.

(** C1 (as stated) fails: with both shelf lives given, the months are
    used, not the days.  Production 2024-01-15, 12 months and 10 days
    give 2025-01-09 (360 days later), not 2024-01-25 (10 days later). *)
Lemma C1_days_do_not_win :
  calculate_expiry_date (VDate (mkdate 2024 1 15)) (Some 12) (Some 10)
    = Ok (VDate (mkdate 2025 1 9))
  /\ py_add_days (VDate (mkdate 2024 1 15)) 10 = Ok (VDate (mkdate 2024 1 25))
  /\ ~ is_plus_days
         (calculate_expiry_date (VDate (mkdate 2024 1 15)) (Some 12) (Some 10))
         (VDate (mkdate 2024 1 15)) 10.
Proof.
  split; [reflexivity|]. split; [reflexivity|].
  intros [Hin _].
  destruct Hin as (e & He & _ & Ho).
  - unfold in_date_range, _MAXORDINAL. vm_compute. split; discriminate.
  - inversion He; subst e. vm_compute in Ho. discriminate.
Qed.

(** C1 (amended): [calculate_expiry_date] gives the months precedence
    over the days.  With a non-zero [shelf_life_months] the result is
    production plus 30 days per month, whatever [shelf_life_days] is;
    with the months absent and a non-zero [shelf_life_days] it is
    production plus that many days; with both absent it is production
    plus 180 days. *)
Theorem C1_months_take_precedence (production : pyval) (m d : option Z) :
  valid_production production = true ->
  (forall mm, m = Some mm -> mm <> 0 ->
     is_plus_days (calculate_expiry_date production m d) production (30 * mm))
  /\ (forall dd, absent m -> d = Some dd -> dd <> 0 ->
     is_plus_days (calculate_expiry_date production m d) production dd)
  /\ (absent m -> absent d ->
     is_plus_days (calculate_expiry_date production m d) production 180).
Proof.
  intros Hv. repeat split.
  - intros mm Hm Hmm.
    rewrite (calculate_expiry_date_months _ _ _ _ Hm Hmm), Z.mul_comm.
    now apply add_days_is_plus_days.
  - intros dd Hm Hd Hdd.
    rewrite (calculate_expiry_date_days _ _ _ _ Hm Hd Hdd).
    now apply add_days_is_plus_days.
  - intros Hm Hd. rewrite (calculate_expiry_date_default _ _ _ Hm Hd).
    now apply add_days_is_plus_days.
Qed.

Lemma C1_months_take_precedence_witness :
  valid_production (VDate (mkdate 2024 1 15)) = true
  /\ is_plus_days
       (calculate_expiry_date (VDate (mkdate 2024 1 15)) (Some 12) (Some 10))
       (VDate (mkdate 2024 1 15)) (30 * 12).
Proof.
  split; [reflexivity|].
  refine (proj1 (C1_months_take_precedence (VDate (mkdate 2024 1 15))
                   (Some 12) (Some 10) eq_refl) 12 eq_refl _).
  discriminate.
Defined.

(** C3 (as stated) fails on its example: 2024 is a leap year, so 360
    days after 2024-01-15 is 2025-01-09, not 2025-01-10. *)
Lemma C3_example_is_2025_01_09 :
  calculate_expiry_date (VDate (mkdate 2024 1 15)) (Some 12) None
    = Ok (VDate (mkdate 2025 1 9))
  /\ calculate_expiry_date (VDate (mkdate 2024 1 15)) (Some 12) None
    <> Ok (VDate (mkdate 2025 1 10))
  /\ toordinal (mkdate 2025 1 10) - toordinal (mkdate 2024 1 15) = 361.
Proof.
  split; [reflexivity|]. split; [|reflexivity].
  vm_compute. discriminate.
Qed.

(** C3 (amended): with a positive [shelf_life_months] and no
    [shelf_life_days], the result is production plus 30 days per month,
    not a calendar-month addition; production 2024-01-15 with 12 months
    gives 2025-01-09, which is 360 days later (and not 2025-01-15). *)
Theorem C3_thirty_day_months (production : pyval) (mm : Z) :
  valid_production production = true -> 0 < mm ->
  is_plus_days (calculate_expiry_date production (Some mm) None)
               production (30 * mm)
  /\ calculate_expiry_date (VDate (mkdate 2024 1 15)) (Some 12) None
     = Ok (VDate (mkdate 2025 1 9))
  /\ toordinal (mkdate 2025 1 9) = toordinal (mkdate 2024 1 15) + 30 * 12.
Proof.
  intros Hv Hmm. split; [| split; reflexivity].
  rewrite (calculate_expiry_date_months _ _ _ mm eq_refl), Z.mul_comm by lia.
  now apply add_days_is_plus_days.
Qed.

Lemma C3_thirty_day_months_witness :
  is_plus_days
    (calculate_expiry_date (VDatetime (mkdate 2023 11 30) midnight) (Some 3) None)
    (VDatetime (mkdate 2023 11 30) midnight) (30 * 3).
Proof.
  apply (C3_thirty_day_months (VDatetime (mkdate 2023 11 30) midnight) 3);
    [reflexivity | lia].
Defined.

(** C9 (as stated) fails for the production dates within 180 days of
    9999-12-31: the day 180 days later is beyond [date.max], the addition
    overflows inside the [try] and the function returns [None]. *)
Lemma C9_no_date_180_days_after_9999_12_01 :
  valid_production (VDate (mkdate 9999 12 1)) = true
  /\ calculate_expiry_date (VDate (mkdate 9999 12 1)) (Some 0) (Some 0)
     = Ok VNone
  /\ ~ in_date_range (toordinal (mkdate 9999 12 1) + 180).
Proof.
  split; [reflexivity|]. split; [reflexivity|].
  unfold in_date_range. vm_compute. intros [_ H]. apply H. reflexivity.
Qed.

(** C9: a shelf life of [0] is treated like an absent one.  With both
    at [0] the result is production plus 180 days, the default ([None]
    where that day lies beyond 9999-12-31), and so differs from
    production itself; a [0] in either position behaves as [None]
    there. *)
Theorem C9_zero_is_absent (production : pyval) :
  valid_production production = true ->
  is_plus_days (calculate_expiry_date production (Some 0) (Some 0))
               production 180
  /\ calculate_expiry_date production (Some 0) (Some 0)
     = calculate_expiry_date production None None
  /\ calculate_expiry_date production (Some 0) (Some 0) <> Ok production
  /\ (forall d, calculate_expiry_date production (Some 0) d
                = calculate_expiry_date production None d)
  /\ (forall m, calculate_expiry_date production m (Some 0)
                = calculate_expiry_date production m None).
Proof.
  intros Hv.
  assert (H180 : is_plus_days
                   (calculate_expiry_date production (Some 0) (Some 0))
                   production 180).
  { rewrite calculate_expiry_date_default by (now right).
    now apply add_days_is_plus_days. }
  split; [exact H180|]. split; [reflexivity|]. split.
  - intros E. rewrite E in H180.
    destruct production as [| | | p | p t |]; try discriminate;
      cbn in H180; destruct H180 as [Hin Hout];
      (destruct (Z_le_dec (toordinal p + 180) _MAXORDINAL) as [Hle | Hgt];
       [ destruct Hin as (e & He & _ & Ho);
         [ pose proof (toordinal_bounds p Hv); unfold in_date_range; lia
         | inversion He; subst e; lia ]
       | assert (N : ~ in_date_range (toordinal p + 180))
           by (unfold in_date_range; lia);
         specialize (Hout N); discriminate ]).
  - split; intros; reflexivity.
Qed.

Lemma C9_zero_is_absent_witness :
  is_plus_days
    (calculate_expiry_date (VDate (mkdate 2024 1 15)) (Some 0) (Some 0))
    (VDate (mkdate 2024 1 15)) 180
  /\ calculate_expiry_date (VDate (mkdate 2024 1 15)) (Some 0) (Some 0)
     = Ok (VDate (mkdate 2024 7 13)).
Proof.
  split; [|reflexivity].
  apply (C9_zero_is_absent (VDate (mkdate 2024 1 15)) eq_refl).
Defined.

(* ================================================================== *)
(** * Remaining days *)

Lemma days_remaining_date w e :
  get_days_remaining w (VDate e)
  = (Ok (toordinal e - toordinal (clock_date w)), w).
Proof. reflexivity. Qed.

Lemma days_remaining_datetime w e t :
  get_days_remaining w (VDatetime e t) = get_days_remaining w (VDate e).
Proof. reflexivity. Qed.

(** C4: for an expiry date and the reference date (the date of the
    clock the function reads), [get_days_remaining] returns the signed
    number of whole days from the reference to the expiry: the
    difference of the day numbers, so that an expiry [k] days after the
    reference gives [k]; negative when the expiry is earlier, zero when
    the two are the same day; the time of day of a [datetime] is
    dropped.  Expiry 2024-01-01 seen on 2024-01-05 gives -4. *)
Theorem C4_signed_day_difference (w : world) (e : date) (t : time_of_day) :
  valid_date e = true -> valid_date (clock_date w) = true ->
  fst (get_days_remaining w (VDate e))
    = Ok (toordinal e - toordinal (clock_date w))
  /\ fst (get_days_remaining w (VDatetime e t))
    = Ok (toordinal e - toordinal (clock_date w))
  /\ (forall k, date_add (clock_date w) k = Ok e ->
        fst (get_days_remaining w (VDate e)) = Ok k)
  /\ (date_ltb e (clock_date w) = true ->
        toordinal e - toordinal (clock_date w) < 0)
  /\ (date_ltb (clock_date w) e = true ->
        0 < toordinal e - toordinal (clock_date w))
  /\ (toordinal e - toordinal (clock_date w) = 0 <-> e = clock_date w)
  /\ fst (get_days_remaining
            (mkworld (mkdate 2024 1 5) midnight [])
            (VDate (mkdate 2024 1 1))) = Ok (-4).
Proof.
  intros He Hw. repeat split; try reflexivity.
  - intros k Hk. cbn.
    destruct (Z_le_dec 1 (toordinal (clock_date w) + k)) as [H1 | H1];
      [destruct (Z_le_dec (toordinal (clock_date w) + k) _MAXORDINAL)
         as [H2 | H2] |].
    + destruct (proj1 (date_add_spec _ k Hw) (conj H1 H2)) as (e' & E & _ & Ho).
      rewrite E in Hk. inversion Hk; subst e'. f_equal. lia.
    + rewrite (proj2 (date_add_spec _ k Hw)) in Hk by lia. discriminate.
    + rewrite (proj2 (date_add_spec _ k Hw)) in Hk by lia. discriminate.
  - intros H. pose proof (toordinal_mono _ _ He Hw H). lia.
  - intros H. pose proof (toordinal_mono _ _ Hw He H). lia.
  - intros H. apply toordinal_inj; auto. lia.
  - intros ->. lia.
Qed.

Lemma C4_signed_day_difference_witness :
  fst (get_days_remaining (mkworld (mkdate 2024 1 5) midnight [])
         (VDate (mkdate 2024 1 1)))
  = Ok (toordinal (mkdate 2024 1 1) - toordinal (mkdate 2024 1 5)).
Proof.
  apply (C4_signed_day_difference (mkworld (mkdate 2024 1 5) midnight [])
           (mkdate 2024 1 1) midnight eq_refl eq_refl).
Defined.

(** C5 (as stated) fails: the reference date is not an argument but the
    system clock, so the same expiry date gives different results on
    different days. *)
Lemma C5_result_depends_on_clock :
  fst (get_days_remaining (mkworld (mkdate 2024 1 5) midnight [])
         (VDate (mkdate 2024 1 1))) = Ok (-4)
  /\ fst (get_days_remaining (mkworld (mkdate 2024 1 6) midnight [])
         (VDate (mkdate 2024 1 1))) = Ok (-5)
  /\ fst (get_days_remaining (mkworld (mkdate 2024 1 5) midnight [])
         (VDate (mkdate 2024 1 1)))
     <> fst (get_days_remaining (mkworld (mkdate 2024 1 6) midnight [])
         (VDate (mkdate 2024 1 1))).
Proof.
  split; [reflexivity|]. split; [reflexivity|]. vm_compute. discriminate.
Qed.

(** C5 (amended): [get_days_remaining] is a deterministic function of
    its argument and of the current date of the system clock: two calls
    with the same argument on the same day return the same integer,
    whatever the time of day and the earlier log.  For a [date] or
    [datetime] argument it leaves the state untouched; otherwise its only
    effect is one error record appended to the log. *)
Theorem C5_deterministic_given_clock_date (w1 w2 : world) (v : pyval) :
  clock_date w1 = clock_date w2 ->
  fst (get_days_remaining w1 v) = fst (get_days_remaining w2 v)
  /\ (forall e, v = VDate e \/ (exists t, v = VDatetime e t) ->
        snd (get_days_remaining w1 v) = w1)
  /\ (snd (get_days_remaining w1 v) = w1
      \/ exists r, snd (get_days_remaining w1 v) = emit w1 r).
Proof.
  intros Hc. repeat split.
  - unfold get_days_remaining, days_remaining_body. rewrite Hc.
    destruct v; reflexivity.
  - intros e [-> | [t ->]]; reflexivity.
  - destruct v; cbn; eauto.
Qed.

Lemma C5_deterministic_given_clock_date_witness :
  fst (get_days_remaining
         (mkworld (mkdate 2024 1 5) (mktime 9 30 0 0) [])
         (VDate (mkdate 2024 1 1)))
  = fst (get_days_remaining
         (mkworld (mkdate 2024 1 5) (mktime 23 59 59 0)
                  [LogError "earlier" TypeError])
         (VDate (mkdate 2024 1 1))).
Proof.
  apply (C5_deterministic_given_clock_date
           (mkworld (mkdate 2024 1 5) (mktime 9 30 0 0) [])
           (mkworld (mkdate 2024 1 5) (mktime 23 59 59 0)
                    [LogError "earlier" TypeError])
           (VDate (mkdate 2024 1 1)) eq_refl).
Defined.

(** C10: [get_days_remaining] never lets an exception out.  For every
    argument it returns an integer; whenever the computation inside the
    [try] raises (as it does on [None], an integer, a string or a
    [timedelta]) that integer is [0], which is also what an expiry on the
    current day gives. *)
Theorem C10_never_raises (w : world) (v : pyval) :
  (exists n, fst (get_days_remaining w v) = Ok n)
  /\ (forall e, days_remaining_body w v = Raise e ->
        fst (get_days_remaining w v) = Ok 0)
  /\ (date_part v = None ->
        days_remaining_body w v = Raise TypeError
        /\ fst (get_days_remaining w v) = Ok 0)
  /\ fst (get_days_remaining w (VDate (clock_date w))) = Ok 0.
Proof.
  repeat split.
  - destruct v; cbn; eauto.
  - intros e H. unfold get_days_remaining. rewrite H.
    destruct v; cbn in H; try discriminate; inversion H; reflexivity.
  - destruct v; cbn in *; congruence.
  - destruct v; cbn in *; congruence.
  - cbn. f_equal. lia.
Qed.

Lemma C10_never_raises_witness :
  fst (get_days_remaining (mkworld (mkdate 2024 1 5) midnight [])
         (VStr (u "2024-01-01"))) = Ok 0.
Proof.
  refine (proj1 (proj2 (C10_never_raises
                          (mkworld (mkdate 2024 1 5) midnight [])
                          (VStr (u "2024-01-01")))) TypeError _).
  reflexivity.
Defined.

(* ================================================================== *)
(** * The choice among candidates *)

Section MaxByKey.

Variable A : Type.
Variable key : A -> Q.

Lemma Qgtb_true (a b : Q) : Qgtb a b = true <-> (b < a)%Q.
Proof.
  unfold Qgtb. rewrite negb_true_iff. split.
  - intros H. apply Qnot_le_lt. intros L.
    apply Qle_bool_iff in L. congruence.
  - intros H. destruct (Qle_bool a b) eqn:E; [|reflexivity].
    apply Qle_bool_iff in E. exfalso. exact (Qlt_not_le _ _ H E).
Qed.

Lemma Qgtb_false (a b : Q) : Qgtb a b = false <-> (a <= b)%Q.
Proof.
  unfold Qgtb. rewrite negb_false_iff. apply Qle_bool_iff.
Qed.

Lemma max_from_split (l : list A) :
  forall (best : A) (pre mid : list A),
    (forall x, In x pre -> (key x < key best)%Q) ->
    (forall x, In x mid -> (key x <= key best)%Q) ->
    first_greatest key (max_from key best l) (pre ++ best :: mid ++ l).
Proof.
  induction l as [| x l IH]; intros best pre mid Hpre Hmid; cbn [max_from].
  - exists pre, mid. rewrite app_nil_r. auto.
  - destruct (Qgtb (key x) (key best)) eqn:E.
    + apply Qgtb_true in E.
      replace (pre ++ best :: mid ++ x :: l)
        with ((pre ++ best :: mid) ++ x :: [] ++ l)
        by (rewrite <- app_assoc; reflexivity).
      apply IH.
      * intros y Hy. apply in_app_or in Hy. destruct Hy as [Hy | [<- | Hy]].
        -- eapply Qlt_trans; [apply Hpre, Hy | exact E].
        -- exact E.
        -- eapply Qle_lt_trans; [apply Hmid, Hy | exact E].
      * intros y [].
    + apply Qgtb_false in E.
      replace (pre ++ best :: mid ++ x :: l)
        with (pre ++ best :: (mid ++ [x]) ++ l)
        by (rewrite <- app_assoc; reflexivity).
      apply IH; [exact Hpre|].
      intros y Hy. apply in_app_or in Hy. destruct Hy as [Hy | [<- | []]]; auto.
Qed.

Lemma py_max_first_greatest (l : list A) :
  l <> [] -> exists r, py_max key l = Ok r /\ first_greatest key r l.
Proof.
  destruct l as [| x l]; [congruence|]. intros _.
  exists (max_from key x l). split; [reflexivity|].
  apply (max_from_split l x [] []); intros y [].
Qed.

Lemma py_max_tie (a b : A) :
  (key a == key b)%Q -> py_max key [a; b] = Ok a.
Proof.
  intros E. cbn.
  assert (H : Qgtb (key b) (key a) = false).
  { apply Qgtb_false. rewrite E. apply Qle_refl. }
  now rewrite H.
Qed.

End MaxByKey.

(** C2 (as stated) fails: of two candidates of the same role with
    confidence 0.8 each and texts of 10 and 14 characters, in this
    order, the one with the 10-character text is selected. *)
Lemma C2_longer_text_not_preferred :
  let c10 := DateCand (VDatetime (mkdate 2024 1 15) midnight)
                      production_date (u "2024-01-15") (8 # 10) in
  let c14 := DateCand (VDatetime (mkdate 2024 1 15) midnight)
                      production_date (u "生产日期2024-01-15") (8 # 10) in
  List.length (get_text c10) = 10%nat
  /\ List.length (get_text c14) = 14%nat
  /\ get_type c10 = get_type c14
  /\ get_confidence c10 = get_confidence c14
  /\ py_max get_confidence [c10; c14] = Ok c10
  /\ c10 <> c14
  /\ parse_date_patterns [u "2024-01-15"; u "生产日期2024-01-15"]
     = Ok [c10;
           DateCand (VDatetime (mkdate 2024 1 1) midnight)
                    production_date (u "2024-01-15") (6 # 10);
           c14;
           DateCand (VDatetime (mkdate 2024 1 1) midnight)
                    production_date (u "生产日期2024-01-15") (6 # 10)]
  /\ recognize_texts [u "2024-01-15"; u "生产日期2024-01-15"] = Ok (Some c10).
Proof.
  cbv zeta. repeat split; try (vm_compute; reflexivity).
  vm_compute. discriminate.
Qed.

(** C2 (amended): the selection is Python's [max] on the confidence
    alone.  It returns the first candidate, in the order of extraction,
    among those of greatest confidence: every earlier candidate has a
    strictly smaller confidence, no later one a greater.  On a tie of two
    candidates the first is kept whatever the lengths of their texts. *)
Theorem C2_first_of_the_best (texts : list text) (dates : list candidate) :
  texts <> [] -> parse_date_patterns texts = Ok dates -> dates <> [] ->
  (exists best,
      recognize_texts texts = Ok (Some best)
      /\ py_max get_confidence dates = Ok best
      /\ first_greatest get_confidence best dates)
  /\ (forall c1 c2 : candidate,
        (get_confidence c1 == get_confidence c2)%Q ->
        py_max get_confidence [c1; c2] = Ok c1).
Proof.
  intros Ht Hp Hd. split.
  - destruct (py_max_first_greatest _ get_confidence dates Hd) as (r & Hr & Hf).
    exists r. repeat split; auto.
    unfold recognize_texts. rewrite Hp.
    destruct texts; [congruence|]. destruct dates; [congruence|].
    cbn in Hr |- *. inversion Hr. reflexivity.
  - intros c1 c2. apply py_max_tie.
Qed.

Lemma C2_first_of_the_best_witness :
  exists best,
    recognize_texts [u "生产日期:2024-01-15"] = Ok (Some best)
    /\ get_confidence best = (8 # 10)%Q.
Proof.
  destruct (C2_first_of_the_best
              [u "生产日期:2024-01-15"]
              [DateCand (VDatetime (mkdate 2024 1 15) midnight)
                 production_date (u "生产日期:2024-01-15") (8 # 10);
               DateCand (VDatetime (mkdate 2024 1 1) midnight)
                 production_date (u "生产日期:2024-01-15") (6 # 10);
               DateCand (VDatetime (mkdate 2024 1 15) midnight)
                 production_date (u "生产日期:2024-01-15") (8 # 10)])
    as [(best & Hr & Hm & _) _].
  - discriminate.
  - vm_compute. reflexivity.
  - discriminate.
  - exists best. split; [exact Hr|].
    vm_compute in Hm. inversion Hm. reflexivity.
Defined.

(* ================================================================== *)
(** * The matcher *)

(** ** Membership in the list of matches, by the shape of the pattern *)

Lemma in_rx_chr c s g s' :
  In (g, s') (rx_run (Chr c) s) <-> s = c :: s' /\ g = [].
Proof.
  cbn. destruct s as [| x s0]; [cbn; intuition discriminate|].
  destruct (N.eqb_spec x c) as [-> | N]; cbn.
  - split.
    + intros [E | []]. inversion E. auto.
    + intros [E ->]. inversion E. auto.
  - split; [tauto|]. intros [E _]. inversion E. congruence.
Qed.

Lemma in_rx_cls k s g s' :
  In (g, s') (rx_run (Cls k) s)
  <-> exists x, s = x :: s' /\ cmatch k x = true /\ g = [].
Proof.
  cbn. destruct s as [| x s0].
  - cbn. split; [tauto|]. intros (y & E & _). discriminate.
  - destruct (cmatch k x) eqn:M; cbn.
    + split.
      * intros [E | []]. inversion E. subst. eauto.
      * intros (y & E & _ & ->). inversion E. auto.
    + split; [tauto|]. intros (y & E & My & _). inversion E. congruence.
Qed.

Lemma in_rx_seq r1 r2 s g s' :
  In (g, s') (rx_run (Seq r1 r2) s)
  <-> exists g1 s1 g2,
        In (g1, s1) (rx_run r1 s) /\ In (g2, s') (rx_run r2 s1)
        /\ g = g1 ++ g2.
Proof.
  cbn. rewrite in_flat_map. split.
  - intros ([g1 s1] & H1 & H2). apply in_map_iff in H2.
    destruct H2 as ([g2 s2] & E & H2). inversion E; subst.
    exists g1, s1, g2. auto.
  - intros (g1 & s1 & g2 & H1 & H2 & ->).
    exists (g1, s1). split; [exact H1|].
    apply in_map_iff. exists (g2, s'). auto.
Qed.

Lemma in_rx_alt r1 r2 s m :
  In m (rx_run (Alt r1 r2) s) <-> In m (rx_run r1 s) \/ In m (rx_run r2 s).
Proof. cbn. apply in_app_iff. Qed.

Lemma in_rx_grp r s g s' :
  In (g, s') (rx_run (Grp r) s)
  <-> exists g0, In (g0, s') (rx_run r s) /\ g = consumed s s' :: g0.
Proof.
  cbn. rewrite in_map_iff. split.
  - intros ([g0 s0] & E & H). inversion E; subst. eauto.
  - intros (g0 & H & ->). exists (g0, s'). auto.
Qed.

Lemma span_le_length k limit s : (span k limit s <= List.length s)%nat.
Proof.
  revert limit. induction s as [| c s IH]; intros limit; cbn; [lia|].
  destruct (cmatch k c); [|lia].
  destruct limit as [[| l] |]; [lia | |].
  - specialize (IH (Some l)). lia.
  - specialize (IH None). lia.
Qed.

Lemma span_le_limit k hi s : (span k (Some hi) s <= hi)%nat.
Proof.
  revert hi. induction s as [| c s IH]; intros hi; cbn; [lia|].
  destruct (cmatch k c); [|lia].
  destruct hi as [| l]; [lia|]. specialize (IH l). lia.
Qed.

Lemma in_rep_choices lo n j : In j (rep_choices lo n) <-> (lo <= j <= n)%nat.
Proof.
  unfold rep_choices. rewrite <- in_rev, in_seq. lia.
Qed.

Lemma in_rx_rep k lo hi s g s' :
  In (g, s') (rx_run (Rep k lo hi) s)
  <-> exists j, (lo <= j <= span k hi s)%nat /\ s' = skipn j s /\ g = [].
Proof.
  cbn. rewrite in_map_iff. split.
  - intros (j & E & H). inversion E; subst. apply in_rep_choices in H. eauto.
  - intros (j & H & -> & ->). exists j. split; [reflexivity|].
    now apply in_rep_choices.
Qed.

(** ** The number and the size of the captures *)

Lemma rx_run_ngroups r :
  uniform r = true ->
  forall s g s', In (g, s') (rx_run r s) -> List.length g = ngroups r.
Proof.
  induction r as [| c | k | r1 IH1 r2 IH2 | r1 IH1 r2 IH2 | r1 IH1 | k lo hi];
    cbn [uniform ngroups]; intros U s g s' H.
  - cbn in H. destruct H as [E | []]. now inversion E.
  - apply in_rx_chr in H. now destruct H as [_ ->].
  - apply in_rx_cls in H. now destruct H as (x & _ & _ & ->).
  - apply andb_true_iff in U. destruct U as [U1 U2].
    apply in_rx_seq in H. destruct H as (g1 & s1 & g2 & H1 & H2 & ->).
    rewrite length_app, (IH1 U1 _ _ _ H1), (IH2 U2 _ _ _ H2). reflexivity.
  - rewrite !andb_true_iff in U. destruct U as [[[N1 N2] U1] U2].
    apply Nat.eqb_eq in N1, N2. rewrite N1, N2.
    apply in_rx_alt in H. destruct H as [H | H].
    + rewrite (IH1 U1 _ _ _ H). exact N1.
    + rewrite (IH2 U2 _ _ _ H). exact N2.
  - apply in_rx_grp in H. destruct H as (g0 & H & ->).
    cbn. now rewrite (IH1 U _ _ _ H).
  - apply in_rx_rep in H. now destruct H as (j & _ & _ & ->).
Qed.

Lemma consumed_skipn j s :
  (j <= List.length s)%nat -> consumed s (skipn j s) = firstn j s.
Proof.
  intros H. unfold consumed. rewrite length_skipn. f_equal. lia.
Qed.

Lemma rx_run_caps_le h r :
  caps_le h r = true ->
  forall s g s', In (g, s') (rx_run r s) ->
  Forall (fun x => (List.length x <= h)%nat) g.
Proof.
  induction r as [| c | k | r1 IH1 r2 IH2 | r1 IH1 r2 IH2 | r1 IH1 | k lo hi];
    cbn [caps_le]; intros U s g s' H.
  - cbn in H. destruct H as [E | []]. inversion E. constructor.
  - apply in_rx_chr in H. destruct H as [_ ->]. constructor.
  - apply in_rx_cls in H. destruct H as (x & _ & _ & ->). constructor.
  - apply andb_true_iff in U. destruct U as [U1 U2].
    apply in_rx_seq in H. destruct H as (g1 & s1 & g2 & H1 & H2 & ->).
    apply Forall_app. split; eauto.
  - apply andb_true_iff in U. destruct U as [U1 U2].
    apply in_rx_alt in H. destruct H as [H | H]; eauto.
  - destruct r1 as [| | | | | | k lo [hi |]]; try discriminate.
    apply Nat.leb_le in U.
    apply in_rx_grp in H. destruct H as (g0 & H & ->).
    apply in_rx_rep in H. destruct H as (j & Hj & -> & ->).
    constructor; [|constructor].
    pose proof (span_le_length k (Some hi) s).
    pose proof (span_le_limit k hi s).
    rewrite consumed_skipn by lia. rewrite length_firstn. lia.
  - apply in_rx_rep in H. destruct H as (j & _ & _ & ->). constructor.
Qed.

(** ** The elements of [re.findall] *)

Lemma rx_match_in r s m : rx_match r s = Some m -> In m (rx_run r s).
Proof.
  unfold rx_match. destruct (rx_run r s); [discriminate|].
  intros E. inversion E. now left.
Qed.

Lemma findall_from_items r s :
  forall skip it, In it (findall_from r skip s) ->
  exists s0 m, In m (rx_run r s0) /\ it = item_of r s0 m.
Proof.
  induction s as [| c s IH]; intros skip it H; cbn in H; [contradiction|].
  destruct skip as [| k]; [| eauto].
  destruct (rx_match r (c :: s)) as [m |] eqn:M; [| eauto].
  destruct H as [<- | H]; [| eauto].
  exists (c :: s), m. split; [now apply rx_match_in | reflexivity].
Qed.

Lemma findall_tuples r n txt it :
  uniform r = true -> ngroups r = S (S n) ->
  In it (findall r txt) ->
  exists gs, it = FTuple gs /\ List.length gs = S (S n).
Proof.
  intros U N H. apply findall_from_items in H.
  destruct H as (s0 & [g s'] & Hm & ->).
  unfold item_of. rewrite N. cbn. exists g. split; [reflexivity|].
  rewrite <- N. eapply rx_run_ngroups; eauto.
Qed.


(* ================================================================== *)
(** * The candidate extractor *)

Lemma int_digits_raise s e : int_digits s = Raise e -> e = ValueError.
Proof.
  unfold int_digits. destruct s; [congruence|].
  destruct (forallb is_digit (c :: s)); congruence.
Qed.

Lemma py_int_raise s e : py_int s = Raise e -> e = ValueError.
Proof.
  unfold py_int. destruct (strip s) as [| c ds]; [congruence|].
  destruct (c =? 43)%N; [apply int_digits_raise|].
  destruct (c =? 45)%N; [| apply int_digits_raise].
  destruct (int_digits ds) eqn:E; cbn; [congruence|].
  intros H. inversion H; subst. now apply int_digits_raise in E.
Qed.

Lemma map_result_raise {A B} (f : A -> result B) l e :
  (forall x e', f x = Raise e' -> e' = ValueError) ->
  map_result f l = Raise e -> e = ValueError.
Proof.
  intros Hf. induction l as [| x l IH]; cbn; [congruence|].
  destruct (f x) eqn:E; cbn.
  - destruct (map_result f l); cbn; [congruence|].
    intros H. inversion H; subst. now apply IH.
  - intros H. inversion H; subst. eauto.
Qed.

Lemma datetime_new_cases y m d :
  (valid_ymd y m d = true
   /\ datetime_new y m d = Ok (VDatetime (mkdate y m d) midnight))
  \/ (valid_ymd y m d = false /\ datetime_new y m d = Raise ValueError).
Proof.
  unfold datetime_new, date_new. destruct (valid_ymd y m d); cbn; auto.
Qed.

(** One element of [re.findall] appends at most one candidate and never
    raises out of its [try]. *)
Lemma on_match_cases txt m :
  on_match txt m = Ok []
  \/ exists c, on_match txt m = Ok [c] /\ candidate_of txt m c.
Proof.
  unfold on_match, match_body, candidate_of.
  destruct (fitem_len m) as [| [| [| [| n]]]] eqn:L; cbn [try_except]; auto.
  - (* one field *)
    destruct (py_int (nth 0 (fitem_items m) [])) as [n | e] eqn:E; cbn.
    + right. eexists. split; [reflexivity|]. right. right. eauto.
    + apply py_int_raise in E. subst e. auto.
  - (* two fields *)
    destruct (map_result py_int (fitem_items m)) as [nums | e] eqn:E; cbn.
    + destruct nums as [| y [| mo [| ? ?]]]; cbn; auto.
      destruct (datetime_new_cases y mo 1) as [[V ->] | [V ->]]; cbn; auto.
      right. eexists. split; [reflexivity|]. right. left.
      split; [reflexivity|]. eexists. split; [reflexivity|]. auto.
    + apply (map_result_raise py_int) in E; [| apply py_int_raise].
      subst e. auto.
  - (* three fields *)
    destruct (map_result py_int (fitem_items m)) as [nums | e] eqn:E; cbn.
    + destruct nums as [| y [| mo [| d [| ? ?]]]]; cbn; auto.
      destruct (datetime_new_cases y mo d) as [[V ->] | [V ->]]; cbn; auto.
      right. eexists. split; [reflexivity|]. left.
      split; [reflexivity|]. eexists. split; [reflexivity|]. auto.
    + apply (map_result_raise py_int) in E; [| apply py_int_raise].
      subst e. auto.
Qed.

Lemma for_each_ok {A B} (f : A -> result (list B)) (l : list A) :
  (forall x, In x l -> exists ys, f x = Ok ys) ->
  exists zs, for_each f l = Ok zs
             /\ forall z, In z zs ->
                  exists x ys, In x l /\ f x = Ok ys /\ In z ys.
Proof.
  induction l as [| x l IH]; intros H; cbn.
  - exists []. split; [reflexivity | intros z []].
  - destruct (H x (or_introl eq_refl)) as (ys & Hx). rewrite Hx. cbn.
    destruct IH as (zs & Hzs & Hin); [intros; apply H; now right|].
    rewrite Hzs. cbn. exists (ys ++ zs). split; [reflexivity|].
    intros z Hz. apply in_app_or in Hz. destruct Hz as [Hz | Hz].
    + exists x, ys. auto with datatypes.
    + destruct (Hin z Hz) as (x' & ys' & ? & ? & ?).
      exists x', ys'. auto with datatypes.
Qed.

Lemma on_match_ok txt m : exists l, on_match txt m = Ok l.
Proof.
  destruct (on_match_cases txt m) as [-> | (c & -> & _)]; eauto.
Qed.

(** The candidates of one pattern on one text. *)
Lemma pattern_candidates_spec txt p :
  exists l, pattern_candidates txt p = Ok l
            /\ forall c, In c l ->
                 exists m, In m (findall p txt) /\ candidate_of txt m c.
Proof.
  unfold pattern_candidates.
  destruct (for_each_ok (on_match txt) (findall p txt)) as (zs & Hz & Hin).
  { intros; apply on_match_ok. }
  exists zs. split; [exact Hz|]. intros c Hc.
  destruct (Hin c Hc) as (m & ys & Hm & Hys & Hcy).
  exists m. split; [exact Hm|].
  destruct (on_match_cases txt m) as [E | (c' & E & Hc')];
    rewrite E in Hys; inversion Hys; subst ys.
  - destruct Hcy.
  - destruct Hcy as [<- | []]. exact Hc'.
Qed.

Lemma text_candidates_spec txt :
  exists l, text_candidates txt = Ok l
            /\ forall c, In c l ->
                 exists p l', In p patterns /\ pattern_candidates txt p = Ok l'
                              /\ In c l'.
Proof.
  unfold text_candidates.
  destruct (for_each_ok (pattern_candidates txt) patterns) as (zs & Hz & Hin).
  { intros p _. destruct (pattern_candidates_spec txt p) as (l & -> & _). eauto. }
  eauto.
Qed.

(** No exception escapes the extraction, and every candidate comes from
    one element of [re.findall] of one pattern on one of the texts. *)
Lemma parse_date_patterns_spec texts :
  exists l, parse_date_patterns texts = Ok l
            /\ forall c, In c l ->
                 exists txt p m, In txt texts /\ In p patterns
                                 /\ In m (findall p txt)
                                 /\ candidate_of txt m c.
Proof.
  unfold parse_date_patterns.
  destruct (for_each_ok text_candidates texts) as (zs & Hz & Hin).
  { intros t _. destruct (text_candidates_spec t) as (l & -> & _). eauto. }
  exists zs. split; [exact Hz|]. intros c Hc.
  destruct (Hin c Hc) as (txt & ys & Ht & Hys & Hcy).
  destruct (text_candidates_spec txt) as (l & El & Hl).
  rewrite El in Hys. inversion Hys; subst ys.
  destruct (Hl c Hcy) as (p & l' & Hp & El' & Hc').
  destruct (pattern_candidates_spec txt p) as (l2 & E2 & H2).
  rewrite E2 in El'. inversion El'; subst l'.
  destruct (H2 c Hc') as (m & Hm & Hcand).
  exists txt, p, m. auto.
Qed.


Lemma candidate_of_well_formed txt m c : candidate_of txt m c -> well_formed c.
Proof.
  intros [(L & d & -> & V) | [(L & d & -> & V & _) | (L & n & ->)]];
    cbn; auto.
Qed.

(** ** Confidence by kind of pattern *)







(* ================================================================== *)
(** * Decimal digits *)

Lemma is_digit_iff c : is_digit c = true <-> (48 <= c <= 57)%N.
Proof.
  unfold is_digit. rewrite andb_true_iff, !N.leb_le. tauto.
Qed.

Lemma digit_char_digit k : 0 <= k <= 9 -> is_digit (digit_char k) = true.
Proof.
  intros H. apply is_digit_iff. unfold digit_char. lia.
Qed.

Lemma digit_val_char k : 0 <= k <= 9 -> digit_val (digit_char k) = k.
Proof. intros H. unfold digit_val, digit_char. lia. Qed.

Lemma digit_not_space c : is_digit c = true -> is_space c = false.
Proof.
  intros H. apply is_digit_iff in H. unfold is_space.
  apply orb_false_iff. split.
  - apply N.eqb_neq. lia.
  - apply andb_false_iff. right. apply N.leb_gt. lia.
Qed.

Lemma lstrip_digits s : forallb is_digit s = true -> lstrip s = s.
Proof.
  destruct s as [| c s]; [reflexivity|]. cbn.
  intros H. apply andb_true_iff in H. destruct H as [H _].
  now rewrite (digit_not_space c H).
Qed.

Lemma forallb_rev {A} (f : A -> bool) l :
  forallb f l = true -> forallb f (rev l) = true.
Proof.
  rewrite !forallb_forall. intros H x Hx. apply H. now apply in_rev.
Qed.

Lemma strip_digits s : forallb is_digit s = true -> strip s = s.
Proof.
  intros H. unfold strip. rewrite (lstrip_digits s H).
  rewrite (lstrip_digits (rev s)) by now apply forallb_rev.
  apply rev_involutive.
Qed.

(** [int] of a string of digits is its decimal value. *)
Lemma py_int_digits s :
  s <> [] -> forallb is_digit s = true -> py_int s = Ok (digits_val s).
Proof.
  intros Hne H. unfold py_int. rewrite (strip_digits s H).
  destruct s as [| c ds]; [congruence|].
  assert (Hc : is_digit c = true).
  { cbn in H. now apply andb_true_iff in H. }
  apply is_digit_iff in Hc.
  replace (c =? 43)%N with false by (symmetry; apply N.eqb_neq; lia).
  replace (c =? 45)%N with false by (symmetry; apply N.eqb_neq; lia).
  unfold int_digits. now rewrite H.
Qed.

(** [str] of a four-digit number. *)
Lemma py_str_4 y :
  1000 <= y <= 9999 ->
  py_str y = [digit_char (y / 1000); digit_char (y / 100 mod 10);
              digit_char (y / 10 mod 10); digit_char (y mod 10)].
Proof.
  intros H. unfold py_str.
  assert (L : (4 <= S (Z.to_nat (Z.log2 y)))%nat).
  { assert (9 <= Z.log2 y).
    { change 9 with (Z.log2 1000). apply Z.log2_le_mono. lia. }
    lia. }
  destruct (S (Z.to_nat (Z.log2 y))) as [| [| [| [| f]]]]; try lia.
  cbn [str_digits].
  replace (y <? 10) with false by (symmetry; apply Z.ltb_ge; lia).
  replace (y / 10 <? 10) with false
    by (symmetry; apply Z.ltb_ge; Z.to_euclidean_division_equations; lia).
  replace (y / 10 / 10 <? 10) with false
    by (symmetry; apply Z.ltb_ge; Z.to_euclidean_division_equations; lia).
  replace (y / 10 / 10 / 10 <? 10) with true
    by (symmetry; apply Z.ltb_lt; Z.to_euclidean_division_equations; lia).
  assert (E2 : y / 10 / 10 = y / 100)
    by (rewrite Z.div_div by lia; reflexivity).
  assert (E3 : y / 100 / 10 = y / 1000)
    by (rewrite Z.div_div by lia; reflexivity).
  rewrite E2, E3.
  replace (y / 1000 mod 10) with (y / 1000)
    by (Z.to_euclidean_division_equations; lia).
  reflexivity.
Qed.

Lemma py_str_4_digits y :
  1000 <= y <= 9999 ->
  exists c1 c2 c3 c4,
    py_str y = [c1; c2; c3; c4]
    /\ is_digit c1 = true /\ is_digit c2 = true
    /\ is_digit c3 = true /\ is_digit c4 = true
    /\ digits_val [c1; c2; c3; c4] = y.
Proof.
  intros H. rewrite (py_str_4 y H).
  assert (B1 : 0 <= y / 1000 <= 9)
    by (Z.to_euclidean_division_equations; lia).
  assert (B2 : 0 <= y / 100 mod 10 <= 9)
    by (Z.to_euclidean_division_equations; lia).
  assert (B3 : 0 <= y / 10 mod 10 <= 9)
    by (Z.to_euclidean_division_equations; lia).
  assert (B4 : 0 <= y mod 10 <= 9)
    by (Z.to_euclidean_division_equations; lia).
  do 4 eexists. split; [reflexivity|].
  repeat split; try (apply digit_char_digit; assumption).
  unfold digits_val. cbn [fold_left].
  rewrite !digit_val_char by assumption.
  Z.to_euclidean_division_equations; lia.
Qed.

(* ================================================================== *)
(** * The typed-date parser *)

(** ** Every date it returns is a valid calendar date *)

Lemma date_new_ok y m d x : date_new y m d = Ok x -> valid_date x = true.
Proof.
  unfold date_new. destruct (valid_ymd y m d) eqn:V; [|discriminate].
  intros E. inversion E. exact V.
Qed.

Lemma strptime_date_valid t fmt x :
  strptime_date t fmt = Ok x -> valid_date x = true.
Proof.
  unfold strptime_date.
  destruct (format_pattern fmt) as [[r ds] |]; [|discriminate].
  destruct (rx_match r t) as [[gs rest] |]; [|discriminate].
  destruct rest; [|discriminate].
  destruct (assign_fields ds gs (1900, 1, 1)) as [[[y m] d] | e];
    cbn; [|discriminate].
  apply date_new_ok.
Qed.

Lemma try_formats_valid t fmts x :
  try_formats t fmts = Ok (Some x) -> valid_date x = true.
Proof.
  induction fmts as [| f fmts IH]; cbn; [discriminate|].
  destruct (strptime_date t f) as [d | e] eqn:E.
  - intros H. inversion H; subst. eapply strptime_date_valid; eauto.
  - destruct (is_ValueError e); [exact IH | discriminate].
Qed.

Lemma guess_from_numbers_valid t x :
  guess_from_numbers t = Ok (Some x) -> valid_date x = true.
Proof.
  unfold guess_from_numbers.
  destruct (3 <=? _)%nat; [|discriminate].
  destruct (if (_ =? 4)%nat then _ else _) as [y | e]; cbn; [|discriminate].
  destruct (py_int _) as [m | e]; cbn; [|discriminate].
  destruct (if (_ =? 4)%nat then _ else _) as [d | e]; cbn; [|discriminate].
  destruct (date_new y m d) as [z | e] eqn:E; cbn.
  - intros H. inversion H; subst. eapply date_new_ok; eauto.
  - destruct (is_ValueError e); discriminate.
Qed.

Lemma parse_date_valid t x : parse_date t = Ok x -> valid_date x = true.
Proof.
  unfold parse_date.
  destruct (try_formats t formats) as [[d |] | e] eqn:E; cbn; try discriminate.
  - intros H. inversion H; subst. eapply try_formats_valid; eauto.
  - destruct (guess_from_numbers t) as [[d |] | e] eqn:G; cbn; try discriminate.
    intros H. inversion H; subst. eapply guess_from_numbers_valid; eauto.
Qed.

(** ** The year group on four digits *)

Lemma consumed_app (a b : text) : consumed (a ++ b) b = a.
Proof.
  unfold consumed. rewrite length_app.
  replace (List.length a + List.length b - List.length b)%nat
    with (List.length a + 0)%nat by lia.
  rewrite firstn_app_2. cbn. apply app_nil_r.
Qed.

Lemma in_rx_eps s g s' : In (g, s') (rx_run Eps s) <-> s' = s /\ g = [].
Proof.
  cbn. split.
  - intros [E | []]. inversion E. auto.
  - intros [-> ->]. auto.
Qed.

Lemma rx_run_year c1 c2 c3 c4 tl R :
  is_digit c1 = true -> is_digit c2 = true ->
  is_digit c3 = true -> is_digit c4 = true ->
  rx_run (Seq (Grp (directive_regex DirY)) R) (c1 :: c2 :: c3 :: c4 :: tl)
  = map (fun '(g, s) => ([c1; c2; c3; c4] :: g, s)) (rx_run R tl).
Proof.
  intros H1 H2 H3 H4.
  cbn [rx_run directive_regex rseq cmatch].
  rewrite H1. cbn [flat_map map app]. rewrite H2. cbn [flat_map map app].
  rewrite H3. cbn [flat_map map app]. rewrite H4. cbn [flat_map map app].
  change (c1 :: c2 :: c3 :: c4 :: tl) with ([c1; c2; c3; c4] ++ tl).
  rewrite consumed_app. rewrite app_nil_r.
  apply map_ext. intros [g s]. reflexivity.
Qed.

Lemma rx_match_year c1 c2 c3 c4 tl R :
  is_digit c1 = true -> is_digit c2 = true ->
  is_digit c3 = true -> is_digit c4 = true ->
  rx_match (Seq (Grp (directive_regex DirY)) R) (c1 :: c2 :: c3 :: c4 :: tl)
  = match rx_match R tl with
    | Some (g, s) => Some ([c1; c2; c3; c4] :: g, s)
    | None => None
    end.
Proof.
  intros H1 H2 H3 H4. unfold rx_match.
  rewrite rx_run_year by assumption.
  destruct (rx_run R tl) as [| [g s] l]; reflexivity.
Qed.

(** ** The format [%Y-%m-%d] on an ISO text *)

Lemma split_month_day m d :
  0 <= m <= 99 -> 0 <= d <= 99 ->
  (100 * m + d) / 100 = m /\ (100 * m + d) mod 100 = d
  /\ 0 <= 100 * m + d < 0 + Z.of_nat (100 * 100).
Proof. intros Hm Hd. Z.to_euclidean_division_equations. lia. Qed.

Lemma iso_tail_checked m d :
  0 <= m <= 99 -> 0 <= d <= 99 ->
  let in_ranges := (1 <=? m) && (m <=? 12) && (1 <=? d) && (d <=? 31) in
  match rx_match iso_tail_regex (iso_tail m d) with
  | Some ([gm; gd], []) => int_is gm m && int_is gd d
  | Some (_, []) => false
  | Some (_, _ :: _) => negb in_ranges
  | None => negb in_ranges
  end = true.
Proof.
  intros Hm Hd.
  destruct (split_month_day m d Hm Hd) as (E1 & E2 & R).
  pose proof (zrange_forallb iso_tail_check 0 (100 * 100)) as H.
  specialize (H ltac:(vm_compute; reflexivity) _ R).
  unfold iso_tail_check in H. rewrite E1, E2 in H. exact H.
Qed.

Lemma iso_tail_numbers_checked m d :
  0 <= m <= 99 -> 0 <= d <= 99 ->
  exists gm gd,
    findall (Rep CDigit 1 None) (iso_tail m d) = [FStr gm; FStr gd]
    /\ py_int gm = Ok m /\ py_int gd = Ok d.
Proof.
  intros Hm Hd.
  destruct (split_month_day m d Hm Hd) as (E1 & E2 & R).
  pose proof (zrange_forallb iso_tail_numbers_check 0 (100 * 100)) as H.
  specialize (H ltac:(vm_compute; reflexivity) _ R).
  unfold iso_tail_numbers_check in H. rewrite E1, E2 in H.
  destruct (findall (Rep CDigit 1 None) (iso_tail m d))
    as [| [gm |] [| [gd |] [| ? ?]]]; try discriminate.
  exists gm, gd. split; [reflexivity|].
  apply andb_true_iff in H. destruct H as [H1 H2].
  unfold int_is in H1, H2.
  destruct (py_int gm) as [v1 |]; [|discriminate].
  destruct (py_int gd) as [v2 |]; [|discriminate].
  apply Z.eqb_eq in H1, H2. subst. auto.
Qed.

Lemma int_is_true s n : int_is s n = true -> py_int s = Ok n.
Proof.
  unfold int_is. destruct (py_int s) as [v |]; [|discriminate].
  intros H. apply Z.eqb_eq in H. now subst.
Qed.

Lemma days_in_month_le_31 y m : 1 <= m <= 12 -> _days_in_month y m <= 31.
Proof.
  intros H. unfold _days_in_month.
  month_cases m; destruct (_is_leap y); calc_months; lia.
Qed.

Lemma valid_ymd_ranges y m d :
  valid_ymd y m d = true ->
  (1 <=? m) && (m <=? 12) && (1 <=? d) && (d <=? 31) = true.
Proof.
  intros H. apply valid_ymd_iff in H. destruct H as (Hy & Hm & Hd).
  pose proof (days_in_month_le_31 y m Hm).
  rewrite !andb_true_iff, !Z.leb_le. lia.
Qed.

Lemma iso_text_split y m d c1 c2 c3 c4 :
  py_str y = [c1; c2; c3; c4] ->
  iso_text y m d = c1 :: c2 :: c3 :: c4 :: iso_tail m d.
Proof. intros E. unfold iso_text, iso_tail. rewrite E. reflexivity. Qed.

Lemma strptime_iso y m d :
  1000 <= y <= 9999 -> 0 <= m <= 99 -> 0 <= d <= 99 ->
  strptime_date (iso_text y m d) (u "%Y-%m-%d")
  = if valid_ymd y m d then Ok (mkdate y m d) else Raise ValueError.
Proof.
  intros Hy Hm Hd.
  destruct (py_str_4_digits y Hy) as (c1 & c2 & c3 & c4 & E & D1 & D2 & D3 & D4 & V).
  rewrite (iso_text_split _ _ _ _ _ _ _ E).
  unfold strptime_date.
  change (format_pattern (u "%Y-%m-%d"))
    with (Some (Seq (Grp (directive_regex DirY)) iso_tail_regex,
                [DirY; Dirm; Dird])).
  cbv beta iota.
  rewrite rx_match_year by assumption.
  pose proof (iso_tail_checked m d Hm Hd) as C. cbv zeta in C.
  assert (Hbad : negb ((1 <=? m) && (m <=? 12) && (1 <=? d) && (d <=? 31)) = true ->
                 Raise ValueError
                 = if valid_ymd y m d then Ok (mkdate y m d) else Raise ValueError).
  { intros N. destruct (valid_ymd y m d) eqn:W; [|reflexivity].
    apply valid_ymd_ranges in W. rewrite W in N. discriminate. }
  destruct (rx_match iso_tail_regex (iso_tail m d)) as [[g rest] |];
    [| now apply Hbad].
  destruct rest as [| r0 rest].
  - destruct g as [| gm [| gd [| ? ?]]]; try discriminate.
    apply andb_true_iff in C. destruct C as [C1 C2].
    apply int_is_true in C1, C2.
    cbn [assign_fields].
    rewrite (py_int_digits [c1; c2; c3; c4]) by (cbn; now (rewrite ?D1, ?D2, ?D3, ?D4) || discriminate).
    rewrite V, C1, C2. cbn. unfold date_new. reflexivity.
  - destruct g as [| gm [| gd [| ? ?]]]; now apply Hbad.
Qed.

(** ** The other formats and the digit groups on an ISO text *)

Lemma strptime_year_other_sep fmt sep R ds c1 c2 c3 c4 tl :
  format_pattern fmt
  = Some (Seq (Grp (directive_regex DirY)) (Seq (Chr sep) R), ds) ->
  (ch "-" =? sep)%N = false ->
  is_digit c1 = true -> is_digit c2 = true ->
  is_digit c3 = true -> is_digit c4 = true ->
  strptime_date (c1 :: c2 :: c3 :: c4 :: ch "-" :: tl) fmt = Raise ValueError.
Proof.
  intros F S D1 D2 D3 D4. unfold strptime_date. rewrite F.
  rewrite rx_match_year by assumption.
  unfold rx_match. cbn [rx_run]. rewrite S. reflexivity.
Qed.

Ltac rx_inv :=
  repeat
    (match goal with
     | H : In _ (rx_run (Alt _ _) _) |- _ =>
         apply in_rx_alt in H; destruct H as [H | H]
     | H : In (_, _) (rx_run (Seq _ _) _) |- _ =>
         apply in_rx_seq in H; destruct H as (? & ? & ? & ? & ? & ?)
     | H : In (_, _) (rx_run (Grp _) _) |- _ =>
         apply in_rx_grp in H; destruct H as (? & ? & ?)
     | H : In (_, _) (rx_run (Chr _) _) |- _ =>
         apply in_rx_chr in H; destruct H as [? ?]
     | H : In (_, _) (rx_run (Cls _) _) |- _ =>
         apply in_rx_cls in H; destruct H as (? & ? & ? & ?)
     | H : In (_, _) (rx_run Eps _) |- _ =>
         apply in_rx_eps in H; destruct H as [? ?]
     | H : _ :: _ = _ :: _ |- _ => inversion H; clear H
     end; subst).

(** [%m] and [%d] read one or two characters. *)
Lemma month_day_directive_reads dir c1 c2 tl g s' :
  dir <> DirY ->
  In (g, s') (rx_run (Grp (directive_regex dir)) (c1 :: c2 :: tl)) ->
  s' = c2 :: tl \/ s' = tl.
Proof.
  intros Hdir H.
  destruct dir; [congruence | |].
  - let r := eval vm_compute in (directive_regex Dirm) in
    change (directive_regex Dirm) with r in H.
    rx_inv; auto.
  - let r := eval vm_compute in (directive_regex Dird) in
    change (directive_regex Dird) with r in H.
    rx_inv; auto.
Qed.

Lemma no_match_is_nil {A} (l : list A) : (forall x, ~ In x l) -> l = [].
Proof.
  destruct l as [| x l]; [reflexivity|]. intros H.
  exfalso. apply (H x). now left.
Qed.

Lemma strptime_month_day_first fmt dir sep R ds c1 c2 c3 tl :
  format_pattern fmt
  = Some (Seq (Grp (directive_regex dir)) (Seq (Chr sep) R), ds) ->
  dir <> DirY -> is_digit sep = false ->
  is_digit c1 = true -> is_digit c2 = true -> is_digit c3 = true ->
  strptime_date (c1 :: c2 :: c3 :: tl) fmt = Raise ValueError.
Proof.
  intros F Hdir S D1 D2 D3. unfold strptime_date. rewrite F.
  unfold rx_match.
  rewrite (no_match_is_nil (rx_run _ _)); [reflexivity|].
  intros [g s'] H.
  apply in_rx_seq in H. destruct H as (g1 & s1 & g2 & H1 & H2 & _).
  apply (month_day_directive_reads dir) in H1; [| assumption].
  apply in_rx_seq in H2. destruct H2 as (g3 & s3 & g4 & H2 & _ & _).
  apply in_rx_chr in H2. destruct H2 as [E _].
  destruct H1 as [-> | ->]; inversion E; congruence.
Qed.

Lemma findall_year_prefix c1 c2 c3 c4 c tl :
  is_digit c1 = true -> is_digit c2 = true ->
  is_digit c3 = true -> is_digit c4 = true -> is_digit c = false ->
  findall (Rep CDigit 1 None) (c1 :: c2 :: c3 :: c4 :: c :: tl)
  = FStr [c1; c2; c3; c4] :: findall (Rep CDigit 1 None) (c :: tl).
Proof.
  intros D1 D2 D3 D4 D.
  unfold findall. cbn [findall_from].
  assert (Sp : span CDigit None (c1 :: c2 :: c3 :: c4 :: c :: tl) = 4%nat).
  { cbn [span cmatch]. now rewrite D1, D2, D3, D4, D. }
  unfold rx_match at 1. cbn [rx_run]. rewrite Sp.
  change (rep_choices 1 4) with [4; 3; 2; 1]%nat.
  cbn [map skipn snd]. unfold item_of. cbn [ngroups snd].
  change (c1 :: c2 :: c3 :: c4 :: c :: tl) with ([c1; c2; c3; c4] ++ c :: tl).
  rewrite consumed_app. rewrite length_app.
  replace (List.length [c1; c2; c3; c4] + List.length (c :: tl)
           - List.length (c :: tl) - 1)%nat with 3%nat
    by (cbn [List.length]; lia).
  reflexivity.
Qed.

Lemma fmt_shape_spec fmt dir sep :
  fmt_shape fmt = Some (dir, sep) ->
  exists R ds,
    format_pattern fmt
    = Some (Seq (Grp (directive_regex dir)) (Seq (Chr sep) R), ds).
Proof.
  unfold fmt_shape. destruct fmt as [| c [| k rest]]; try discriminate.
  cbn [format_pattern].
  destruct (c =? ch "%")%N; [|discriminate].
  destruct (directive_of k) as [d |]; [|discriminate].
  destruct (format_pattern rest) as [[r ds] |]; [|discriminate].
  destruct r; try discriminate.
  destruct r1; try discriminate.
  intros E. inversion E; subst. eauto.
Qed.

Lemma try_formats_all_fail t fmts :
  (forall f, In f fmts -> strptime_date t f = Raise ValueError) ->
  try_formats t fmts = Ok None.
Proof.
  induction fmts as [| f fmts IH]; intros H; cbn; [reflexivity|].
  rewrite (H f (or_introl eq_refl)). cbn. apply IH.
  intros g Hg. apply H. now right.
Qed.

(** The formats after the first, on a text that starts with four digits
    and a hyphen. *)
Lemma later_formats_fail c1 c2 c3 c4 rest f :
  is_digit c1 = true -> is_digit c2 = true ->
  is_digit c3 = true -> is_digit c4 = true ->
  In f (List.tl formats) ->
  strptime_date (c1 :: c2 :: c3 :: c4 :: ch "-" :: rest) f = Raise ValueError.
Proof.
  intros D1 D2 D3 D4 Hf.
  assert (Hy : forall sep, fmt_shape f = Some (DirY, sep) ->
                 (ch "-" =? sep)%N = false ->
                 strptime_date (c1 :: c2 :: c3 :: c4 :: ch "-" :: rest) f
                 = Raise ValueError).
  { intros sep Hs Hsep. destruct (fmt_shape_spec _ _ _ Hs) as (R & ds & F).
    eapply strptime_year_other_sep; eauto. }
  assert (Hmd : forall dir sep, fmt_shape f = Some (dir, sep) ->
                  dir <> DirY -> is_digit sep = false ->
                  strptime_date (c1 :: c2 :: c3 :: c4 :: ch "-" :: rest) f
                  = Raise ValueError).
  { intros dir sep Hs Hdir Hsep.
    destruct (fmt_shape_spec _ _ _ Hs) as (R & ds & F).
    eapply strptime_month_day_first; eauto. }
  cbn in Hf.
  repeat (destruct Hf as [<- | Hf];
          [ first [ eapply Hy; vm_compute; reflexivity
                  | eapply Hmd; [vm_compute; reflexivity | discriminate
                                 | vm_compute; reflexivity] ] | ]).
  destruct Hf.
Qed.

(** [parse_date] on the ISO text of a four-digit year and two-digit
    month and day: the date when it is a valid one, [ValueError]
    otherwise. *)
Lemma parse_date_iso y m d :
  1000 <= y <= 9999 -> 0 <= m <= 99 -> 0 <= d <= 99 ->
  parse_date (iso_text y m d)
  = if valid_ymd y m d then Ok (mkdate y m d) else Raise ValueError.
Proof.
  intros Hy Hm Hd. unfold parse_date.
  change formats with (u "%Y-%m-%d" :: List.tl formats).
  cbn [try_formats]. rewrite (strptime_iso y m d Hy Hm Hd).
  destruct (valid_ymd y m d) eqn:V; [reflexivity|].
  cbn [is_ValueError].
  destruct (py_str_4_digits y Hy)
    as (c1 & c2 & c3 & c4 & E & D1 & D2 & D3 & D4 & Vy).
  rewrite (iso_text_split _ m d _ _ _ _ E). unfold iso_tail.
  rewrite try_formats_all_fail
    by (intros f Hf; now apply later_formats_fail).
  cbn [bind].
  unfold guess_from_numbers.
  rewrite findall_year_prefix by (assumption || reflexivity).
  destruct (iso_tail_numbers_checked m d Hm Hd) as (gm & gd & Fn & Im & Id).
  unfold iso_tail in Fn. rewrite Fn.
  cbn [map fitem_str List.length Nat.leb nth Nat.eqb].
  rewrite (py_int_digits [c1; c2; c3; c4])
    by (cbn; now (rewrite ?D1, ?D2, ?D3, ?D4) || discriminate).
  rewrite Vy, Im, Id. cbn [bind]. unfold date_new. rewrite V. reflexivity.
Qed.

(* ================================================================== *)
(** * Rejection of impossible dates, and the round trip *)

Lemma on_match_invalid_ymd txt ys ms ds y m d :
  py_int ys = Ok y -> py_int ms = Ok m -> py_int ds = Ok d ->
  valid_ymd y m d = false ->
  on_match txt (FTuple [ys; ms; ds]) = Ok [].
Proof.
  intros Hy Hm Hd V. unfold on_match, match_body. cbn.
  rewrite Hy, Hm, Hd. cbn. unfold datetime_new, date_new. rewrite V.
  reflexivity.
Qed.

Lemma on_match_invalid_ym txt ys ms y m :
  py_int ys = Ok y -> py_int ms = Ok m ->
  valid_ymd y m 1 = false ->
  on_match txt (FTuple [ys; ms]) = Ok [].
Proof.
  intros Hy Hm V. unfold on_match, match_body. cbn.
  rewrite Hy, Hm. cbn. unfold datetime_new, date_new. rewrite V.
  reflexivity.
Qed.

(** What the extractor does on the fragment [2024-02-30]: the full-date
    pattern yields nothing, the year-month pattern reads its first seven
    characters. *)
Remark extractor_on_2024_02_30 :
  pattern_candidates (u "2024-02-30") pat_num_ymd = Ok []
  /\ pattern_candidates (u "2024-02-30") pat_num_ym
     = Ok [DateCand (VDatetime (mkdate 2024 2 1) midnight) production_date
                    (u "2024-02-30") (6 # 10)].
Proof. split; vm_compute; reflexivity. Qed.

(** C7 (as stated) fails for the valid dates before the year 1000: the
    text of the year then has fewer than four digits, which [%Y] does not
    accept.  0999-01-01 is written [999-01-01] and refused; 0012-01-05 is
    written [12-01-05] and read as 0005-01-12. *)
Lemma C7_years_before_1000_do_not_round_trip :
  valid_ymd 999 1 1 = true
  /\ iso_text 999 1 1 = u "999-01-01"
  /\ parse_date (iso_text 999 1 1) = Raise ValueError
  /\ valid_ymd 12 1 5 = true
  /\ iso_text 12 1 5 = u "12-01-05"
  /\ parse_date (iso_text 12 1 5) = Ok (mkdate 5 1 12)
  /\ parse_date (iso_text 12 1 5) <> Ok (mkdate 12 1 5).
Proof.
  repeat split; try (vm_compute; reflexivity).
  vm_compute. discriminate.
Qed.

(** C7 (amended): for every valid calendar date whose year has four
    digits (1000 to 9999), parsing its zero-padded ISO text succeeds and
    gives back the same year, month and day. *)
Theorem C7_iso_round_trip (y m d : Z) :
  valid_ymd y m d = true -> 1000 <= y ->
  parse_date (iso_text y m d) = Ok (mkdate y m d).
Proof.
  intros V Hy. pose proof V as W. apply valid_ymd_iff in W.
  destruct W as (Hy' & Hm & Hd).
  pose proof (days_in_month_le_31 y m Hm).
  rewrite parse_date_iso by lia. now rewrite V.
Qed.

Lemma C7_iso_round_trip_witness :
  parse_date (iso_text 2024 2 29) = Ok (mkdate 2024 2 29).
Proof.
  apply (C7_iso_round_trip 2024 2 29); [reflexivity | lia].
Defined.

(* ================================================================== *)
(** * Further properties of the code *)

Import ScanScreen Database ProductManager Server Spec2 Support2.

(* ================================================================== *)
(** * Further properties of the expiry calculator *)

Lemma calculate_expiry_date_shelf_days v m d :
  calculate_expiry_date v m d = add_days_or_none v (shelf_days m d).
Proof.
  unfold calculate_expiry_date, shelf_days, add_days_or_none.
  destruct (truthy m); [now rewrite Z.mul_comm|].
  destruct (truthy d); reflexivity.
Qed.

Lemma add_days_or_none_ok v k : exists r, add_days_or_none v k = Ok r.
Proof.
  unfold add_days_or_none, timedelta_days.
  destruct (Z.abs k <=? 999999999); cbn; [| eauto].
  destruct v as [| | | p | p t | n]; cbn; eauto.
  - unfold date_add. destruct (_ && _); cbn; eauto.
  - unfold date_add. destruct (_ && _); cbn; eauto.
  - unfold timedelta_days. destruct (_ <=? _); cbn; eauto.
Qed.

Lemma add_days_or_none_not_date v k :
  date_part v = None -> (forall n, v <> VTimedelta n) ->
  add_days_or_none v k = Ok VNone.
Proof.
  intros Hd Ht. unfold add_days_or_none, timedelta_days.
  destruct (Z.abs k <=? 999999999); cbn; [| reflexivity].
  destruct v; cbn in *; try reflexivity; try discriminate.
  exfalso. eapply Ht. reflexivity.
Qed.

(** X1: [calculate_expiry_date] never lets an exception out, whatever
    its three arguments; when the production value is not a date
    ([None], a number, a string) it returns [None]. *)
Theorem X1_calculate_expiry_date_never_raises
    (production : pyval) (m d : option Z) :
  (exists r, calculate_expiry_date production m d = Ok r)
  /\ (date_part production = None ->
      (forall n, production <> VTimedelta n) ->
      calculate_expiry_date production m d = Ok VNone).
Proof.
  rewrite calculate_expiry_date_shelf_days. split.
  - apply add_days_or_none_ok.
  - apply add_days_or_none_not_date.
Qed.

Lemma X1_calculate_expiry_date_never_raises_witness :
  calculate_expiry_date (VStr (u "2024-01-15")) (Some 12) None = Ok VNone.
Proof.
  refine (proj2 (X1_calculate_expiry_date_never_raises
                   (VStr (u "2024-01-15")) (Some 12) None) eq_refl _).
  discriminate.
Defined.

Lemma toordinal_lt_ltb a b :
  valid_date a = true -> valid_date b = true ->
  toordinal a < toordinal b -> date_ltb a b = true.
Proof.
  intros Ha Hb H. destruct (date_trichotomy a b) as [L | [-> | L]].
  - exact L.
  - lia.
  - pose proof (toordinal_mono _ _ Hb Ha L). lia.
Qed.

(** X2: the sign of a shelf life is not checked.  With a negative
    number of months (or, the months absent, of days) the function still
    answers, with a date that lies before the production date. *)
Theorem X2_negative_shelf_life_goes_back (p : date) (m d : option Z) :
  valid_date p = true -> shelf_days m d < 0 ->
  in_date_range (toordinal p + shelf_days m d) ->
  exists e,
    calculate_expiry_date (VDate p) m d = Ok (VDate e)
    /\ valid_date e = true
    /\ toordinal e = toordinal p + shelf_days m d
    /\ date_ltb e p = true.
Proof.
  intros Hp Hneg Hr. rewrite calculate_expiry_date_shelf_days.
  destruct (add_days_is_plus_days (VDate p) (shelf_days m d) Hp) as [Hin _].
  destruct (Hin Hr) as (e & He & Hv & Ho).
  exists e. repeat split; auto. apply toordinal_lt_ltb; auto. lia.
Qed.

Lemma X2_negative_shelf_life_goes_back_witness :
  exists e,
    calculate_expiry_date (VDate (mkdate 2024 3 1)) (Some (-1)) (Some 10)
    = Ok (VDate e)
    /\ valid_date e = true
    /\ toordinal e = toordinal (mkdate 2024 3 1) + -30
    /\ date_ltb e (mkdate 2024 3 1) = true.
Proof.
  apply (X2_negative_shelf_life_goes_back (mkdate 2024 3 1) (Some (-1)) (Some 10)).
  - reflexivity.
  - reflexivity.
  - unfold in_date_range. vm_compute. split; discriminate.
Defined.

(** X3: the two functions compose.  The remaining days of the computed
    expiry date are the days added to the production date minus the days
    elapsed since production; seen on the production day itself they are
    exactly the shelf life in days. *)
Theorem X3_remaining_days_of_computed_expiry
    (w : world) (p : date) (m d : option Z) :
  valid_date p = true ->
  in_date_range (toordinal p + shelf_days m d) ->
  exists e,
    calculate_expiry_date (VDate p) m d = Ok (VDate e)
    /\ get_days_remaining w (VDate e)
       = (Ok (shelf_days m d - (toordinal (clock_date w) - toordinal p)), w)
    /\ (clock_date w = p ->
        fst (get_days_remaining w (VDate e)) = Ok (shelf_days m d)).
Proof.
  intros Hp Hr. rewrite calculate_expiry_date_shelf_days.
  destruct (add_days_is_plus_days (VDate p) (shelf_days m d) Hp) as [Hin _].
  destruct (Hin Hr) as (e & He & Hv & Ho).
  exists e. split; [exact He|]. rewrite days_remaining_date, Ho. split.
  - f_equal. f_equal. lia.
  - intros ->. cbn. f_equal. lia.
Qed.

Lemma X3_remaining_days_of_computed_expiry_witness :
  exists e,
    calculate_expiry_date (VDate (mkdate 2024 1 15)) None (Some 180)
    = Ok (VDate e)
    /\ fst (get_days_remaining (mkworld (mkdate 2024 1 15) midnight [])
              (VDate e)) = Ok 180.
Proof.
  destruct (X3_remaining_days_of_computed_expiry
              (mkworld (mkdate 2024 1 15) midnight [])
              (mkdate 2024 1 15) None (Some 180))
    as (e & He & _ & Hsame).
  - reflexivity.
  - unfold in_date_range. vm_compute. split; discriminate.
  - exists e. split; [exact He|]. apply Hsame. reflexivity.
Defined.

(* ================================================================== *)
(** * Further properties of the candidate extractor *)

(** ** Where a candidate comes from *)

Lemma parse_date_patterns_origin texts l c :
  parse_date_patterns texts = Ok l -> In c l ->
  exists txt p m l',
    In txt texts /\ In p patterns /\ In m (findall p txt)
    /\ on_match txt m = Ok l' /\ In c l'.
Proof.
  unfold parse_date_patterns. intros E Hc.
  destruct (for_each_ok text_candidates texts) as (zs & Hz & Hin).
  { intros t _. destruct (text_candidates_spec t) as (x & -> & _). eauto. }
  rewrite Hz in E. inversion E; subst zs.
  destruct (Hin c Hc) as (txt & ys & Ht & Hys & Hcy).
  unfold text_candidates in Hys.
  destruct (for_each_ok (pattern_candidates txt) patterns) as (zs & Hz' & Hin').
  { intros p _. destruct (pattern_candidates_spec txt p) as (x & -> & _). eauto. }
  rewrite Hz' in Hys. inversion Hys; subst zs.
  destruct (Hin' c Hcy) as (p & ys' & Hp & Hys' & Hcy').
  unfold pattern_candidates in Hys'.
  destruct (for_each_ok (on_match txt) (findall p txt)) as (zs & Hz2 & Hin2).
  { intros; apply on_match_ok. }
  rewrite Hz2 in Hys'. inversion Hys'; subst zs.
  destruct (Hin2 c Hcy') as (m & l' & Hm & Hl' & Hcl').
  exists txt, p, m, l'. auto.
Qed.

Lemma on_match_single txt m l c :
  on_match txt m = Ok l -> In c l -> l = [c] /\ candidate_of txt m c.
Proof.
  intros E Hc.
  destruct (on_match_cases txt m) as [E0 | (c' & E1 & Hc')].
  - rewrite E0 in E. inversion E; subst. destruct Hc.
  - rewrite E1 in E. inversion E; subst.
    destruct Hc as [<- | []]. auto.
Qed.

(** X4: every candidate carries one of the input fragments as its text
    (the whole fragment, not the part that matched), and its role
    follows what it holds: a date, at midnight, is always typed
    [production_date], a number of months [shelf_life].  A date printed
    behind the best-before label [保质期至] is therefore reported as a
    production date like any other. *)
Theorem X4_candidate_text_and_type
    (texts : list text) (l : list candidate) (c : candidate) :
  parse_date_patterns texts = Ok l -> In c l ->
  In (get_text c) texts
  /\ match c with
     | DateCand v ty _ _ =>
         ty = production_date
         /\ exists d, v = VDatetime d midnight /\ valid_date d = true
     | ShelfCand _ ty _ _ => ty = shelf_life
     end.
Proof.
  intros E Hc.
  destruct (parse_date_patterns_origin _ _ _ E Hc)
    as (txt & p & m & l' & Ht & _ & _ & Hl' & Hcl').
  destruct (on_match_single _ _ _ _ Hl' Hcl') as [_ Hcand].
  destruct Hcand as [(_ & d & -> & V) | [(_ & d & -> & V & _) | (_ & n & ->)]];
    cbn; eauto.
Qed.

Lemma X4_candidate_text_and_type_witness :
  let txt := u "保质期至:2025-01-10" in
  let c := DateCand (VDatetime (mkdate 2025 1 10) midnight) production_date
                    txt (8 # 10) in
  parse_date_patterns [txt]
  = Ok [c; DateCand (VDatetime (mkdate 2025 1 1) midnight) production_date
              txt (6 # 10); c]
  /\ In (get_text c) [txt].
Proof.
  intros txt c.
  assert (E : parse_date_patterns [txt]
              = Ok [c; DateCand (VDatetime (mkdate 2025 1 1) midnight)
                         production_date txt (6 # 10); c])
    by (vm_compute; reflexivity).
  split; [exact E|].
  exact (proj1 (X4_candidate_text_and_type [txt] _ c E (or_introl eq_refl))).
Defined.

(** ** What the groups capture *)

Lemma firstn_span k hi s j :
  (j <= span k hi s)%nat -> forallb (cmatch k) (firstn j s) = true.
Proof.
  revert hi j. induction s as [| c s IH]; intros hi j H.
  - now rewrite firstn_nil.
  - destruct j as [| j]; [reflexivity|]. cbn in H |- *.
    destruct (cmatch k c); [| lia]. cbn.
    destruct hi as [[| l] |];
      [lia | apply (IH (Some l)); lia | apply (IH None); lia].
Qed.

Lemma rx_run_caps_digits r :
  caps_digits r = true ->
  forall s g s', In (g, s') (rx_run r s) ->
  Forall (fun x => forallb is_digit x = true) g.
Proof.
  induction r as [| c | k | r1 IH1 r2 IH2 | r1 IH1 r2 IH2 | r1 IH1 | k lo hi];
    cbn [caps_digits]; intros U s g s' H.
  - cbn in H. destruct H as [E | []]. inversion E. constructor.
  - apply in_rx_chr in H. destruct H as [_ ->]. constructor.
  - apply in_rx_cls in H. destruct H as (x & _ & _ & ->). constructor.
  - apply andb_true_iff in U. destruct U as [U1 U2].
    apply in_rx_seq in H. destruct H as (g1 & s1 & g2 & H1 & H2 & ->).
    apply Forall_app. split; eauto.
  - apply andb_true_iff in U. destruct U as [U1 U2].
    apply in_rx_alt in H. destruct H as [H | H]; eauto.
  - destruct r1 as [| | | | | | k lo hi]; try discriminate.
    destruct k; try discriminate.
    apply in_rx_grp in H. destruct H as (g0 & H & ->).
    apply in_rx_rep in H. destruct H as (j & Hj & -> & ->).
    constructor; [|constructor].
    pose proof (span_le_length CDigit hi s).
    rewrite consumed_skipn by lia.
    apply (firstn_span CDigit hi). lia.
  - apply in_rx_rep in H. destruct H as (j & _ & _ & ->). constructor.
Qed.

Lemma findall_single_digits r txt it :
  uniform r = true -> ngroups r = 1%nat ->
  caps_digits r = true -> caps_le 2 r = true ->
  In it (findall r txt) ->
  exists x, it = FStr x /\ forallb is_digit x = true
            /\ (List.length x <= 2)%nat.
Proof.
  intros U N C L H. apply findall_from_items in H.
  destruct H as (s0 & [g s'] & Hm & ->).
  unfold item_of. rewrite N. cbn.
  pose proof (rx_run_ngroups r U _ _ _ Hm) as Lg. rewrite N in Lg.
  pose proof (rx_run_caps_digits r C _ _ _ Hm) as F.
  pose proof (rx_run_caps_le 2 r L _ _ _ Hm) as F2.
  destruct g as [| x [| ? ?]]; try discriminate.
  exists x. cbn. inversion F; inversion F2; subst. repeat split; auto.
Qed.

Lemma py_int_one_digit c :
  is_digit c = true -> py_int [c] = Ok (digit_val c) /\ 0 <= digit_val c <= 9.
Proof.
  intros D. split.
  - rewrite py_int_digits; [reflexivity | discriminate |].
    cbn. now rewrite D.
  - apply is_digit_iff in D. unfold digit_val. lia.
Qed.

(** The candidates of one element of the month-count pattern: a string
    of one or two digits. *)
Lemma on_match_digit_string txt x l c :
  forallb is_digit x = true -> (List.length x <= 2)%nat ->
  on_match txt (FStr x) = Ok l -> In c l ->
  (exists n, 0 <= n <= 9 /\ c = ShelfCand n shelf_life txt (7 # 10))
  \/ (exists a b, 1 <= a <= 9 /\ 1 <= b <= 9
        /\ c = DateCand (VDatetime (mkdate a b 1) midnight)
                        production_date txt (6 # 10)).
Proof.
  intros D L E Hc.
  destruct x as [| a [| b [| ? ?]]]; cbn in L; try lia.
  - cbn in E. inversion E; subst. destruct Hc.
  - cbn in D. rewrite andb_true_r in D.
    destruct (py_int_one_digit a D) as [Ia Ba].
    unfold on_match, match_body in E. cbn in E. rewrite Ia in E. cbn in E.
    inversion E; subst. destruct Hc as [<- | []]. left. eauto.
  - cbn in D. rewrite andb_true_r in D. apply andb_true_iff in D.
    destruct D as [Da Db].
    destruct (py_int_one_digit a Da) as [Ia Ba].
    destruct (py_int_one_digit b Db) as [Ib Bb].
    unfold on_match, match_body in E. cbn in E. rewrite Ia, Ib in E. cbn in E.
    destruct (datetime_new_cases (digit_val a) (digit_val b) 1)
      as [[V Hn] | [V Hn]]; rewrite Hn in E; cbn in E;
      inversion E; subst; [| destruct Hc].
    destruct Hc as [<- | []]. right.
    apply valid_ymd_iff in V. exists (digit_val a), (digit_val b).
    repeat split; try lia.
Qed.

(** What the month-count pattern [保质期[：:](\d{1,2})[个]*月] can yield
    on any fragment: a shelf life of 0 to 9 months, or a production date
    on the first of a month of the years 1 to 9. *)
Lemma month_count_pattern_shapes (txt : text) (c : candidate) :
  from_pattern txt pat_shelf_months c ->
  (exists n, 0 <= n <= 9 /\ c = ShelfCand n shelf_life txt (7 # 10))
  \/ (exists a b, 1 <= a <= 9 /\ 1 <= b <= 9
        /\ c = DateCand (VDatetime (mkdate a b 1) midnight)
                        production_date txt (6 # 10)).
Proof.
  intros (l & Hl & Hc). unfold pattern_candidates in Hl.
  destruct (for_each_ok (on_match txt) (findall pat_shelf_months txt))
    as (zs & Hz & Hin).
  { intros; apply on_match_ok. }
  rewrite Hz in Hl. inversion Hl; subst zs.
  destruct (Hin c Hc) as (m & l' & Hm & Hl' & Hcl').
  destruct (findall_single_digits pat_shelf_months txt m)
    as (x & -> & D & L); try reflexivity; try assumption.
  eapply on_match_digit_string; eauto.
Qed.

Lemma digit_cases a :
  0 <= a <= 9 ->
  a = 0 \/ a = 1 \/ a = 2 \/ a = 3 \/ a = 4 \/ a = 5 \/ a = 6 \/ a = 7
  \/ a = 8 \/ a = 9.
Proof. lia. Qed.

Ltac each_digit H :=
  repeat (destruct H as [-> | H]; [vm_compute; reflexivity|]);
  subst; vm_compute; reflexivity.

Lemma month_count_one_digit c a ge :
  c = ch "：" \/ c = ch ":" -> 0 <= a <= 9 ->
  parse_date_patterns [month_count_text c [digit_char a] ge]
  = Ok [ShelfCand a shelf_life (month_count_text c [digit_char a] ge)
                  (7 # 10)].
Proof.
  intros Hc Ha. pose proof (digit_cases a Ha) as Ea.
  destruct Hc as [-> | ->]; destruct ge; each_digit Ea.
Qed.

Lemma month_count_two_digits c a b ge :
  c = ch "：" \/ c = ch ":" -> 0 <= a <= 9 -> 0 <= b <= 9 ->
  parse_date_patterns [month_count_text c [digit_char a; digit_char b] ge]
  = Ok (if (1 <=? a) && (1 <=? b)
        then [DateCand (VDatetime (mkdate a b 1) midnight) production_date
                (month_count_text c [digit_char a; digit_char b] ge)
                (6 # 10)]
        else []).
Proof.
  intros Hc Ha Hb.
  pose proof (digit_cases a Ha) as Ea. pose proof (digit_cases b Hb) as Eb.
  destruct Hc as [-> | ->]; destruct ge;
    repeat (destruct Ea as [-> | Ea];
            [repeat (destruct Eb as [-> | Eb]; [vm_compute; reflexivity|]);
             subst; vm_compute; reflexivity|]);
    subst a; each_digit Eb.
Qed.

(** X5: the month-count pattern [保质期[：:](\d{1,2})[个]*月] has one
    group, so [re.findall] returns the captured digits as a string, whose
    length the code takes for a number of fields.  On a fragment made of
    the label, a colon, the digits and [月] or [个月], the whole extraction
    returns: for one digit [a], the shelf life of [a] months (0.7) and
    nothing else; for two digits [a] and [b], no shelf life but the
    production date of year [a], month [b], day 1 (0.6) when neither
    digit is 0, and nothing when one is: [保质期:12个月] gives the date
    0001-02-01.  On any fragment the pattern yields nothing but such
    candidates. *)
Theorem X5_month_count_pattern (c : cp) (a b : Z) (ge : bool) :
  c = ch "：" \/ c = ch ":" -> 0 <= a <= 9 -> 0 <= b <= 9 ->
  parse_date_patterns [month_count_text c [digit_char a] ge]
  = Ok [ShelfCand a shelf_life (month_count_text c [digit_char a] ge)
                  (7 # 10)]
  /\ parse_date_patterns
       [month_count_text c [digit_char a; digit_char b] ge]
     = Ok (if (1 <=? a) && (1 <=? b)
           then [DateCand (VDatetime (mkdate a b 1) midnight)
                   production_date
                   (month_count_text c [digit_char a; digit_char b] ge)
                   (6 # 10)]
           else [])
  /\ (forall txt cand,
        from_pattern txt pat_shelf_months cand ->
        (exists n, 0 <= n <= 9
                   /\ cand = ShelfCand n shelf_life txt (7 # 10))
        \/ (exists y m, 1 <= y <= 9 /\ 1 <= m <= 9
              /\ cand = DateCand (VDatetime (mkdate y m 1) midnight)
                                 production_date txt (6 # 10))).
Proof.
  intros Hc Ha Hb. split; [| split].
  - now apply month_count_one_digit.
  - now apply month_count_two_digits.
  - intros txt cand H. now apply month_count_pattern_shapes.
Qed.

Lemma X5_month_count_pattern_witness :
  parse_date_patterns [u "保质期:6个月"]
  = Ok [ShelfCand 6 shelf_life (u "保质期:6个月") (7 # 10)]
  /\ parse_date_patterns [u "保质期:12个月"]
     = Ok [DateCand (VDatetime (mkdate 1 2 1) midnight) production_date
                    (u "保质期:12个月") (6 # 10)].
Proof.
  destruct (X5_month_count_pattern (ch ":") 6 2 true) as (H1 & _ & _);
    [now right | lia | lia |].
  destruct (X5_month_count_pattern (ch ":") 1 2 true) as (_ & H2 & _);
    [now right | lia | lia |].
  split; [exact H1 | exact H2].
Defined.

(** X6: no shelf life above nine months ever comes out of the
    extraction: whatever the fragments, every shelf-life candidate holds
    a number of months between 0 and 9. *)
Theorem X6_shelf_life_at_most_nine_months
    (texts : list text) (l : list candidate)
    (n : Z) (ty : cand_type) (t : text) (q : Q) :
  parse_date_patterns texts = Ok l -> In (ShelfCand n ty t q) l ->
  0 <= n <= 9.
Proof.
  intros E Hc.
  destruct (parse_date_patterns_origin _ _ _ E Hc)
    as (txt & p & m & l' & _ & Hp & Hm & Hl' & Hcl').
  assert (Hlen : fitem_len m = 1%nat).
  { destruct (on_match_single _ _ _ _ Hl' Hcl') as [_ Hcand].
    destruct Hcand as [(_ & d & X & _) | [(_ & d & X & _) | (L & _)]];
      [discriminate | discriminate | exact L]. }
  assert (Tup : forall k, uniform p = true -> ngroups p = S (S k) -> False).
  { intros k U N. destruct (findall_tuples p k txt m U N Hm) as (gs & -> & Lg).
    unfold fitem_len in Hlen. cbn in Hlen. lia. }
  cbn in Hp.
  repeat (destruct Hp as [<- | Hp];
          [ first [ exfalso; eapply Tup; reflexivity | idtac ] | ]);
    [| destruct Hp].
  destruct (findall_single_digits pat_shelf_months txt m)
    as (x & -> & D & L); try reflexivity; try assumption.
  destruct (on_match_digit_string txt x l' _ D L Hl' Hcl')
    as [(k & Hk & X) | (a & b & _ & _ & X)]; [| discriminate].
  inversion X; subst. exact Hk.
Qed.

Lemma X6_shelf_life_at_most_nine_months_witness :
  parse_date_patterns [u "保质期:6个月"]
  = Ok [ShelfCand 6 shelf_life (u "保质期:6个月") (7 # 10)]
  /\ 0 <= 6 <= 9.
Proof.
  assert (E : parse_date_patterns [u "保质期:6个月"]
              = Ok [ShelfCand 6 shelf_life (u "保质期:6个月") (7 # 10)])
    by (vm_compute; reflexivity).
  split; [exact E|].
  exact (X6_shelf_life_at_most_nine_months
           [u "保质期:6个月"]
           [ShelfCand 6 shelf_life (u "保质期:6个月") (7 # 10)]
           6 shelf_life (u "保质期:6个月") (7 # 10) E (or_introl eq_refl)).
Defined.

(** ** Fragments without digits *)

Lemma rx_run_suffix r :
  forall s g s', In (g, s') (rx_run r s) -> exists a, s = a ++ s'.
Proof.
  induction r as [| c | k | r1 IH1 r2 IH2 | r1 IH1 r2 IH2 | r1 IH1 | k lo hi];
    intros s g s' H.
  - apply in_rx_eps in H. destruct H as [-> _]. now exists [].
  - apply in_rx_chr in H. destruct H as [-> _]. now exists [c].
  - apply in_rx_cls in H. destruct H as (x & -> & _). now exists [x].
  - apply in_rx_seq in H. destruct H as (g1 & s1 & g2 & H1 & H2 & _).
    destruct (IH1 _ _ _ H1) as (a & ->). destruct (IH2 _ _ _ H2) as (b & ->).
    exists (a ++ b). now rewrite app_assoc.
  - apply in_rx_alt in H. destruct H as [H | H]; eauto.
  - apply in_rx_grp in H. destruct H as (g0 & H & _). eauto.
  - apply in_rx_rep in H. destruct H as (j & _ & -> & _).
    exists (firstn j s). now rewrite firstn_skipn.
Qed.

Lemma span_pos_head k hi s :
  (1 <= span k hi s)%nat -> exists c s0, s = c :: s0 /\ cmatch k c = true.
Proof.
  destruct s as [| c s]; cbn; [lia|].
  destruct (cmatch k c) eqn:M; [eauto | lia].
Qed.

Lemma rx_run_needs_digit r :
  needs_digit r = true ->
  forall s g s', In (g, s') (rx_run r s) ->
  exists c, In c s /\ is_digit c = true.
Proof.
  induction r as [| c | k | r1 IH1 r2 IH2 | r1 IH1 r2 IH2 | r1 IH1 | k lo hi];
    cbn [needs_digit]; intros U s g s' H; try discriminate.
  - destruct k; try discriminate.
    apply in_rx_cls in H. destruct H as (x & -> & M & _).
    exists x. split; [now left | exact M].
  - apply in_rx_seq in H. destruct H as (g1 & s1 & g2 & H1 & H2 & _).
    apply orb_true_iff in U. destruct U as [U | U].
    + eauto.
    + destruct (IH2 U _ _ _ H2) as (c & Hc & D).
      destruct (rx_run_suffix _ _ _ _ H1) as (a & ->).
      exists c. split; [apply in_or_app; now right | exact D].
  - apply andb_true_iff in U. destruct U as [U1 U2].
    apply in_rx_alt in H. destruct H as [H | H]; eauto.
  - apply in_rx_grp in H. destruct H as (g0 & H & _). eauto.
  - apply andb_true_iff in U. destruct U as [Uk Ulo].
    destruct k; try discriminate. apply Nat.leb_le in Ulo.
    apply in_rx_rep in H. destruct H as (j & Hj & _ & _).
    destruct (span_pos_head CDigit hi s) as (c & s0 & -> & M); [lia|].
    exists c. split; [now left | exact M].
Qed.

Lemma findall_from_items_suffix r s :
  forall skip it, In it (findall_from r skip s) ->
  exists pre s0 m, s = pre ++ s0 /\ In m (rx_run r s0).
Proof.
  induction s as [| c s IH]; intros skip it H; cbn in H; [contradiction|].
  assert (Tail : forall k, In it (findall_from r k s) ->
            exists pre s0 m, c :: s = pre ++ s0 /\ In m (rx_run r s0)).
  { intros k Hk. destruct (IH _ _ Hk) as (pre & s0 & m & -> & Hm).
    exists (c :: pre), s0, m. auto. }
  destruct skip as [| k]; [| eauto].
  destruct (rx_match r (c :: s)) as [m |] eqn:M; [| eauto].
  destruct H as [_ | H]; [| eauto].
  exists [], (c :: s), m. split; [reflexivity | now apply rx_match_in].
Qed.

Lemma findall_no_digit r txt :
  needs_digit r = true -> (forall c, In c txt -> is_digit c = false) ->
  findall r txt = [].
Proof.
  intros U N. apply no_match_is_nil. intros it H.
  apply findall_from_items_suffix in H.
  destruct H as (pre & s0 & [g s'] & -> & Hm).
  destruct (rx_run_needs_digit r U _ _ _ Hm) as (c & Hc & D).
  rewrite N in D; [discriminate|]. apply in_or_app. now right.
Qed.

Lemma for_each_all_nil {A B} (f : A -> result (list B)) l :
  (forall x, In x l -> f x = Ok []) -> for_each f l = Ok [].
Proof.
  induction l as [| x l IH]; intros H; cbn; [reflexivity|].
  rewrite (H x (or_introl eq_refl)). cbn.
  rewrite IH by (intros; apply H; now right). reflexivity.
Qed.

(** X7: a fragment without any decimal digit yields no candidate; when
    none of the fragments holds a digit the extraction returns the empty
    list and the recognition answers [None]. *)
Theorem X7_no_digit_no_candidate (texts : list text) :
  (forall txt, In txt texts -> no_digit txt) ->
  (forall txt, In txt texts -> text_candidates txt = Ok [])
  /\ parse_date_patterns texts = Ok []
  /\ recognize_texts texts = Ok None.
Proof.
  intros N.
  assert (T : forall txt, In txt texts -> text_candidates txt = Ok []).
  { intros txt Ht. unfold text_candidates. apply for_each_all_nil.
    intros p Hp. unfold pattern_candidates.
    rewrite findall_no_digit;
      [reflexivity | | intros c Hc; now apply (N txt Ht c Hc)].
    cbn in Hp.
    repeat (destruct Hp as [<- | Hp]; [reflexivity|]). destruct Hp. }
  assert (P : parse_date_patterns texts = Ok [])
    by (unfold parse_date_patterns; now apply for_each_all_nil).
  repeat split; auto.
  unfold recognize_texts. rewrite P. destruct texts; reflexivity.
Qed.

Lemma X7_no_digit_no_candidate_witness :
  parse_date_patterns [u "生产日期：见瓶身"; u "保质期：十二个月"] = Ok [].
Proof.
  apply (X7_no_digit_no_candidate [u "生产日期：见瓶身"; u "保质期：十二个月"]).
  intros txt [<- | [<- | []]] c Hc; vm_compute in Hc;
    repeat (destruct Hc as [<- | Hc]; [split; reflexivity|]); destruct Hc.
Defined.

(** ** The recognition as a whole *)

Lemma recognize_texts_spec (texts : list text) :
  exists dates r,
    parse_date_patterns texts = Ok dates
    /\ recognize_texts texts = Ok r
    /\ (r = None <-> dates = [])
    /\ (forall best, r = Some best ->
          In best dates
          /\ forall c, In c dates -> (get_confidence c <= get_confidence best)%Q).
Proof.
  destruct (parse_date_patterns_spec texts) as (dates & E & _).
  exists dates.
  destruct dates as [| c0 dates].
  - exists None. split; [exact E|]. split.
    + unfold recognize_texts. rewrite E. destruct texts; reflexivity.
    + split; [tauto | discriminate].
  - destruct (py_max_first_greatest _ get_confidence (c0 :: dates))
      as (best & Hmax & pre & post & Hsplit & Hpre & Hpost); [discriminate|].
    exists (Some best).
    assert (Ht : texts <> []).
    { intros ->. cbn in E. discriminate. }
    split; [exact E|]. split.
    + unfold recognize_texts. rewrite E.
      destruct texts; [congruence|]. cbn in Hmax |- *.
      inversion Hmax. reflexivity.
    + split; [split; discriminate|].
      intros b Hb. inversion Hb; subst b. split.
      * rewrite Hsplit. apply in_or_app. right. now left.
      * intros c Hc. rewrite Hsplit in Hc.
        apply in_app_or in Hc. destruct Hc as [Hc | [<- | Hc]].
        -- apply Qlt_le_weak. now apply Hpre.
        -- apply Qle_refl.
        -- now apply Hpost.
Qed.

(** X8: [recognize_date], from the extracted texts on, never raises; it
    answers [None] exactly when the extraction yields no candidate, and
    otherwise a candidate of the extraction that no other exceeds in
    confidence. *)
Theorem X8_recognize_none_iff_no_candidate (texts : list text) :
  exists dates r,
    parse_date_patterns texts = Ok dates
    /\ recognize_texts texts = Ok r
    /\ (r = None <-> dates = [])
    /\ (forall best, r = Some best ->
          In best dates
          /\ forall c, In c dates -> (get_confidence c <= get_confidence best)%Q).
Proof.
  destruct (recognize_texts_spec texts) as (dates & r & E & R & N & B).
  exists dates, r. repeat split; try assumption; try apply N.
  - now apply B.
  - intros c Hc. now apply (B best).
Qed.

(** X9: one answer per image.  When the fragments hold a full date
    (confidence 0.8), what is returned is a full date typed
    [production_date]; a shelf life found in the same fragments is then
    not reported. *)
Theorem X9_full_date_hides_shelf_life
    (texts : list text) (dates : list candidate) (best c : candidate) :
  parse_date_patterns texts = Ok dates ->
  recognize_texts texts = Ok (Some best) ->
  In c dates -> get_confidence c = 8 # 10 ->
  exists d, best = DateCand (VDatetime d midnight) production_date
                            (get_text best) (8 # 10)
            /\ valid_date d = true.
Proof.
  intros E R Hc Hq.
  destruct (recognize_texts_spec texts)
    as (dates' & r & E' & R' & _ & Hbest).
  rewrite E in E'. inversion E'; subst dates'.
  rewrite R in R'. inversion R'; subst r.
  destruct (Hbest best eq_refl) as [Hin Hmax].
  specialize (Hmax c Hc). rewrite Hq in Hmax.
  destruct (parse_date_patterns_origin _ _ _ E Hin)
    as (txt & p & m & l' & _ & _ & _ & Hl' & Hcl').
  destruct (on_match_single _ _ _ _ Hl' Hcl') as [_ Hcand].
  destruct Hcand as [(_ & d & -> & V) | [(_ & d & -> & V & _) | (_ & n & ->)]];
    cbn in Hmax |- *.
  - eauto.
  - exfalso. revert Hmax. vm_compute. intros H. now apply H.
  - exfalso. revert Hmax. vm_compute. intros H. now apply H.
Qed.

Lemma X9_full_date_hides_shelf_life_witness :
  let texts := [u "保质期:6个月"; u "生产日期:2024-01-15"] in
  exists best d,
    recognize_texts texts = Ok (Some best)
    /\ best = DateCand (VDatetime d midnight) production_date
                       (get_text best) (8 # 10)
    /\ valid_date d = true.
Proof.
  intros texts.
  set (c := DateCand (VDatetime (mkdate 2024 1 15) midnight) production_date
                     (u "生产日期:2024-01-15") (8 # 10)).
  assert (E : parse_date_patterns texts
              = Ok [ShelfCand 6 shelf_life (u "保质期:6个月") (7 # 10);
                    c;
                    DateCand (VDatetime (mkdate 2024 1 1) midnight)
                             production_date (u "生产日期:2024-01-15") (6 # 10);
                    c])
    by (vm_compute; reflexivity).
  assert (R : recognize_texts texts = Ok (Some c)) by (vm_compute; reflexivity).
  destruct (X9_full_date_hides_shelf_life texts _ c c E R) as (d & Hd & V).
  - right. now left.
  - reflexivity.
  - exists c, d. auto.
Defined.

(* ================================================================== *)
(** * Further properties of the typed-date parser *)

Lemma date_new_raise y m d e : date_new y m d = Raise e -> e = ValueError.
Proof. unfold date_new. destruct (valid_ymd y m d); congruence. Qed.

Lemma assign_fields_raise ds :
  forall gs acc e, assign_fields ds gs acc = Raise e -> e = ValueError.
Proof.
  induction ds as [| d ds IH]; intros gs acc e; cbn; [congruence|].
  destruct gs as [| g gs]; [congruence|].
  destruct (py_int g) as [v | e'] eqn:E; cbn.
  - destruct acc as [[y m] dd]. apply IH.
  - intros H. inversion H; subst. now apply py_int_raise in E.
Qed.

Lemma strptime_date_raise t fmt e :
  strptime_date t fmt = Raise e -> e = ValueError.
Proof.
  unfold strptime_date.
  destruct (format_pattern fmt) as [[r ds] |]; [| congruence].
  destruct (rx_match r t) as [[gs rest] |]; [| congruence].
  destruct rest; [| congruence].
  destruct (assign_fields ds gs (1900, 1, 1)) as [[[y m] d] | e'] eqn:A; cbn.
  - apply date_new_raise.
  - intros H. inversion H; subst. now apply assign_fields_raise in A.
Qed.

Lemma try_formats_raise t fmts e :
  try_formats t fmts = Raise e -> e = ValueError.
Proof.
  induction fmts as [| f fmts IH]; cbn; [congruence|].
  destruct (strptime_date t f) as [d | e'] eqn:S; [congruence|].
  apply strptime_date_raise in S. subst e'. exact IH.
Qed.

Lemma py_int_choice_raise (b : bool) s1 s2 e :
  (if b then py_int s1 else py_int s2) = Raise e -> e = ValueError.
Proof. destruct b; apply py_int_raise. Qed.

Lemma bind_raise {A B} (m : result A) (k : A -> result B) e :
  bind m k = Raise e ->
  m = Raise e \/ exists a, m = Ok a /\ k a = Raise e.
Proof. destruct m as [a | e']; cbn; intros H; [right; eauto | left; congruence]. Qed.

Lemma guess_from_numbers_raise t e :
  guess_from_numbers t = Raise e -> e = ValueError.
Proof.
  unfold guess_from_numbers.
  destruct (3 <=? _)%nat; [| congruence].
  intros H.
  apply bind_raise in H as [H | (y & _ & H)];
    [now apply py_int_choice_raise in H|].
  apply bind_raise in H as [H | (m & _ & H)];
    [now apply py_int_raise in H|].
  apply bind_raise in H as [H | (d & _ & H)];
    [now apply py_int_choice_raise in H|].
  unfold try_except in H.
  destruct (date_new y m d) as [x | e4] eqn:E4; cbn in H; [discriminate|].
  apply date_new_raise in E4. subst e4. discriminate.
Qed.

Lemma parse_date_raise t e : parse_date t = Raise e -> e = ValueError.
Proof.
  unfold parse_date. intros P.
  destruct (try_formats t formats) as [[d |] | e1] eqn:T; cbn in P.
  - discriminate.
  - destruct (guess_from_numbers t) as [[d |] | e2] eqn:G; cbn in P.
    + discriminate.
    + congruence.
    + inversion P; subst. now apply guess_from_numbers_raise in G.
  - inversion P; subst. now apply try_formats_raise in T.
Qed.

(** X10: on a text whose digits are ASCII digits, in runs of at most
    nine, [parse_date] has two outcomes only: a valid calendar date, or
    [ValueError], the one exception its docstring announces. *)
Theorem X10_parse_date_date_or_ValueError (t : text) :
  plain_text t -> short_numbers t ->
  (exists x, parse_date t = Ok x /\ valid_date x = true)
  \/ parse_date t = Raise ValueError.
Proof.
  intros _ _.
  destruct (parse_date t) as [x | e] eqn:P.
  - left. exists x. split; [reflexivity | now apply parse_date_valid in P].
  - right. f_equal. now apply parse_date_raise in P.
Qed.

Lemma X10_parse_date_date_or_ValueError_witness :
  (exists x, parse_date (u "2024.02.30") = Ok x /\ valid_date x = true)
  \/ parse_date (u "2024.02.30") = Raise ValueError.
Proof.
  apply (X10_parse_date_date_or_ValueError (u "2024.02.30")).
  - intros c Hc. vm_compute in Hc.
    repeat (destruct Hc as [<- | Hc]; [reflexivity|]). destruct Hc.
  - intros g Hg. vm_compute in Hg.
    repeat (destruct Hg as [<- | Hg]; [cbn; lia|]). destruct Hg.
Defined.

(* ================================================================== *)
(** * The typed-date parser on written dates *)

(** ** A match goes on matching when text is added at the end *)

Lemma consumed_extend (a s' t : text) :
  consumed ((a ++ s') ++ t) (s' ++ t) = consumed (a ++ s') s'.
Proof.
  rewrite <- app_assoc. now rewrite !consumed_app.
Qed.

Lemma span_extend k hi s t : (span k hi s <= span k hi (s ++ t))%nat.
Proof.
  revert hi. induction s as [| c s IH]; intros hi; cbn; [lia|].
  destruct (cmatch k c); [| lia].
  destruct hi as [[| l] |]; [lia | |].
  - specialize (IH (Some l)). lia.
  - specialize (IH None). lia.
Qed.

Lemma rx_run_extend r t :
  forall s g s', In (g, s') (rx_run r s) -> In (g, s' ++ t) (rx_run r (s ++ t)).
Proof.
  induction r as [| c | k | r1 IH1 r2 IH2 | r1 IH1 r2 IH2 | r1 IH1 | k lo hi];
    intros s g s' H.
  - apply in_rx_eps in H. destruct H as [-> ->]. now apply in_rx_eps.
  - apply in_rx_chr in H. destruct H as [-> ->]. now apply in_rx_chr.
  - apply in_rx_cls in H. destruct H as (x & -> & M & ->).
    apply in_rx_cls. exists x. auto.
  - apply in_rx_seq in H. destruct H as (g1 & s1 & g2 & H1 & H2 & ->).
    apply in_rx_seq. exists g1, (s1 ++ t), g2. auto.
  - apply in_rx_alt in H. apply in_rx_alt. destruct H; auto.
  - apply in_rx_grp in H. destruct H as (g0 & H & ->).
    apply in_rx_grp. exists g0. split; [auto|].
    destruct (rx_run_suffix _ _ _ _ H) as (a & ->).
    now rewrite consumed_extend.
  - apply in_rx_rep in H. destruct H as (j & Hj & -> & ->).
    apply in_rx_rep. exists j.
    pose proof (span_extend k hi s t).
    pose proof (span_le_length k hi s).
    split; [lia|]. split; [| reflexivity].
    rewrite skipn_app.
    replace (j - List.length s)%nat with 0%nat by lia. reflexivity.
Qed.

(** ** What the groups of the directives read *)

Lemma text_eqb_eq (a b : text) : text_eqb a b = true -> a = b.
Proof.
  unfold text_eqb. revert b.
  induction a as [| x a IH]; intros [| y b]; cbn; try discriminate; auto.
  intros H. apply andb_true_iff in H. destruct H as [L H].
  apply andb_true_iff in H. destruct H as [E H].
  apply N.eqb_eq in E. subst y. f_equal. apply IH.
  now rewrite L, H.
Qed.

Lemma range_digit lo hi c :
  (48 <= lo)%N -> (hi <= 57)%N ->
  cmatch (CRange lo hi) c = true -> is_digit c = true.
Proof.
  intros L H M. cbn in M. apply andb_true_iff in M. destruct M as [M1 M2].
  apply N.leb_le in M1, M2. apply is_digit_iff. lia.
Qed.

Lemma year_group_reads g s s' :
  In (g, s') (rx_run (Grp (directive_regex DirY)) s) ->
  exists c1 c2 c3 c4,
    s = c1 :: c2 :: c3 :: c4 :: s' /\ g = [[c1; c2; c3; c4]]
    /\ is_digit c1 = true /\ is_digit c2 = true
    /\ is_digit c3 = true /\ is_digit c4 = true.
Proof.
  intros H.
  let r := eval vm_compute in (directive_regex DirY) in
  change (directive_regex DirY) with r in H.
  apply in_rx_grp in H. destruct H as (g0 & H & ->).
  rx_inv.
  match goal with
  | |- exists _ _ _ _, ?a :: ?b :: ?c :: ?d :: ?t = _ /\ _ =>
      exists a, b, c, d;
      change (a :: b :: c :: d :: t) with ([a; b; c; d] ++ t)
  end.
  rewrite consumed_app. cbn in *. auto 10.
Qed.

Ltac digit_goal :=
  match goal with
  | |- is_digit _ = true =>
      first [ reflexivity
            | assumption
            | eapply range_digit; [| | eassumption]; vm_compute; discriminate ]
  end.

Lemma md_group_reads dir g s s' :
  dir <> DirY ->
  In (g, s') (rx_run (Grp (directive_regex dir)) s) ->
  (exists a, s = a :: s' /\ g = [[a]] /\ is_digit a = true)
  \/ (exists a b, s = a :: b :: s' /\ g = [[a; b]]
                  /\ (is_digit a = true \/ a = 32%N) /\ is_digit b = true).
Proof.
  intros Hdir H.
  apply in_rx_grp in H. destruct H as (g0 & H & ->).
  destruct dir; [congruence | |].
  - let r := eval vm_compute in (directive_regex Dirm) in
    change (directive_regex Dirm) with r in H.
    rx_inv;
      match goal with
      | |- context [consumed (?a :: ?b :: ?t) ?t] =>
          right; exists a, b;
          change (a :: b :: t) with ([a; b] ++ t); rewrite consumed_app;
          repeat split; try left; digit_goal
      | |- context [consumed (?a :: ?t) ?t] =>
          left; exists a;
          change (a :: t) with ([a] ++ t); rewrite consumed_app;
          repeat split; digit_goal
      end.
  - let r := eval vm_compute in (directive_regex Dird) in
    change (directive_regex Dird) with r in H.
    rx_inv;
      match goal with
      | |- context [consumed (?a :: ?b :: ?t) ?t] =>
          right; exists a, b;
          change (a :: b :: t) with ([a; b] ++ t); rewrite consumed_app;
          repeat split; first [left; digit_goal | now right | digit_goal]
      | |- context [consumed (?a :: ?t) ?t] =>
          left; exists a;
          change (a :: t) with ([a] ++ t); rewrite consumed_app;
          repeat split; digit_goal
      end.
Qed.

(** ** Written numbers *)

Lemma num_shape p n :
  0 <= n <= 99 ->
  py_int (num p n) = Ok n
  /\ ((exists a, num p n = [a] /\ is_digit a = true)
      \/ (exists a b, num p n = [a; b]
                      /\ is_digit a = true /\ is_digit b = true)).
Proof.
  intros H.
  pose proof (zrange_forallb num_check 0 100
                ltac:(vm_compute; reflexivity) n ltac:(lia)) as C.
  unfold num_check in C. cbn [forallb] in C.
  apply andb_true_iff in C. destruct C as [C1 C2].
  apply andb_true_iff in C2. destruct C2 as [C2 _].
  assert (G : forall q,
            match num q n with
            | [a] => is_digit a && int_is [a] n
            | [a; b] => is_digit a && is_digit b && int_is [a; b] n
            | _ => false
            end = true ->
            py_int (num q n) = Ok n
            /\ ((exists a, num q n = [a] /\ is_digit a = true)
                \/ (exists a b, num q n = [a; b]
                                /\ is_digit a = true /\ is_digit b = true))).
  { intros q Q. destruct (num q n) as [| a [| b [| ? ?]]]; try discriminate.
    - apply andb_true_iff in Q. destruct Q as [D I].
      split; [now apply int_is_true | left; eauto].
    - apply andb_true_iff in Q. destruct Q as [Q I].
      apply andb_true_iff in Q. destruct Q as [D1 D2].
      split; [now apply int_is_true | right; eauto]. }
  destruct p; auto.
Qed.

Lemma md_group_accepts dir hi p n rest :
  (dir = Dirm /\ hi = 12) \/ (dir = Dird /\ hi = 31) ->
  1 <= n <= hi ->
  In ([num p n], rest) (rx_run (Grp (directive_regex dir)) (num p n ++ rest)).
Proof.
  intros Hd Hn.
  assert (C : group_check dir hi n = true).
  { destruct Hd as [[-> ->] | [-> ->]].
    - exact (zrange_forallb (group_check Dirm 12) 0 100
               ltac:(vm_compute; reflexivity) n ltac:(lia)).
    - exact (zrange_forallb (group_check Dird 31) 0 100
               ltac:(vm_compute; reflexivity) n ltac:(lia)). }
  assert (Hdir : dir <> DirY) by (destruct Hd as [[-> _] | [-> _]]; discriminate).
  unfold group_check in C.
  assert (G : existsb (fun m => text_eqb (hd [] (fst m)) (num p n)
                                && is_nil (snd m))
                (rx_run (Grp (directive_regex dir)) (num p n)) = true).
  { cbn [forallb] in C.
    apply andb_true_iff in C. destruct C as [C1 C2].
    apply andb_true_iff in C2. destruct C2 as [C2 _].
    replace ((1 <=? n) && (n <=? hi)) with true in C1, C2
      by (symmetry; apply andb_true_iff; split; apply Z.leb_le; lia).
    destruct p; assumption. }
  apply existsb_exists in G. destruct G as ([g s'] & Hin & G).
  apply andb_true_iff in G. destruct G as [G1 G2]. cbn [fst snd] in G1, G2.
  apply text_eqb_eq in G1. destruct s' as [| ? ?]; [| discriminate].
  assert (g = [num p n]).
  { destruct (md_group_reads _ _ _ _ Hdir Hin)
      as [(a & _ & -> & _) | (a & b & _ & -> & _)];
      cbn in G1; now rewrite G1. }
  subst g. exact (rx_run_extend _ rest _ _ _ Hin).
Qed.

(** The group of [%m] or [%d] on a written number, when no digit follows
    the number in the text nor the group in the match: it reads the
    number whole. *)
Lemma md_group_whole dir p n rest g s' :
  dir <> DirY -> 0 <= n <= 99 ->
  starts_no_digit rest -> starts_no_digit s' ->
  In (g, s') (rx_run (Grp (directive_regex dir)) (num p n ++ rest)) ->
  g = [num p n] /\ s' = rest.
Proof.
  intros Hdir Hn R S H.
  destruct (md_group_reads _ _ _ _ Hdir H)
    as [(a' & E & -> & Da') | (a' & b' & E & -> & Da' & Db')];
    destruct (num_shape p n Hn)
      as (_ & [(a & Hs & Da) | (a & b & Hs & Da & Db)]);
    rewrite Hs in E |- *; cbn in E; inversion E; subst; auto.
  - cbn in R. congruence.
  - cbn in S. congruence.
Qed.

Lemma py_int_year y :
  1000 <= y <= 9999 -> py_int (py_str y) = Ok y.
Proof.
  intros H.
  destruct (py_str_4_digits y H)
    as (c1 & c2 & c3 & c4 & -> & D1 & D2 & D3 & D4 & V).
  rewrite py_int_digits; [now rewrite V | discriminate |].
  cbn. now rewrite D1, D2, D3, D4.
Qed.

Lemma year_group_whole y rest g s' :
  1000 <= y <= 9999 ->
  In (g, s') (rx_run (Grp (directive_regex DirY)) (py_str y ++ rest)) ->
  g = [py_str y] /\ s' = rest.
Proof.
  intros Hy H.
  destruct (py_str_4_digits y Hy) as (k1 & k2 & k3 & k4 & E & _).
  rewrite E in *.
  destruct (year_group_reads _ _ _ H) as (c1 & c2 & c3 & c4 & Es & -> & _).
  cbn in Es. inversion Es; subst. auto.
Qed.

Lemma year_group_accepts y rest :
  1000 <= y <= 9999 ->
  In ([py_str y], rest) (rx_run (Grp (directive_regex DirY)) (py_str y ++ rest)).
Proof.
  intros Hy.
  destruct (py_str_4_digits y Hy)
    as (c1 & c2 & c3 & c4 & -> & D1 & D2 & D3 & D4 & _).
  apply in_rx_grp. exists []. split.
  - let r := eval vm_compute in (directive_regex DirY) in
    change (directive_regex DirY) with r.
    cbn [app rx_run cmatch]. rewrite D1.
    cbn [app rx_run cmatch flat_map map]. rewrite D2.
    cbn [app rx_run cmatch flat_map map]. rewrite D3.
    cbn [app rx_run cmatch flat_map map]. rewrite D4.
    cbn. now left.
  - change ([c1; c2; c3; c4] ++ rest) with ([c1; c2; c3; c4] ++ rest).
    now rewrite consumed_app.
Qed.

(** ** A text written year first *)

Lemma digit_free_starts (t : text) :
  (forall c, In c t -> is_digit c = false) -> starts_no_digit t.
Proof.
  intros H. destruct t as [| c t]; cbn; [exact I | apply H; now left].
Qed.

Section YearFirst.
Variables (y m d : Z) (s1 s2 : cp) (pm pd : bool) (trailer : text).
Hypothesis Hy : 1000 <= y <= 9999.
Hypothesis Hm : 0 <= m <= 99.
Hypothesis Hd : 0 <= d <= 99.
Hypothesis Hs2 : is_digit s2 = false.
Hypothesis Htr : forall c, In c trailer -> is_digit c = false.


Lemma year_first_sound a b E gs :
  is_digit b = false ->
  (E = Eps \/ exists e, E = Seq (Chr e) Eps /\ is_digit e = false) ->
  In (gs, [])
     (rx_run (year_first_regex a b E)
             (year_first_text y s1 pm m s2 pd d trailer)) ->
  gs = [py_str y; num pm m; num pd d].
Proof.
  intros Hb HE H. unfold year_first_regex, year_first_text in H.
  apply in_rx_seq in H. destruct H as (g1 & t1 & g1' & H1 & H & ->).
  apply (year_group_whole y _ _ _ Hy) in H1. destruct H1 as [-> ->].
  apply in_rx_seq in H. destruct H as (g2 & t2 & g2' & H2 & H & ->).
  apply in_rx_chr in H2. destruct H2 as [E2 ->]. inversion E2; subst t2.
  apply in_rx_seq in H. destruct H as (g3 & t3 & g3' & H3 & H & ->).
  apply in_rx_seq in H. destruct H as (g4 & t4 & g4' & H4 & H & ->).
  apply in_rx_chr in H4. destruct H4 as [-> ->].
  apply (md_group_whole Dirm) in H3;
    [| discriminate | assumption | exact Hs2 | exact Hb].
  destruct H3 as [-> E3]. inversion E3; subst t4.
  apply in_rx_seq in H. destruct H as (g5 & t5 & g5' & H5 & H & ->).
  assert (S5 : starts_no_digit t5 /\ g5' = []).
  { destruct HE as [-> | (e & -> & He)].
    - apply in_rx_eps in H. destruct H as [<- ->]. split; [exact I | auto].
    - apply in_rx_seq in H. destruct H as (g6 & t6 & g6' & H6 & H & ->).
      apply in_rx_chr in H6. destruct H6 as [-> ->].
      apply in_rx_eps in H. destruct H as [_ ->]. split; [exact He | auto]. }
  destruct S5 as [S5 ->].
  apply (md_group_whole Dird) in H5;
    [| discriminate | assumption | exact (digit_free_starts _ Htr) | exact S5].
  destruct H5 as [-> _]. reflexivity.
Qed.

Lemma strptime_year_first f a b E :
  format_pattern f = Some (year_first_regex a b E, [DirY; Dirm; Dird]) ->
  is_digit b = false ->
  (E = Eps \/ exists e, E = Seq (Chr e) Eps /\ is_digit e = false) ->
  strptime_date (year_first_text y s1 pm m s2 pd d trailer) f
  = Raise ValueError
  \/ strptime_date (year_first_text y s1 pm m s2 pd d trailer) f
     = date_new y m d.
Proof.
  intros F Hb HE. unfold strptime_date. rewrite F.
  destruct (rx_match (year_first_regex a b E)
                     (year_first_text y s1 pm m s2 pd d trailer))
    as [[gs rest] |] eqn:M;
    [| now left].
  destruct rest as [| ? ?]; [| now left].
  apply rx_match_in in M. apply (year_first_sound a b E gs Hb HE) in M.
  subst gs. right. cbn [assign_fields].
  rewrite (py_int_year y Hy). cbn [bind].
  rewrite (proj1 (num_shape pm m Hm)). cbn [bind].
  rewrite (proj1 (num_shape pd d Hd)). reflexivity.
Qed.

Lemma T_starts_with_year :
  exists c1 c2 c3 c4,
    py_str y = [c1; c2; c3; c4]
    /\ year_first_text y s1 pm m s2 pd d trailer
       = c1 :: c2 :: c3 :: c4 :: s1 :: num pm m ++ s2 :: num pd d ++ trailer
    /\ is_digit c1 = true /\ is_digit c2 = true
    /\ is_digit c3 = true /\ is_digit c4 = true.
Proof.
  destruct (py_str_4_digits y Hy)
    as (c1 & c2 & c3 & c4 & E & D1 & D2 & D3 & D4 & _).
  exists c1, c2, c3, c4. unfold year_first_text. rewrite E. auto 10.
Qed.

Lemma strptime_any_format f :
  In f formats ->
  strptime_date (year_first_text y s1 pm m s2 pd d trailer) f
  = Raise ValueError
  \/ strptime_date (year_first_text y s1 pm m s2 pd d trailer) f
     = date_new y m d.
Proof.
  intros Hf.
  destruct T_starts_with_year as (c1 & c2 & c3 & c4 & _ & ET & D1 & D2 & D3 & _).
  assert (Hmd : forall dir sep, fmt_shape f = Some (dir, sep) ->
                  dir <> DirY -> is_digit sep = false ->
                  strptime_date (year_first_text y s1 pm m s2 pd d trailer) f
                  = Raise ValueError).
  { intros dir sep Hs Hdir Hsep.
    destruct (fmt_shape_spec _ _ _ Hs) as (R & ds & F).
    rewrite ET. eapply strptime_month_day_first; eauto. }
  cbn in Hf.
  destruct Hf as [<- | Hf];
    [apply (strptime_year_first _ (ch "-") (ch "-") Eps);
       [reflexivity | reflexivity | now left] |].
  destruct Hf as [<- | Hf];
    [apply (strptime_year_first _ (ch "/") (ch "/") Eps);
       [reflexivity | reflexivity | now left] |].
  destruct Hf as [<- | Hf];
    [apply (strptime_year_first _ (ch ".") (ch ".") Eps);
       [reflexivity | reflexivity | now left] |].
  destruct Hf as [<- | Hf];
    [apply (strptime_year_first _ (ch "年") (ch "月") (Seq (Chr (ch "日")) Eps));
       [reflexivity | reflexivity | right; eexists; split; reflexivity] |].
  repeat (destruct Hf as [<- | Hf];
          [ left; eapply Hmd; [vm_compute; reflexivity | discriminate
                               | vm_compute; reflexivity] | ]).
  destruct Hf.
Qed.

End YearFirst.

(** ** The digit runs of a text *)

Lemma span_digits_run ds rest :
  forallb is_digit ds = true -> starts_no_digit rest ->
  span CDigit None (ds ++ rest) = List.length ds.
Proof.
  intros D R. induction ds as [| c ds IH]; cbn.
  - destruct rest as [| x rest]; [reflexivity|]. cbn in R |- *. now rewrite R.
  - cbn in D. apply andb_true_iff in D. destruct D as [Dc D].
    rewrite Dc. f_equal. now apply IH.
Qed.

Lemma rep_choices_head n :
  (1 <= n)%nat -> exists l, rep_choices 1 n = n :: l.
Proof.
  intros H. unfold rep_choices.
  replace (S n - 1)%nat with (S (n - 1)) by lia.
  rewrite seq_S, rev_app_distr. cbn.
  replace (S (n - 1)) with n by lia. eauto.
Qed.

Lemma findall_from_skip r a rest :
  findall_from r (List.length a) (a ++ rest) = findall_from r 0 rest.
Proof.
  induction a as [| c a IH]; cbn; [reflexivity | exact IH].
Qed.

Lemma findall_digit_run ds rest :
  ds <> [] -> forallb is_digit ds = true -> starts_no_digit rest ->
  findall (Rep CDigit 1 None) (ds ++ rest)
  = FStr ds :: findall (Rep CDigit 1 None) rest.
Proof.
  intros N D R. destruct ds as [| c ds]; [congruence|].
  unfold findall. cbn [app findall_from].
  unfold rx_match. cbn [rx_run].
  change (c :: ds ++ rest) with ((c :: ds) ++ rest).
  rewrite (span_digits_run (c :: ds) rest D R).
  destruct (rep_choices_head (List.length (c :: ds))) as (l & ->);
    [cbn; lia|].
  cbn [map]. unfold item_of. cbn [ngroups snd].
  rewrite skipn_app, skipn_all, Nat.sub_diag. cbn [skipn app].
  change (c :: ds ++ rest) with ((c :: ds) ++ rest).
  rewrite consumed_app.
  rewrite length_app.
  replace (List.length (c :: ds) + List.length rest - List.length rest - 1)%nat
    with (List.length ds) by (cbn [List.length]; lia).
  f_equal. apply findall_from_skip.
Qed.

Lemma findall_skip_no_digit c s :
  is_digit c = false ->
  findall (Rep CDigit 1 None) (c :: s) = findall (Rep CDigit 1 None) s.
Proof.
  intros D. unfold findall. cbn [findall_from].
  unfold rx_match. cbn [rx_run span cmatch]. rewrite D. reflexivity.
Qed.

Lemma findall_skip_label label s :
  (forall c, In c label -> is_digit c = false) ->
  findall (Rep CDigit 1 None) (label ++ s) = findall (Rep CDigit 1 None) s.
Proof.
  induction label as [| c label IH]; intros H; [reflexivity|].
  cbn [app]. rewrite findall_skip_no_digit by (apply H; now left).
  apply IH. intros x Hx. apply H. now right.
Qed.

Lemma findall_digit_free t :
  (forall c, In c t -> is_digit c = false) ->
  findall (Rep CDigit 1 None) t = [].
Proof.
  intros H. rewrite <- (app_nil_r t). now rewrite findall_skip_label.
Qed.

Lemma num_digits p n :
  0 <= n <= 99 ->
  num p n <> [] /\ forallb is_digit (num p n) = true
  /\ (List.length (num p n) <= 2)%nat.
Proof.
  intros H.
  destruct (num_shape p n H) as (_ & [(a & -> & Da) | (a & b & -> & Da & Db)]);
    cbn; rewrite ?Da, ?Db; repeat split; (discriminate || lia || auto).
Qed.

Lemma year_digits y :
  1000 <= y <= 9999 ->
  py_str y <> [] /\ forallb is_digit (py_str y) = true
  /\ List.length (py_str y) = 4%nat.
Proof.
  intros H.
  destruct (py_str_4_digits y H)
    as (c1 & c2 & c3 & c4 & -> & D1 & D2 & D3 & D4 & _).
  cbn. rewrite D1, D2, D3, D4. repeat split; (discriminate || auto).
Qed.

(** The three digit runs of a date written year first, whatever stands
    before it, between its numbers and after it, as long as it holds no
    digit. *)
Lemma findall_year_first label y s1 pm m s2 pd d trailer :
  1000 <= y <= 9999 -> 0 <= m <= 99 -> 0 <= d <= 99 ->
  (forall c, In c label -> is_digit c = false) ->
  is_digit s1 = false -> is_digit s2 = false ->
  (forall c, In c trailer -> is_digit c = false) ->
  findall (Rep CDigit 1 None)
    (label ++ year_first_text y s1 pm m s2 pd d trailer)
  = [FStr (py_str y); FStr (num pm m); FStr (num pd d)].
Proof.
  intros Hy Hm Hd Hl Hs1 Hs2 Ht.
  destruct (year_digits y Hy) as (Ny & Dy & _).
  destruct (num_digits pm m Hm) as (Nm & Dm & _).
  destruct (num_digits pd d Hd) as (Nd & Dd & _).
  rewrite findall_skip_label by assumption.
  unfold year_first_text.
  rewrite findall_digit_run by (assumption || exact Hs1).
  rewrite findall_skip_no_digit by assumption.
  rewrite findall_digit_run by (assumption || exact Hs2).
  rewrite findall_skip_no_digit by assumption.
  rewrite findall_digit_run
    by (assumption || now apply digit_free_starts).
  now rewrite findall_digit_free.
Qed.

Lemma findall_year_last label pa a s1 pb b s2 y :
  1000 <= y <= 9999 -> 0 <= a <= 99 -> 0 <= b <= 99 ->
  (forall c, In c label -> is_digit c = false) ->
  is_digit s1 = false -> is_digit s2 = false ->
  findall (Rep CDigit 1 None) (label ++ year_last_text pa a s1 pb b s2 y)
  = [FStr (num pa a); FStr (num pb b); FStr (py_str y)].
Proof.
  intros Hy Ha Hb Hl Hs1 Hs2.
  destruct (year_digits y Hy) as (Ny & Dy & _).
  destruct (num_digits pa a Ha) as (Na & Da & _).
  destruct (num_digits pb b Hb) as (Nb & Db & _).
  rewrite findall_skip_label by assumption.
  unfold year_last_text.
  rewrite findall_digit_run by (assumption || exact Hs1).
  rewrite findall_skip_no_digit by assumption.
  rewrite findall_digit_run by (assumption || exact Hs2).
  rewrite findall_skip_no_digit by assumption.
  pose proof (findall_digit_run (py_str y) [] Ny Dy I) as F.
  rewrite app_nil_r in F. rewrite F. reflexivity.
Qed.

(** ** The fallback on the three numbers *)

Lemma guess_year_first label y s1 pm m s2 pd d trailer :
  1000 <= y <= 9999 -> 0 <= m <= 99 -> 0 <= d <= 99 ->
  (forall c, In c label -> is_digit c = false) ->
  is_digit s1 = false -> is_digit s2 = false ->
  (forall c, In c trailer -> is_digit c = false) ->
  guess_from_numbers (label ++ year_first_text y s1 pm m s2 pd d trailer)
  = if valid_ymd y m d then Ok (Some (mkdate y m d)) else Ok None.
Proof.
  intros Hy Hm Hd Hl Hs1 Hs2 Ht. unfold guess_from_numbers.
  rewrite findall_year_first by assumption.
  cbn [map fitem_str List.length Nat.leb nth].
  rewrite (proj2 (proj2 (year_digits y Hy))). cbn [Nat.eqb].
  rewrite (py_int_year y Hy). cbn [bind].
  rewrite (proj1 (num_shape pm m Hm)). cbn [bind].
  rewrite (proj1 (num_shape pd d Hd)). cbn [bind].
  unfold date_new. destruct (valid_ymd y m d); reflexivity.
Qed.

Lemma guess_year_last label pa a s1 pb b s2 y :
  1000 <= y <= 9999 -> 0 <= a <= 99 -> 0 <= b <= 99 ->
  (forall c, In c label -> is_digit c = false) ->
  is_digit s1 = false -> is_digit s2 = false ->
  guess_from_numbers (label ++ year_last_text pa a s1 pb b s2 y)
  = if valid_ymd y b a then Ok (Some (mkdate y b a)) else Ok None.
Proof.
  intros Hy Ha Hb Hl Hs1 Hs2. unfold guess_from_numbers.
  rewrite findall_year_last by assumption.
  cbn [map fitem_str List.length Nat.leb nth].
  destruct (num_digits pa a Ha) as (_ & _ & La).
  replace (List.length (num pa a) =? 4)%nat with false
    by (symmetry; apply Nat.eqb_neq; lia).
  rewrite (py_int_year y Hy). cbn [bind].
  rewrite (proj1 (num_shape pb b Hb)). cbn [bind].
  rewrite (proj1 (num_shape pa a Ha)). cbn [bind].
  unfold date_new. destruct (valid_ymd y b a); reflexivity.
Qed.

(** ** The loop over the formats *)

Lemma try_formats_one_value t fmts r :
  (forall f, In f fmts ->
     strptime_date t f = Raise ValueError \/ strptime_date t f = r) ->
  try_formats t fmts = Ok None
  \/ exists x, r = Ok x /\ try_formats t fmts = Ok (Some x).
Proof.
  induction fmts as [| f fmts IH]; intros H; cbn; [now left|].
  destruct (H f (or_introl eq_refl)) as [E | E]; rewrite E.
  - cbn. apply IH. intros g Hg. apply H. now right.
  - destruct r as [x | e]; [right; eauto|].
    destruct (is_ValueError e) eqn:V.
    + apply IH. intros g Hg. apply H. now right.
    + exfalso. apply strptime_date_raise in E. subst e. discriminate.
Qed.

Lemma date_new_cases y m d :
  date_new y m d = if valid_ymd y m d then Ok (mkdate y m d)
                   else Raise ValueError.
Proof. reflexivity. Qed.

(** X11: a date written year first -- a four-digit year, a month and a
    day of one or two digits, with or without leading zero -- is read as
    that year, month and day whatever the two separators are and
    whatever follows the day, as long as these hold no digit:
    [2024-01-15], [2024/1/15], [2024年1月15日], [2024.01.15 生产].  When the
    three numbers are no calendar date the parser raises [ValueError]. *)
Theorem X11_year_first_text_is_read_as_written
    (y m d : Z) (s1 s2 : cp) (pm pd : bool) (trailer : text) :
  1000 <= y <= 9999 -> 0 <= m <= 99 -> 0 <= d <= 99 ->
  sep_char s1 -> sep_char s2 -> no_digit trailer ->
  parse_date (year_first_text y s1 pm m s2 pd d trailer)
  = if valid_ymd y m d then Ok (mkdate y m d) else Raise ValueError.
Proof.
  intros Hy Hm Hd [Hs1 _] [Hs2 _] Ht.
  assert (Ht' : forall c, In c trailer -> is_digit c = false)
    by (intros c Hc; apply (Ht c Hc)).
  unfold parse_date.
  destruct (try_formats_one_value
              (year_first_text y s1 pm m s2 pd d trailer) formats
              (date_new y m d)
              (fun f Hf => strptime_any_format y m d s1 s2 pm pd trailer
                             Hy Hm Hd Hs2 Ht' f Hf))
    as [E | (x & Ex & E)]; rewrite E; cbn [bind].
  - pose proof (guess_year_first [] y s1 pm m s2 pd d trailer Hy Hm Hd
                  ltac:(intros ? []) Hs1 Hs2 Ht') as G.
    cbn [app] in G. rewrite G.
    destruct (valid_ymd y m d); reflexivity.
  - rewrite date_new_cases in Ex.
    destruct (valid_ymd y m d); congruence.
Qed.

Lemma X11_year_first_text_is_read_as_written_witness :
  parse_date (u "2024年1月15日") = Ok (mkdate 2024 1 15).
Proof.
  refine (X11_year_first_text_is_read_as_written
            2024 1 15 (ch "年") (ch "月") false false (u "日") _ _ _ _ _ _);
    try lia; try (split; reflexivity).
  intros c [<- | []]. split; reflexivity.
Defined.

(** ** A text written year last *)

Lemma try_formats_app t l1 l2 :
  try_formats t (l1 ++ l2)
  = match try_formats t l1 with
    | Ok None => try_formats t l2
    | r => r
    end.
Proof.
  induction l1 as [| f l1 IH]; cbn; [reflexivity|].
  destruct (strptime_date t f) as [x | e]; [reflexivity|].
  destruct (is_ValueError e); [exact IH | reflexivity].
Qed.

Lemma try_formats_none t fmts f :
  try_formats t fmts = Ok None -> In f fmts ->
  strptime_date t f = Raise ValueError.
Proof.
  induction fmts as [| g fmts IH]; cbn; [contradiction|].
  intros H Hf.
  destruct (strptime_date t g) as [x | e] eqn:E; [discriminate|].
  pose proof (strptime_date_raise _ _ _ E) as ->.
  destruct Hf as [<- | Hf]; [exact E | now apply IH].
Qed.

Lemma formats_split :
  formats = year_first_formats ++ day_first_formats ++ month_first_formats.
Proof. reflexivity. Qed.

Section YearLast.
Variables (y a b : Z) (s1 s2 : cp) (pa pb : bool).
Hypothesis Hy : 1000 <= y <= 9999.
Hypothesis Ha : 0 <= a <= 99.
Hypothesis Hb : 0 <= b <= 99.
Hypothesis Hs1 : is_digit s1 = false.
Hypothesis Hs2 : is_digit s2 = false.


(** The formats that start with the year find no four digits. *)
Lemma year_first_format_fails f sep :
  fmt_shape f = Some (DirY, sep) ->
  strptime_date (year_last_text pa a s1 pb b s2 y) f = Raise ValueError.
Proof using All.
  intros Hs. destruct (fmt_shape_spec _ _ _ Hs) as (R & ds & F).
  unfold strptime_date. rewrite F. unfold rx_match.
  rewrite (no_match_is_nil (rx_run _ _)); [reflexivity|].
  intros [g s'] H.
  apply in_rx_seq in H. destruct H as (g1 & t1 & g2 & H1 & _ & _).
  destruct (year_group_reads _ _ _ H1)
    as (c1 & c2 & c3 & c4 & E & _ & D1 & D2 & D3 & D4).
  unfold year_last_text in E.
  destruct (num_shape pa a Ha) as (_ & [(x & Ex & _) | (x & z & Ex & _)]);
    rewrite Ex in E; cbn in E; inversion E; congruence.
Qed.

Lemma year_last_sound d1 d2 f gs rest :
  d1 <> DirY -> d2 <> DirY -> is_digit f = false ->
  In (gs, rest)
     (rx_run (year_last_regex d1 d2 f) (year_last_text pa a s1 pb b s2 y)) ->
  gs = [num pa a; num pb b; py_str y] /\ rest = [] /\ s1 = f /\ s2 = f.
Proof using All.
  intros N1 N2 Hf H. unfold year_last_regex, year_last_text in H.
  apply in_rx_seq in H. destruct H as (g1 & t1 & g1' & H1 & H & ->).
  apply in_rx_seq in H. destruct H as (g2 & t2 & g2' & H2 & H & ->).
  apply in_rx_chr in H2. destruct H2 as [-> ->].
  apply (md_group_whole d1) in H1;
    [| assumption | assumption | exact Hs1 | exact Hf].
  destruct H1 as [-> E1]. inversion E1; subst.
  apply in_rx_seq in H. destruct H as (g3 & t3 & g3' & H3 & H & ->).
  apply in_rx_seq in H. destruct H as (g4 & t4 & g4' & H4 & H & ->).
  apply in_rx_chr in H4. destruct H4 as [-> ->].
  apply (md_group_whole d2) in H3;
    [| assumption | assumption | exact Hs2 | exact Hs1].
  destruct H3 as [-> E3]. inversion E3; subst.
  apply in_rx_seq in H. destruct H as (g5 & t5 & g5' & H5 & H & ->).
  apply in_rx_eps in H. destruct H as [-> ->].
  rewrite <- (app_nil_r (py_str y)) in H5.
  apply (year_group_whole y _ _ _ Hy) in H5. destruct H5 as [-> ->].
  auto.
Qed.

Lemma year_last_complete d1 h1 d2 h2 f :
  (d1 = Dirm /\ h1 = 12) \/ (d1 = Dird /\ h1 = 31) ->
  (d2 = Dirm /\ h2 = 12) \/ (d2 = Dird /\ h2 = 31) ->
  1 <= a <= h1 -> 1 <= b <= h2 -> s1 = f -> s2 = f ->
  In ([num pa a; num pb b; py_str y], [])
     (rx_run (year_last_regex d1 d2 f)
             (year_last_text pa a s1 pb b s2 y)).
Proof using All.
  intros K1 K2 R1 R2 E1 E2. unfold year_last_regex, year_last_text.
  rewrite E2, <- E1. clear E1 E2.
  apply in_rx_seq. exists [num pa a], (s1 :: num pb b ++ s1 :: py_str y),
                          [num pb b; py_str y].
  split; [now apply (md_group_accepts d1 h1)|]. split; [| reflexivity].
  apply in_rx_seq. exists [], (num pb b ++ s1 :: py_str y),
                          [num pb b; py_str y].
  split; [now apply in_rx_chr|]. split; [| reflexivity].
  apply in_rx_seq. exists [num pb b], (s1 :: py_str y), [py_str y].
  split; [now apply (md_group_accepts d2 h2)|]. split; [| reflexivity].
  apply in_rx_seq. exists [], (py_str y), [py_str y].
  split; [now apply in_rx_chr|]. split; [| reflexivity].
  apply in_rx_seq. exists [py_str y], [], [].
  split.
  - pose proof (year_group_accepts y [] Hy) as G.
    now rewrite app_nil_r in G.
  - split; [now apply in_rx_eps | reflexivity].
Qed.

Lemma strptime_year_last fmt d1 d2 f ds :
  format_pattern fmt = Some (year_last_regex d1 d2 f, ds) ->
  d1 <> DirY -> d2 <> DirY -> is_digit f = false ->
  strptime_date (year_last_text pa a s1 pb b s2 y) fmt = Raise ValueError
  \/ (s1 = f /\ s2 = f
      /\ strptime_date (year_last_text pa a s1 pb b s2 y) fmt
         = date_of_groups ds [num pa a; num pb b; py_str y]).
Proof using All.
  intros F N1 N2 Hf. unfold strptime_date. rewrite F.
  destruct (rx_match (year_last_regex d1 d2 f)
                     (year_last_text pa a s1 pb b s2 y))
    as [[gs rest] |] eqn:M;
    [| now left].
  apply rx_match_in in M.
  apply (year_last_sound d1 d2 f gs rest N1 N2 Hf) in M.
  destruct M as (-> & -> & E1 & E2). right. auto.
Qed.

Lemma strptime_year_last_match fmt d1 h1 d2 h2 f ds :
  format_pattern fmt = Some (year_last_regex d1 d2 f, ds) ->
  (d1 = Dirm /\ h1 = 12) \/ (d1 = Dird /\ h1 = 31) ->
  (d2 = Dirm /\ h2 = 12) \/ (d2 = Dird /\ h2 = 31) ->
  is_digit f = false ->
  1 <= a <= h1 -> 1 <= b <= h2 -> s1 = f -> s2 = f ->
  strptime_date (year_last_text pa a s1 pb b s2 y) fmt
  = date_of_groups ds [num pa a; num pb b; py_str y].
Proof using All.
  intros F K1 K2 Hf R1 R2 E1 E2.
  assert (N1 : d1 <> DirY) by (destruct K1 as [[-> _] | [-> _]]; discriminate).
  assert (N2 : d2 <> DirY) by (destruct K2 as [[-> _] | [-> _]]; discriminate).
  pose proof (year_last_complete d1 h1 d2 h2 f K1 K2 R1 R2 E1 E2) as C.
  unfold strptime_date. rewrite F. unfold rx_match.
  destruct (rx_run (year_last_regex d1 d2 f)
                   (year_last_text pa a s1 pb b s2 y))
    as [| [gs rest] l] eqn:R;
    [destruct C|].
  assert (M : In (gs, rest)
                 (rx_run (year_last_regex d1 d2 f)
                         (year_last_text pa a s1 pb b s2 y)))
    by (rewrite R; now left).
  apply (year_last_sound d1 d2 f gs rest N1 N2 Hf) in M.
  destruct M as (-> & -> & _). reflexivity.
Qed.

Lemma day_first_groups :
  date_of_groups [Dird; Dirm; DirY] [num pa a; num pb b; py_str y]
  = date_new y b a.
Proof using All.
  unfold date_of_groups. cbn [assign_fields].
  rewrite (proj1 (num_shape pa a Ha)). cbn [bind].
  rewrite (proj1 (num_shape pb b Hb)). cbn [bind].
  rewrite (py_int_year y Hy). reflexivity.
Qed.

Lemma month_first_groups :
  date_of_groups [Dirm; Dird; DirY] [num pa a; num pb b; py_str y]
  = date_new y a b.
Proof using All.
  unfold date_of_groups. cbn [assign_fields].
  rewrite (proj1 (num_shape pa a Ha)). cbn [bind].
  rewrite (proj1 (num_shape pb b Hb)). cbn [bind].
  rewrite (py_int_year y Hy). reflexivity.
Qed.

End YearLast.

Lemma year_first_formats_shape f :
  In f year_first_formats -> exists sep, fmt_shape f = Some (DirY, sep).
Proof.
  intros H. cbn in H.
  repeat (destruct H as [<- | H]; [eexists; vm_compute; reflexivity|]).
  destruct H.
Qed.

Lemma day_first_formats_shape f :
  In f day_first_formats ->
  exists sep,
    format_pattern f
    = Some (year_last_regex Dird Dirm sep, [Dird; Dirm; DirY])
    /\ is_digit sep = false /\ format_seps sep sep = true.
Proof.
  intros H. cbn in H.
  repeat (destruct H as [<- | H];
          [eexists; split; [reflexivity | split; reflexivity]|]).
  destruct H.
Qed.

Lemma month_first_formats_shape f :
  In f month_first_formats ->
  exists sep,
    format_pattern f
    = Some (year_last_regex Dirm Dird sep, [Dirm; Dird; DirY])
    /\ is_digit sep = false /\ format_seps sep sep = true.
Proof.
  intros H. cbn in H.
  repeat (destruct H as [<- | H];
          [eexists; split; [reflexivity | split; reflexivity]|]).
  destruct H.
Qed.

Lemma format_seps_formats s1 s2 :
  format_seps s1 s2 = true ->
  s2 = s1
  /\ (exists f, In f day_first_formats
        /\ format_pattern f
           = Some (year_last_regex Dird Dirm s1, [Dird; Dirm; DirY]))
  /\ (exists f, In f month_first_formats
        /\ format_pattern f
           = Some (year_last_regex Dirm Dird s1, [Dirm; Dird; DirY])).
Proof.
  unfold format_seps. intros H.
  apply andb_true_iff in H. destruct H as [E H].
  apply N.eqb_eq in E. subst s2. split; [reflexivity|].
  apply orb_true_iff in H. destruct H as [H | H];
    [apply orb_true_iff in H; destruct H as [H | H]|];
    apply N.eqb_eq in H; subst s1; split.
  - exists (u "%d-%m-%Y"). split; [cbn; tauto | reflexivity].
  - exists (u "%m-%d-%Y"). split; [cbn; tauto | reflexivity].
  - exists (u "%d/%m/%Y"). split; [cbn; tauto | reflexivity].
  - exists (u "%m/%d/%Y"). split; [cbn; tauto | reflexivity].
  - exists (u "%d.%m.%Y"). split; [cbn; tauto | reflexivity].
  - exists (u "%m.%d.%Y"). split; [cbn; tauto | reflexivity].
Qed.

Lemma is_digit_sep_of_format s :
  format_seps s s = true -> is_digit s = false.
Proof.
  unfold format_seps. intros H.
  apply andb_true_iff in H. destruct H as [_ H].
  apply orb_true_iff in H. destruct H as [H | H];
    [apply orb_true_iff in H; destruct H as [H | H]|];
    apply N.eqb_eq in H; subst s; reflexivity.
Qed.

(** The formats of one reading (day first, or month first) on a text
    written year last: they give the date of this reading when it is a
    calendar date and the two separators are those of one of them, and
    fail otherwise. *)
Lemma try_year_last_formats y a b s1 s2 pa pb fmts d1 h1 d2 h2 ds r :
  1000 <= y <= 9999 -> 0 <= a <= 99 -> 0 <= b <= 99 ->
  is_digit s1 = false -> is_digit s2 = false ->
  (d1 = Dirm /\ h1 = 12) \/ (d1 = Dird /\ h1 = 31) ->
  (d2 = Dirm /\ h2 = 12) \/ (d2 = Dird /\ h2 = 31) ->
  date_of_groups ds [num pa a; num pb b; py_str y] = r ->
  (forall x, r = Ok x -> 1 <= a <= h1 /\ 1 <= b <= h2) ->
  (forall f, In f fmts ->
     exists sep, format_pattern f = Some (year_last_regex d1 d2 sep, ds)
                 /\ is_digit sep = false /\ format_seps sep sep = true) ->
  (format_seps s1 s2 = true ->
   exists f, In f fmts
             /\ format_pattern f = Some (year_last_regex d1 d2 s1, ds)) ->
  try_formats (year_last_text pa a s1 pb b s2 y) fmts
  = match r with
    | Ok x => if format_seps s1 s2 then Ok (Some x) else Ok None
    | Raise _ => Ok None
    end.
Proof.
  intros Hy Ha Hb Hs1 Hs2 K1 K2 Hr Hrange Hall Hex.
  assert (N1 : d1 <> DirY) by (destruct K1 as [[-> _] | [-> _]]; discriminate).
  assert (N2 : d2 <> DirY) by (destruct K2 as [[-> _] | [-> _]]; discriminate).
  set (T := year_last_text pa a s1 pb b s2 y).
  assert (Each : forall f, In f fmts ->
            strptime_date T f = Raise ValueError
            \/ (format_seps s1 s2 = true /\ strptime_date T f = r)).
  { intros f Hf. destruct (Hall f Hf) as (sep & F & Dsep & Fs).
    destruct (strptime_year_last y a b s1 s2 pa pb Hy Ha Hb Hs1 Hs2
                f d1 d2 sep ds F N1 N2 Dsep) as [E | (E1 & E2 & E)];
      [now left | right]. subst s1 s2. split; [exact Fs | now rewrite <- Hr]. }
  destruct r as [x | e].
  - destruct (format_seps s1 s2) eqn:C.
    + destruct (try_formats_one_value T fmts (Ok x)) as [E | (z & Ez & E)].
      * intros f Hf. destruct (Each f Hf) as [E | [_ E]]; auto.
      * exfalso.
        destruct (Hex eq_refl) as (f & Hf & F).
        destruct (format_seps_formats _ _ C) as (E2 & _).
        destruct (Hrange x eq_refl) as [R1 R2].
        pose proof (strptime_year_last_match y a b s1 s2 pa pb Hy Ha Hb
                      Hs1 Hs2 f d1 h1 d2 h2 s1 ds F K1 K2 Hs1
                      R1 R2 eq_refl E2) as M.
        rewrite Hr in M. fold T in M.
        rewrite (try_formats_none _ _ _ E Hf) in M. discriminate.
      * inversion Ez; subst. exact E.
    + apply try_formats_all_fail. intros f Hf.
      destruct (Each f Hf) as [E | [? _]]; [exact E | discriminate].
  - destruct (try_formats_one_value T fmts (Raise e)) as [E | (z & Ez & E)].
    + intros f Hf. destruct (Each f Hf) as [E | [_ E]]; auto.
    + exact E.
    + discriminate.
Qed.

Lemma date_new_ranges y m d x :
  date_new y m d = Ok x -> 1 <= d <= 31 /\ 1 <= m <= 12.
Proof.
  rewrite date_new_cases. destruct (valid_ymd y m d) eqn:V; [| discriminate].
  intros _. apply valid_ymd_ranges in V.
  repeat (apply andb_true_iff in V; destruct V as [V ?]).
  repeat match goal with
         | H : (_ <=? _) = true |- _ => apply Z.leb_le in H
         end.
  lia.
Qed.

(** X12: a date written year last -- two numbers of one or two digits,
    then a four-digit year -- is read day first whenever that is a
    calendar date: [01/02/2024] is the first of February.  It is read
    month first only when the day-first reading is no date, the
    month-first one is, and the two separators are the same one of [-],
    [/] and [.]: [12/25/2024] is the 25th of December, [12 25 2024] is
    refused.  Otherwise the parser raises [ValueError]. *)
Theorem X12_year_last_text_is_read_day_first
    (y a b : Z) (s1 s2 : cp) (pa pb : bool) :
  1000 <= y <= 9999 -> 0 <= a <= 99 -> 0 <= b <= 99 ->
  sep_char s1 -> sep_char s2 ->
  parse_date (year_last_text pa a s1 pb b s2 y)
  = if valid_ymd y b a then Ok (mkdate y b a)
    else if format_seps s1 s2 && valid_ymd y a b then Ok (mkdate y a b)
    else Raise ValueError.
Proof.
  intros Hy Ha Hb [Hs1 _] [Hs2 _].
  unfold parse_date. rewrite formats_split, !try_formats_app.
  rewrite (try_formats_all_fail _ year_first_formats).
  2:{ intros f Hf. destruct (year_first_formats_shape f Hf) as (sep & S).
      exact (year_first_format_fails y a b s1 s2 pa pb Hy Ha Hb Hs1 Hs2 f sep S). }
  rewrite (try_year_last_formats y a b s1 s2 pa pb day_first_formats
             Dird 31 Dirm 12 [Dird; Dirm; DirY] (date_new y b a)
             Hy Ha Hb Hs1 Hs2 (or_intror (conj eq_refl eq_refl))
             (or_introl (conj eq_refl eq_refl))
             (day_first_groups y a b s1 s2 pa pb Hy Ha Hb Hs1 Hs2)
             (fun x => date_new_ranges y b a x)
             day_first_formats_shape
             (fun C => proj1 (proj2 (format_seps_formats s1 s2 C)))).
  rewrite (try_year_last_formats y a b s1 s2 pa pb month_first_formats
             Dirm 12 Dird 31 [Dirm; Dird; DirY] (date_new y a b)
             Hy Ha Hb Hs1 Hs2 (or_introl (conj eq_refl eq_refl))
             (or_intror (conj eq_refl eq_refl))
             (month_first_groups y a b s1 s2 pa pb Hy Ha Hb Hs1 Hs2)
             (fun x E => match date_new_ranges y a b x E with
                         | conj A B => conj B A
                         end)
             month_first_formats_shape
             (fun C => proj2 (proj2 (format_seps_formats s1 s2 C)))).
  pose proof (guess_year_last [] pa a s1 pb b s2 y Hy Ha Hb
                ltac:(intros ? []) Hs1 Hs2) as G.
  cbn [app] in G.
  rewrite !date_new_cases.
  destruct (valid_ymd y b a) eqn:V1.
  - destruct (format_seps s1 s2); cbn [bind]; [reflexivity|].
    destruct (valid_ymd y a b); cbn [bind]; rewrite G; reflexivity.
  - destruct (valid_ymd y a b) eqn:V2; cbn [bind andb].
    + destruct (format_seps s1 s2); cbn [bind]; [reflexivity|].
      rewrite G. reflexivity.
    + rewrite andb_false_r. rewrite G. reflexivity.
Qed.

Lemma X12_year_last_text_is_read_day_first_witness :
  parse_date (u "01/02/2024") = Ok (mkdate 2024 2 1)
  /\ parse_date (u "12/25/2024") = Ok (mkdate 2024 12 25).
Proof.
  split.
  - refine (X12_year_last_text_is_read_day_first
              2024 1 2 (ch "/") (ch "/") true true _ _ _ _ _);
      try lia; split; reflexivity.
  - refine (X12_year_last_text_is_read_day_first
              2024 12 25 (ch "/") (ch "/") true true _ _ _ _ _);
      try lia; split; reflexivity.
Defined.

(** ** A date behind a label *)

Lemma formats_shape f :
  In f formats -> exists dir sep, fmt_shape f = Some (dir, sep).
Proof.
  intros H. cbn in H.
  repeat (destruct H as [<- | H]; [do 2 eexists; vm_compute; reflexivity|]).
  destruct H.
Qed.

(** No format matches a text that starts with a character other than a
    digit and a blank. *)
Lemma strptime_label_fails f c rest :
  In f formats -> is_digit c = false -> c <> 32%N ->
  strptime_date (c :: rest) f = Raise ValueError.
Proof.
  intros Hf D B.
  destruct (formats_shape f Hf) as (dir & sep & S).
  destruct (fmt_shape_spec _ _ _ S) as (R & ds & F).
  unfold strptime_date. rewrite F. unfold rx_match.
  rewrite (no_match_is_nil (rx_run _ _)); [reflexivity|].
  intros [g s'] H.
  apply in_rx_seq in H. destruct H as (g1 & t1 & g2 & H1 & _ & _).
  destruct dir.
  - destruct (year_group_reads _ _ _ H1) as (c1 & c2 & c3 & c4 & E & _ & D1 & _).
    inversion E; congruence.
  - destruct (md_group_reads Dirm _ _ _ ltac:(discriminate) H1)
      as [(x & E & _ & Dx) | (x & z & E & _ & [Dx | Dx] & _)];
      inversion E; congruence.
  - destruct (md_group_reads Dird _ _ _ ltac:(discriminate) H1)
      as [(x & E & _ & Dx) | (x & z & E & _ & [Dx | Dx] & _)];
      inversion E; congruence.
Qed.

(** X13: behind a label -- a text without digits that does not start
    with a blank, as [生产日期:] -- no format applies and the date is taken
    from the first three numbers of the text.  Written year first it is
    read as written; written year last it is read day first only: the
    month-first reading that [12/25/2024] gets on its own is lost behind
    a label, where the parser raises [ValueError]. *)
Theorem X13_date_behind_a_label
    (label : text) (y a b : Z) (s1 s2 : cp) (pa pb : bool) (trailer : text) :
  is_label label ->
  1000 <= y <= 9999 -> 0 <= a <= 99 -> 0 <= b <= 99 ->
  sep_char s1 -> sep_char s2 -> no_digit trailer ->
  parse_date (label ++ year_first_text y s1 pa a s2 pb b trailer)
  = (if valid_ymd y a b then Ok (mkdate y a b) else Raise ValueError)
  /\ parse_date (label ++ year_last_text pa a s1 pb b s2 y)
     = (if valid_ymd y b a then Ok (mkdate y b a) else Raise ValueError).
Proof.
  intros [Hl (c & rest & -> & Hc)] Hy Ha Hb [Hs1 _] [Hs2 _] Ht.
  assert (Hl' : forall x, In x (c :: rest) -> is_digit x = false)
    by (intros x Hx; apply (Hl x Hx)).
  assert (Ht' : forall x, In x trailer -> is_digit x = false)
    by (intros x Hx; apply (Ht x Hx)).
  assert (F : forall t, try_formats ((c :: rest) ++ t) formats = Ok None).
  { intros t. apply try_formats_all_fail. intros f Hf.
    apply strptime_label_fails; [exact Hf | apply Hl'; now left | exact Hc]. }
  unfold parse_date. rewrite !F. cbn [bind].
  rewrite (guess_year_first (c :: rest) y s1 pa a s2 pb b trailer)
    by assumption.
  rewrite (guess_year_last (c :: rest) pa a s1 pb b s2 y) by assumption.
  split.
  - destruct (valid_ymd y a b); reflexivity.
  - destruct (valid_ymd y b a); reflexivity.
Qed.

Lemma X13_date_behind_a_label_witness :
  parse_date (u "EXP:" ++ u "2024/12/25") = Ok (mkdate 2024 12 25)
  /\ parse_date (u "EXP:" ++ u "12/25/2024") = Raise ValueError.
Proof.
  refine (X13_date_behind_a_label (u "EXP:") 2024 12 25 (ch "/") (ch "/")
            true true [] _ _ _ _ _ _ _);
    try lia; try (split; reflexivity).
  - split.
    + intros c Hc. vm_compute in Hc.
      repeat (destruct Hc as [<- | Hc]; [split; reflexivity|]). destruct Hc.
    + do 2 eexists. split; [reflexivity | discriminate].
  - intros c [].
Defined.

(* ================================================================== *)
(** * The callers: scan screen, record store, server *)

Lemma valid_date_fields p :
  valid_date p = true ->
  0 <= month p <= 99 /\ 0 <= day p <= 99
  /\ valid_ymd (year p) (month p) (day p) = true
  /\ mkdate (year p) (month p) (day p) = p.
Proof.
  intros V. pose proof (proj1 (valid_date_iff p) V) as (Hy & Hm & Hd).
  pose proof (days_in_month_le_31 (year p) (month p)).
  destruct p; cbn in *. repeat split; try lia. exact V.
Qed.

Lemma parse_date_strftime p :
  valid_date p = true -> 1000 <= year p ->
  parse_date (strftime_ymd p) = Ok p.
Proof.
  intros V Hy. destruct (valid_date_fields p V) as (Hm & Hd & V' & E).
  pose proof (proj1 (valid_date_iff p) V) as (Hy' & _).
  unfold strftime_ymd. rewrite parse_date_iso by lia. now rewrite V', E.
Qed.

Lemma strptime_strftime p :
  valid_date p = true -> 1000 <= year p ->
  strptime_date (strftime_ymd p) (u "%Y-%m-%d") = Ok p.
Proof.
  intros V Hy. destruct (valid_date_fields p V) as (Hm & Hd & V' & E).
  pose proof (proj1 (valid_date_iff p) V) as (Hy' & _).
  unfold strftime_ymd. rewrite strptime_iso by lia. now rewrite V', E.
Qed.

Lemma timedelta_days_in_range p k :
  valid_date p = true -> in_date_range (toordinal p + k) ->
  timedelta_days k = Ok k.
Proof.
  intros V R. pose proof (toordinal_bounds p V) as B.
  unfold in_date_range, _MAXORDINAL in *. unfold timedelta_days.
  replace (Z.abs k <=? 999999999) with true; [reflexivity|].
  symmetry. apply Z.leb_le. lia.
Qed.

(** X14: the scan callback never lets an exception out: it ends either
    with the record to save or with the request for manual input.  With
    the object [main.py] gives it, an instance of [DateRecognizer], the
    lookup of [parse_date] fails, so every call ends with the request for
    manual input, whatever the text, the product and the day. *)
Theorem X14_scan_callback_ends_in_manual_input
    (c : ocr_class) (today : date) (info : option Z) (t : text) :
  (exists o, on_date_recognized c today info t = Ok o)
  /\ on_date_recognized main_OCRProcessor today info t
     = Ok (ManualInput AttributeError).
Proof.
  split; [| reflexivity].
  unfold on_date_recognized.
  destruct c; cbn; [eauto|].
  destruct (parse_date t) as [p | e] eqn:P; cbn.
  2:{ apply parse_date_raise in P. subst e. cbn. eauto. }
  destruct info as [k |]; cbn; [| eauto].
  unfold timedelta_days. destruct (Z.abs k <=? 999999999); cbn; [| eauto].
  unfold date_add. destruct (_ && _); cbn; eauto.
Qed.

(** X15: with a processor that has [parse_date], the callback composes
    parser and day arithmetic: on the ISO text of a valid production
    date (four-digit year) and a product of shelf life [k] days it saves
    that production date, the date [k] calendar days later and the signed
    distance from today to it; a shelf life of 0 or a negative one is
    taken as it stands (no default of 180 days here): 0 gives an expiry
    equal to the production date. *)
Theorem X15_scan_callback_saves_production_plus_shelf_life
    (today p : date) (k : Z) :
  valid_date p = true -> 1000 <= year p ->
  in_date_range (toordinal p + k) ->
  exists e,
    on_date_recognized ClsOCRProcessor today (Some k) (strftime_ymd p)
    = Ok (Saved p e (toordinal p + k - toordinal today))
    /\ valid_date e = true
    /\ toordinal e = toordinal p + k
    /\ (k = 0 -> e = p)
    /\ (k < 0 -> date_ltb e p = true).
Proof.
  intros V Hy R.
  destruct (proj1 (date_add_spec p k V) R) as (e & A & Ve & Oe).
  exists e. unfold on_date_recognized. cbn [getattr_parse_date bind].
  rewrite (parse_date_strftime p V Hy). cbn [bind shelf_life_of].
  rewrite (timedelta_days_in_range p k V R). cbn [bind].
  rewrite A. cbn [bind try_except]. rewrite Oe.
  repeat split; auto.
  - intros ->. apply toordinal_inj; auto. lia.
  - intros Hk. apply toordinal_lt_ltb; auto. lia.
Qed.

Lemma X15_scan_callback_saves_production_plus_shelf_life_witness :
  exists e,
    on_date_recognized ClsOCRProcessor (mkdate 2024 3 1) (Some 30)
      (u "2024-01-15")
    = Ok (Saved (mkdate 2024 1 15) e (-16))
    /\ toordinal e = toordinal (mkdate 2024 2 14).
Proof.
  destruct (X15_scan_callback_saves_production_plus_shelf_life
              (mkdate 2024 3 1) (mkdate 2024 1 15) 30)
    as (e & H & _ & O & _).
  - reflexivity.
  - cbn. lia.
  - unfold in_date_range. vm_compute. split; discriminate.
  - exists e. split; [exact H | exact O].
Defined.

(** X16: what sends the callback to manual input when the processor has
    [parse_date]: the exception of the parser, handed on as it is; an
    unknown product ([None] is not subscriptable); an expiry outside
    0001-01-01 .. 9999-12-31. *)
Theorem X16_scan_callback_failures
    (today p : date) (info : option Z) (k : Z) (t : text) (e : exn) :
  (parse_date t = Raise e ->
   on_date_recognized ClsOCRProcessor today info t = Ok (ManualInput e))
  /\ (parse_date t = Ok p ->
      on_date_recognized ClsOCRProcessor today None t
      = Ok (ManualInput TypeError))
  /\ (parse_date t = Ok p -> ~ in_date_range (toordinal p + k) ->
      on_date_recognized ClsOCRProcessor today (Some k) t
      = Ok (ManualInput OverflowError)).
Proof.
  unfold on_date_recognized. cbn [getattr_parse_date bind]. repeat split.
  - intros P. rewrite P. apply parse_date_raise in P. subst e. reflexivity.
  - intros P. rewrite P. reflexivity.
  - intros P R. rewrite P. cbn [bind shelf_life_of].
    pose proof (parse_date_valid _ _ P) as V.
    unfold timedelta_days.
    destruct (Z.abs k <=? 999999999) eqn:A; cbn [bind try_except];
      [| reflexivity].
    rewrite (proj2 (date_add_spec p k V) R). reflexivity.
Qed.

Lemma X16_scan_callback_failures_witness :
  on_date_recognized ClsOCRProcessor (mkdate 2024 3 1) (Some 30)
    (u "9999-12-15")
  = Ok (ManualInput OverflowError).
Proof.
  refine (proj2 (proj2 (X16_scan_callback_failures (mkdate 2024 3 1)
            (mkdate 9999 12 15) (Some 30) 30 (u "9999-12-15") ValueError))
            _ _).
  - vm_compute. reflexivity.
  - unfold in_date_range. vm_compute. intros [_ H]. apply H. reflexivity.
Defined.

(** ** The dates of a stored record *)

Lemma iso_text_not_nil y m d : is_nil (iso_text y m d) = false.
Proof. unfold iso_text. destruct (py_str y); reflexivity. Qed.

Lemma normalize_date_of_date v d :
  date_part v = Some d -> normalize_date v = Ok (VStr (strftime_ymd d)).
Proof.
  destruct v; intros H; try discriminate H; inversion H; subst; reflexivity.
Qed.

(** X17: a record given its dates as [date] or [datetime] objects stores
    their ISO texts, and when no remaining days come with it, it reads
    the expiry text back and stores the signed distance in days from
    today to the expiry (four-digit years); a count that comes with the
    record is stored as it is. *)
Theorem X17_record_of_date_objects
    (today p e : date) (pv ev : pyval) (given : option Z) :
  date_part pv = Some p -> date_part ev = Some e ->
  valid_date p = true -> 1000 <= year p ->
  valid_date e = true -> 1000 <= year e ->
  record_dates today pv ev given
  = Ok (VStr (strftime_ymd p), VStr (strftime_ymd e),
        Some match given with
             | Some n => n
             | None => toordinal e - toordinal today
             end).
Proof.
  intros Hp He _ _ V Y. unfold record_dates.
  rewrite (normalize_date_of_date _ _ Hp), (normalize_date_of_date _ _ He).
  cbn [bind]. do 2 f_equal.
  unfold stored_days_remaining. destruct given as [n |]; [reflexivity|].
  cbn [truthy_val]. unfold strftime_ymd at 1. rewrite iso_text_not_nil.
  cbn [negb]. unfold remaining_body.
  rewrite (strptime_strftime e V Y). reflexivity.
Qed.

Lemma X17_record_of_date_objects_witness :
  record_dates (mkdate 2024 3 1) (VDate (mkdate 2024 1 15))
    (VDatetime (mkdate 2024 2 14) (mktime 10 30 0 0)) None
  = Ok (VStr (u "2024-01-15"), VStr (u "2024-02-14"), Some (-16)).
Proof.
  apply (X17_record_of_date_objects (mkdate 2024 3 1) (mkdate 2024 1 15)
           (mkdate 2024 2 14) (VDate (mkdate 2024 1 15))
           (VDatetime (mkdate 2024 2 14) (mktime 10 30 0 0)) None);
    try reflexivity; cbn; lia.
Defined.

Lemma lstrip_ws_nil s : lstrip_ws s = [] <-> forallb is_whitespace s = true.
Proof.
  induction s as [| c s IH]; cbn; [tauto|].
  destruct (is_whitespace c); cbn; [exact IH|].
  split; discriminate.
Qed.

Lemma lstrip_ws_head s c r : lstrip_ws s = c :: r -> is_whitespace c = false.
Proof.
  induction s as [| x s IH]; cbn; [discriminate|].
  destruct (is_whitespace x) eqn:E; [exact IH|].
  intros H. inversion H; subst. exact E.
Qed.

Lemma forallb_rev_ws s :
  forallb is_whitespace (rev s) = forallb is_whitespace s.
Proof.
  induction s as [| c s IH]; cbn; [reflexivity|].
  rewrite forallb_app, IH. cbn. rewrite andb_true_r. apply andb_comm.
Qed.

Lemma strip_ws_nil s : is_nil (strip_ws s) = forallb is_whitespace s.
Proof.
  unfold strip_ws.
  destruct (forallb is_whitespace s) eqn:F.
  - apply lstrip_ws_nil in F. rewrite F. reflexivity.
  - destruct (lstrip_ws s) as [| c r] eqn:L.
    + apply lstrip_ws_nil in L. congruence.
    + pose proof (lstrip_ws_head _ _ _ L) as Hc.
      destruct (lstrip_ws (rev (c :: r))) as [| x q] eqn:L2.
      * apply lstrip_ws_nil in L2. rewrite forallb_rev_ws in L2.
        cbn in L2. rewrite Hc in L2. discriminate.
      * cbn. destruct (rev q); reflexivity.
Qed.

(** X18: an expiry given as a string, with no remaining days.  The empty
    string is stored as it is and a string of white space as [None], both
    without remaining days; any other string is stored unchanged, with
    the distance from today when it reads as [%Y-%m-%d] and with 0 when
    it does not, so that an unreadable expiry is stored like one that
    falls today. *)
Theorem X18_record_of_expiry_string (today : date) (pv pn : pyval) (s : text) :
  plain_text s ->
  normalize_date pv = Ok pn ->
  record_dates today pv (VStr s) None
  = Ok (pn,
        (if is_nil s then VStr []
         else if forallb is_whitespace s then VNone else VStr s),
        (if forallb is_whitespace s then None
         else Some match strptime_date s (u "%Y-%m-%d") with
                   | Ok d => toordinal d - toordinal today
                   | Raise _ => 0
                   end)).
Proof.
  intros _ Hp. unfold record_dates. rewrite Hp. cbn [bind].
  destruct s as [| c s]; [reflexivity|].
  cbn [normalize_date truthy_val is_nil negb str_strip bind].
  rewrite strip_ws_nil.
  destruct (forallb is_whitespace (c :: s)) eqn:F; [reflexivity|].
  cbn [bind]. do 2 f_equal.
  unfold stored_days_remaining. cbn [truthy_val is_nil negb].
  unfold remaining_body.
  destruct (strptime_date (c :: s) (u "%Y-%m-%d")) as [d | e]; reflexivity.
Qed.

Lemma X18_record_of_expiry_string_witness :
  record_dates (mkdate 2024 3 1) VNone (VStr (u "2024/02/14")) None
  = Ok (VNone, VStr (u "2024/02/14"), Some 0).
Proof.
  refine (X18_record_of_expiry_string (mkdate 2024 3 1) VNone VNone
            (u "2024/02/14") _ eq_refl).
  intros c Hc. vm_compute in Hc.
  repeat (destruct Hc as [<- | Hc]; [reflexivity|]). destruct Hc.
Defined.

(** ** The remaining days on the server *)

Lemma micros_bounds t :
  valid_time t = true -> 0 <= micros t < day_micros.
Proof.
  unfold valid_time, micros, day_micros. intros V.
  repeat (apply andb_true_iff in V; destruct V as [V ?]).
  repeat match goal with
         | H : (_ <=? _) = true |- _ => apply Z.leb_le in H
         | H : (_ <? _) = true |- _ => apply Z.ltb_lt in H
         end.
  lia.
Qed.

Lemma datetime_sub_days_midnight a b tb :
  valid_time tb = true ->
  datetime_sub_days a midnight b tb
  = if micros tb =? 0 then toordinal a - toordinal b
    else toordinal a - toordinal b - 1.
Proof.
  intros V. pose proof (micros_bounds tb V) as B.
  unfold datetime_sub_days. change (micros midnight) with 0.
  assert (P : 0 < day_micros) by (unfold day_micros; lia).
  destruct (micros tb =? 0) eqn:E.
  - apply Z.eqb_eq in E. rewrite E.
    replace ((toordinal a - toordinal b) * day_micros + (0 - 0))
      with ((toordinal a - toordinal b) * day_micros) by lia.
    apply Z.div_mul. lia.
  - apply Z.eqb_neq in E. symmetry.
    apply (Z.div_unique _ _ _ (day_micros - micros tb)); lia.
Qed.

(** X19: the server computes the remaining days of a record between two
    instants, the midnight that opens the expiry day and the present
    moment, and keeps the whole days of the difference rounded down: at
    any time after 00:00:00.000000 the result is one less than the
    difference of the calendar days, which [get_days_remaining] returns
    on the device. *)
Theorem X19_server_counts_one_day_less (w : world) (e : date) :
  valid_date e = true -> 1000 <= year e -> valid_time (clock_time w) = true ->
  exists on_device,
    fst (get_days_remaining w (VDate e)) = Ok on_device
    /\ record_days_remaining (clock_date w) (clock_time w) (strftime_ymd e)
       = Ok (if micros (clock_time w) =? 0 then on_device
             else on_device - 1).
Proof.
  intros V Y T. exists (toordinal e - toordinal (clock_date w)).
  split; [now rewrite days_remaining_date|].
  unfold record_days_remaining. rewrite (strptime_strftime e V Y).
  cbn [bind]. now rewrite datetime_sub_days_midnight.
Qed.

Lemma X19_server_counts_one_day_less_witness :
  exists on_device,
    fst (get_days_remaining
           (mkworld (mkdate 2024 3 1) (mktime 10 30 0 0) [])
           (VDate (mkdate 2024 3 11))) = Ok on_device
    /\ record_days_remaining (mkdate 2024 3 1) (mktime 10 30 0 0)
         (u "2024-03-11") = Ok (on_device - 1).
Proof.
  exact (X19_server_counts_one_day_less
           (mkworld (mkdate 2024 3 1) (mktime 10 30 0 0) [])
           (mkdate 2024 3 11) eq_refl ltac:(cbn; lia) eq_refl).
Defined.

(* ================================================================== *)
(** * Statuses and counts of the stored records *)

Lemma filter_three_way {A} (p q r : A -> bool) (l : list A) :
  (forall x, In x l ->
     (if p x then 1 else 0) + (if q x then 1 else 0) + (if r x then 1 else 0)
     = 1)%nat ->
  List.length l
  = (List.length (filter p l) + List.length (filter q l)
     + List.length (filter r l))%nat.
Proof.
  induction l as [| x l IH]; intros H; [reflexivity|].
  cbn [filter]. specialize (IH (fun z Hz => H z (or_intror Hz))).
  pose proof (H x (or_introl eq_refl)) as Hx.
  destruct (p x), (q x), (r x); cbn [List.length] in *; lia.
Qed.

Lemma filter_either {A} (p q r : A -> bool) (l : list A) :
  (forall x, In x l -> p x = q x || r x) ->
  (forall x, In x l -> q x && r x = false) ->
  List.length (filter p l)
  = (List.length (filter q l) + List.length (filter r l))%nat.
Proof.
  induction l as [| x l IH]; intros H1 H2; [reflexivity|].
  cbn [filter].
  specialize (IH (fun z Hz => H1 z (or_intror Hz))
                 (fun z Hz => H2 z (or_intror Hz))).
  pose proof (H1 x (or_introl eq_refl)) as E.
  pose proof (H2 x (or_introl eq_refl)) as D.
  destruct (p x), (q x), (r x); cbn [List.length] in *;
    try discriminate; lia.
Qed.

(** X20: the three statuses split the records: every record is normal
    (more than 7 days left), expiring soon (1 to 7 days) or expired (0
    days or fewer, so a product that expires today counts as expired),
    and never two of these; the total of [get_statistics] is the number
    of normal records plus its two other counts, and the products that
    [get_products_by_expiry] returns for its default threshold of 7 are
    those expiring soon together with the expired ones. *)
Theorem X20_statuses_split_the_records (rows : list product_record) :
  let '(total, expiring_soon, expired) := get_statistics rows in
  total
  = (List.length (filter_products_rows (u "正常") rows)
     + expiring_soon + expired)%nat
  /\ List.length (get_products_by_expiry rows 7)
     = (expiring_soon + expired)%nat
  /\ List.length (filter_products_rows (u "即将过期") rows) = expiring_soon
  /\ List.length (filter_products_rows (u "已过期") rows) = expired
  /\ filter_products_rows (u "全部") rows = rows
  /\ forall r, status_where (u "已过期") r = true <-> rec_days_remaining r <= 0.
Proof.
  unfold get_statistics, filter_products_rows, get_products_by_expiry.
  repeat split.
  - apply (filter_three_way (status_where (u "正常"))).
    intros x _.
    change (status_where (u "正常") x) with (7 <? rec_days_remaining x).
    destruct (7 <? rec_days_remaining x) eqn:A,
             (rec_days_remaining x <=? 7) eqn:B,
             (0 <? rec_days_remaining x) eqn:C,
             (rec_days_remaining x <=? 0) eqn:D; cbn; try reflexivity;
      exfalso;
      repeat match goal with
             | H : (_ <? _) = true |- _ => apply Z.ltb_lt in H
             | H : (_ <? _) = false |- _ => apply Z.ltb_ge in H
             | H : (_ <=? _) = true |- _ => apply Z.leb_le in H
             | H : (_ <=? _) = false |- _ => apply Z.leb_gt in H
             end; lia.
  - apply filter_either; intros x _.
    + destruct (rec_days_remaining x <=? 7) eqn:B,
               (0 <? rec_days_remaining x) eqn:C,
               (rec_days_remaining x <=? 0) eqn:D; cbn; try reflexivity;
        exfalso;
        repeat match goal with
               | H : (_ <? _) = true |- _ => apply Z.ltb_lt in H
               | H : (_ <? _) = false |- _ => apply Z.ltb_ge in H
               | H : (_ <=? _) = true |- _ => apply Z.leb_le in H
               | H : (_ <=? _) = false |- _ => apply Z.leb_gt in H
               end; lia.
    + destruct (rec_days_remaining x <=? 7) eqn:B,
               (0 <? rec_days_remaining x) eqn:C,
               (rec_days_remaining x <=? 0) eqn:D; cbn; try reflexivity;
        exfalso;
        repeat match goal with
               | H : (_ <? _) = true |- _ => apply Z.ltb_lt in H
               | H : (_ <? _) = false |- _ => apply Z.ltb_ge in H
               | H : (_ <=? _) = true |- _ => apply Z.leb_le in H
               | H : (_ <=? _) = false |- _ => apply Z.leb_gt in H
               end; lia.
  - induction rows as [| x rows IH]; [reflexivity|].
    cbn [filter]. change (status_where (u "全部") x) with true.
    now rewrite IH.
  - change (status_where (u "已过期") r) with (rec_days_remaining r <=? 0).
    apply Z.leb_le.
  - change (status_where (u "已过期") r) with (rec_days_remaining r <=? 0).
    apply Z.leb_le.
Qed.

(** X21: the remaining days that the lists show are recomputed in SQL
    before every listing, between the midnight that opens the expiry day
    and the present UTC instant, and cut to an integer toward zero.  At
    any time after midnight a future expiry so gets one day less than the
    difference of the calendar days, a past one and one of today get the
    difference itself: a product that expires tomorrow gets 0 and is
    listed as expired. *)
Theorem X21_sql_update_cuts_toward_zero
    (utc_date expiry : date) (utc_ms : Z) :
  0 < utc_ms < day_ms ->
  update_days_remaining utc_date utc_ms expiry
  = (if 1 <=? toordinal expiry - toordinal utc_date
     then toordinal expiry - toordinal utc_date - 1
     else toordinal expiry - toordinal utc_date)
  /\ (toordinal expiry = toordinal utc_date + 1 ->
      forall r,
        rec_days_remaining r = update_days_remaining utc_date utc_ms expiry ->
        status_where (u "已过期") r = true).
Proof.
  intros H. unfold day_ms in H.
  assert (E : update_days_remaining utc_date utc_ms expiry
              = if 1 <=? toordinal expiry - toordinal utc_date
                then toordinal expiry - toordinal utc_date - 1
                else toordinal expiry - toordinal utc_date).
  { unfold update_days_remaining, day_ms.
    set (D := toordinal expiry - toordinal utc_date).
    destruct (1 <=? D) eqn:C.
    - apply Z.leb_le in C.
      rewrite Z.quot_div_nonneg by lia.
      symmetry. apply (Z.div_unique _ _ _ (86400000 - utc_ms)); lia.
    - apply Z.leb_gt in C.
      replace (D * 86400000 - utc_ms) with (- ((- D) * 86400000 + utc_ms))
        by lia.
      rewrite Z.quot_opp_l by lia.
      rewrite Z.quot_div_nonneg by lia.
      rewrite <- (Z.div_unique ((- D) * 86400000 + utc_ms) 86400000
                    (- D) utc_ms); lia. }
  split; [exact E|].
  intros T r Hr.
  change (status_where (u "已过期") r) with (rec_days_remaining r <=? 0).
  rewrite Hr, E, T.
  replace (toordinal utc_date + 1 - toordinal utc_date) with 1 by lia.
  reflexivity.
Qed.

Lemma X21_sql_update_cuts_toward_zero_witness :
  update_days_remaining (mkdate 2024 3 1) 37800000 (mkdate 2024 3 2) = 0
  /\ update_days_remaining (mkdate 2024 3 1) 37800000 (mkdate 2024 2 29) = -1.
Proof.
  split.
  - exact (proj1 (X21_sql_update_cuts_toward_zero (mkdate 2024 3 1)
                    (mkdate 2024 3 2) 37800000 ltac:(unfold day_ms; lia))).
  - exact (proj1 (X21_sql_update_cuts_toward_zero (mkdate 2024 3 1)
                    (mkdate 2024 2 29) 37800000 ltac:(unfold day_ms; lia))).
Defined.

(* ================================================================== *)
(** * The extractor on the ISO text of an impossible date *)

(** ** Patterns that need a character the text does not hold *)

Lemma rx_run_needs_chr c r :
  needs_chr c r = true ->
  forall s g s', In (g, s') (rx_run r s) -> In c s.
Proof.
  induction r as [| x | k | r1 IH1 r2 IH2 | r1 IH1 r2 IH2 | r1 IH1 | k lo hi];
    cbn [needs_chr]; intros U s g s' H; try discriminate.
  - apply N.eqb_eq in U. subst x.
    apply in_rx_chr in H. destruct H as [-> _]. now left.
  - apply in_rx_seq in H. destruct H as (g1 & s1 & g2 & H1 & H2 & _).
    apply orb_true_iff in U. destruct U as [U | U].
    + eauto.
    + destruct (rx_run_suffix _ _ _ _ H1) as (a & ->).
      apply in_or_app. right. eauto.
  - apply andb_true_iff in U. destruct U as [U1 U2].
    apply in_rx_alt in H. destruct H as [H | H]; eauto.
  - apply in_rx_grp in H. destruct H as (g0 & H & _). eauto.
Qed.

Lemma findall_needs_chr c r txt :
  needs_chr c r = true -> ~ In c txt -> findall r txt = [].
Proof.
  intros U N. apply no_match_is_nil. intros it H.
  apply findall_from_items_suffix in H.
  destruct H as (pre & s0 & [g s'] & -> & Hm).
  apply N. apply in_or_app. right. exact (rx_run_needs_chr c r U _ _ _ Hm).
Qed.

Lemma iso_text_chars y m d c :
  1000 <= y <= 9999 -> 0 <= m <= 99 -> 0 <= d <= 99 ->
  In c (iso_text y m d) -> is_digit c = true \/ c = ch "-".
Proof.
  intros Hy Hm Hd. unfold iso_text.
  destruct (year_digits y Hy) as (_ & Dy & _).
  destruct (num_digits true m Hm) as (_ & Dm & _).
  destruct (num_digits true d Hd) as (_ & Dd & _).
  unfold num in Dm, Dd.
  rewrite forallb_forall in Dy, Dm, Dd.
  intros H. apply in_app_or in H. destruct H as [H | [<- | H]]; auto.
  apply in_app_or in H. destruct H as [H | [<- | H]]; auto.
Qed.

Lemma pattern_needs_chr_nothing c p y m d :
  needs_chr c p = true -> is_digit c = false -> c <> ch "-" ->
  1000 <= y <= 9999 -> 0 <= m <= 99 -> 0 <= d <= 99 ->
  pattern_candidates (iso_text y m d) p = Ok [].
Proof.
  intros U D N Hy Hm Hd. unfold pattern_candidates.
  rewrite (findall_needs_chr c p); [reflexivity | exact U |].
  intros H. destruct (iso_text_chars y m d c Hy Hm Hd H); congruence.
Qed.

(** ** The two numeric patterns *)

Lemma rx_run_d4 c1 c2 c3 c4 tl R :
  is_digit c1 = true -> is_digit c2 = true ->
  is_digit c3 = true -> is_digit c4 = true ->
  rx_run (Seq d4 R) (c1 :: c2 :: c3 :: c4 :: tl)
  = map (fun '(g, s) => ([c1; c2; c3; c4] :: g, s)) (rx_run R tl).
Proof.
  intros H1 H2 H3 H4. unfold d4.
  cbn [rx_run span cmatch]. rewrite H1, H2, H3, H4.
  replace (span CDigit (Some 0%nat) tl) with 0%nat
    by (pose proof (span_le_limit CDigit 0 tl); lia).
  change (rep_choices 4 4) with [4%nat]. cbn [map flat_map skipn].
  change (c1 :: c2 :: c3 :: c4 :: tl) with ([c1; c2; c3; c4] ++ tl).
  rewrite consumed_app. rewrite app_nil_r.
  apply map_ext. intros [g s]. reflexivity.
Qed.

Lemma findall_from_cons r c s :
  findall_from r 0 (c :: s)
  = match rx_match r (c :: s) with
    | Some m =>
        item_of r (c :: s) m
          :: findall_from r (List.length (c :: s) - List.length (snd m) - 1) s
    | None => findall_from r 0 s
    end.
Proof. reflexivity. Qed.

Lemma findall_d4_prefix R c1 c2 c3 c4 tail g rest l k :
  is_digit c1 = true -> is_digit c2 = true ->
  is_digit c3 = true -> is_digit c4 = true ->
  ngroups (Seq d4 R) = S (S k) ->
  rx_run R tail = (g, rest) :: l ->
  findall (Seq d4 R) (c1 :: c2 :: c3 :: c4 :: tail)
  = FTuple ([c1; c2; c3; c4] :: g) :: findall_from (Seq d4 R) 0 rest.
Proof.
  intros D1 D2 D3 D4 N E.
  assert (Hin : In (g, rest) (rx_run R tail)) by (rewrite E; now left).
  destruct (rx_run_suffix _ _ _ _ Hin) as (pre & ->).
  unfold findall. rewrite findall_from_cons. unfold rx_match.
  rewrite rx_run_d4 by assumption. rewrite E. cbn [map].
  unfold item_of. rewrite N. cbn [fst snd]. f_equal.
  change (c2 :: c3 :: c4 :: pre ++ rest) with ((c2 :: c3 :: c4 :: pre) ++ rest).
  replace (List.length (c1 :: (c2 :: c3 :: c4 :: pre) ++ rest)
           - List.length rest - 1)%nat
    with (List.length (c2 :: c3 :: c4 :: pre))
    by (cbn [List.length app]; rewrite length_app; lia).
  apply findall_from_skip.
Qed.

Lemma iso_extract_checked m d :
  0 <= m <= 99 -> 0 <= d <= 99 ->
  exists gm gd gm' rest3 rest2 l3 l2,
    rx_run (rseq [sep; d12; sep; d12]) (iso_tail m d) = ([gm; gd], rest3) :: l3
    /\ rx_run (rseq [sep; d12]) (iso_tail m d) = ([gm'], rest2) :: l2
    /\ py_int gm = Ok m /\ py_int gd = Ok d /\ py_int gm' = Ok m
    /\ findall_from pat_num_ymd 0 rest3 = []
    /\ findall_from pat_num_ym 0 rest2 = [].
Proof.
  intros Hm Hd.
  destruct (split_month_day m d Hm Hd) as (E1 & E2 & R).
  pose proof (zrange_forallb iso_extract_check 0 (100 * 100)) as H.
  specialize (H ltac:(vm_compute; reflexivity) _ R).
  unfold iso_extract_check in H. rewrite E1, E2 in H. cbv zeta in H.
  destruct (rx_run (rseq [sep; d12; sep; d12]) (iso_tail m d))
    as [| [[| gm [| gd [| ? ?]]] rest3] l3]; try discriminate.
  destruct (rx_run (rseq [sep; d12]) (iso_tail m d))
    as [| [[| gm' [| ? ?]] rest2] l2]; try discriminate.
  repeat (apply andb_true_iff in H; destruct H as [H ?]).
  exists gm, gd, gm', rest3, rest2, l3, l2.
  repeat split; try reflexivity; try (now apply int_is_true).
  - destruct (findall_from pat_num_ymd 0 rest3); [reflexivity | discriminate].
  - destruct (findall_from pat_num_ym 0 rest2); [reflexivity | discriminate].
Qed.

Lemma on_match_ym txt ys ms y m :
  py_int ys = Ok y -> py_int ms = Ok m ->
  on_match txt (FTuple [ys; ms])
  = Ok (if valid_ymd y m 1
        then [DateCand (VDatetime (mkdate y m 1) midnight) production_date
                       txt (6 # 10)]
        else []).
Proof.
  intros Hy Hm. unfold on_match, match_body. cbn.
  rewrite Hy, Hm. cbn. unfold datetime_new, date_new.
  destruct (valid_ymd y m 1); reflexivity.
Qed.

(** The candidates of the fragment that is the ISO text of a year, a
    month and a day that are no calendar date. *)
Lemma text_candidates_iso_invalid y m d :
  1000 <= y <= 9999 -> 0 <= m <= 99 -> 0 <= d <= 99 ->
  valid_ymd y m d = false ->
  text_candidates (iso_text y m d)
  = Ok (if valid_ymd y m 1
        then [DateCand (VDatetime (mkdate y m 1) midnight) production_date
                       (iso_text y m d) (6 # 10)]
        else []).
Proof.
  intros Hy Hm Hd V.
  assert (Label : forall c p,
            needs_chr c p = true -> is_digit c = false -> c <> ch "-" ->
            pattern_candidates (iso_text y m d) p = Ok [])
    by (intros; now apply (pattern_needs_chr_nothing c)).
  destruct (py_str_4_digits y Hy)
    as (c1 & c2 & c3 & c4 & E & D1 & D2 & D3 & D4 & Vy).
  assert (Iy : py_int [c1; c2; c3; c4] = Ok y).
  { rewrite <- E. now apply py_int_year. }
  destruct (iso_extract_checked m d Hm Hd)
    as (gm & gd & gm' & rest3 & rest2 & l3 & l2
        & R3 & R2 & Im & Id & Im' & F3 & F2).
  assert (A3 : findall pat_num_ymd (iso_text y m d)
               = [FTuple [[c1; c2; c3; c4]; gm; gd]]).
  { rewrite (iso_text_split _ _ _ _ _ _ _ E).
    change pat_num_ymd with (Seq d4 (rseq [sep; d12; sep; d12])).
    rewrite (findall_d4_prefix (rseq [sep; d12; sep; d12]) c1 c2 c3 c4
               (iso_tail m d) [gm; gd] rest3 l3 1%nat D1 D2 D3 D4 eq_refl R3).
    change (Seq d4 (rseq [sep; d12; sep; d12])) with pat_num_ymd.
    now rewrite F3. }
  assert (A2 : findall pat_num_ym (iso_text y m d)
               = [FTuple [[c1; c2; c3; c4]; gm']]).
  { rewrite (iso_text_split _ _ _ _ _ _ _ E).
    change pat_num_ym with (Seq d4 (rseq [sep; d12])).
    rewrite (findall_d4_prefix (rseq [sep; d12]) c1 c2 c3 c4
               (iso_tail m d) [gm'] rest2 l2 0%nat D1 D2 D3 D4 eq_refl R2).
    change (Seq d4 (rseq [sep; d12])) with pat_num_ym.
    now rewrite F2. }
  assert (P3 : pattern_candidates (iso_text y m d) pat_num_ymd = Ok []).
  { unfold pattern_candidates. rewrite A3. cbn [for_each].
    rewrite (on_match_invalid_ymd _ _ _ _ y m d Iy Im Id V). reflexivity. }
  assert (P4 : pattern_candidates (iso_text y m d) pat_num_ym
               = Ok (if valid_ymd y m 1
                     then [DateCand (VDatetime (mkdate y m 1) midnight)
                                    production_date (iso_text y m d) (6 # 10)]
                     else [])).
  { unfold pattern_candidates. rewrite A2. cbn [for_each].
    rewrite (on_match_ym _ _ _ y m Iy Im'). cbn [bind].
    now rewrite app_nil_r. }
  unfold text_candidates, patterns. cbn [for_each].
  rewrite (Label (ch "年") pat_cn_ymd) by (reflexivity || discriminate).
  rewrite (Label (ch "年") pat_cn_ym) by (reflexivity || discriminate).
  rewrite P3, P4.
  rewrite (Label (ch "生") pat_prod_date) by (reflexivity || discriminate).
  rewrite (Label (ch "生") pat_prod) by (reflexivity || discriminate).
  rewrite (Label (ch "制") pat_manufacture) by (reflexivity || discriminate).
  rewrite (Label (ch "保") pat_shelf_months) by (reflexivity || discriminate).
  rewrite (Label (ch "保") pat_best_before) by (reflexivity || discriminate).
  cbn [bind app]. now rewrite app_nil_r.
Qed.

Lemma full_date_pattern_iso_invalid y m d :
  1000 <= y <= 9999 -> 0 <= m <= 99 -> 0 <= d <= 99 ->
  valid_ymd y m d = false ->
  pattern_candidates (iso_text y m d) pat_num_ymd = Ok [].
Proof.
  intros Hy Hm Hd V.
  destruct (py_str_4_digits y Hy)
    as (c1 & c2 & c3 & c4 & E & D1 & D2 & D3 & D4 & Vy).
  assert (Iy : py_int [c1; c2; c3; c4] = Ok y).
  { rewrite <- E. now apply py_int_year. }
  destruct (iso_extract_checked m d Hm Hd)
    as (gm & gd & gm' & rest3 & rest2 & l3 & l2
        & R3 & R2 & Im & Id & Im' & F3 & F2).
  unfold pattern_candidates. rewrite (iso_text_split _ _ _ _ _ _ _ E).
  change pat_num_ymd with (Seq d4 (rseq [sep; d12; sep; d12])).
  rewrite (findall_d4_prefix (rseq [sep; d12; sep; d12]) c1 c2 c3 c4
             (iso_tail m d) [gm; gd] rest3 l3 1%nat D1 D2 D3 D4 eq_refl R3).
  change (Seq d4 (rseq [sep; d12; sep; d12])) with pat_num_ymd.
  rewrite F3. cbn [for_each].
  rewrite (on_match_invalid_ymd _ _ _ _ y m d Iy Im Id V). reflexivity.
Qed.

Lemma valid_first_of_month y m :
  1 <= y <= 9999 -> valid_ymd y m 1 = (1 <=? m) && (m <=? 12).
Proof.
  intros Hy.
  destruct ((1 <=? m) && (m <=? 12)) eqn:R.
  - apply andb_true_iff in R. destruct R as [R1 R2].
    apply Z.leb_le in R1, R2.
    apply valid_ymd_iff. repeat split; try lia.
    unfold _days_in_month.
    month_cases m; destruct (_is_leap y); calc_months; lia.
  - destruct (valid_ymd y m 1) eqn:V; [| reflexivity].
    apply valid_ymd_iff in V. destruct V as (_ & Hm & _).
    apply andb_false_iff in R.
    destruct R as [R | R]; [apply Z.leb_gt in R | apply Z.leb_gt in R]; lia.
Qed.

(** ** Claim C6 *)

(** C6 (as stated) fails: an impossible day does not keep the fragment
    from yielding a date.  On [2024-02-30] the full-date pattern drops
    its match, but the year-month pattern reads the first seven
    characters and yields 2024-02-01, which the recognition returns;
    likewise 2023-04-01 on [2023-04-31].  In the typed-date parser the
    text [24-02-30], no date as year 24, month 2, day 30, is read by the
    fallback as 0030-02-24. *)
Lemma C6_impossible_day_still_yields_a_date :
  valid_ymd 2024 2 30 = false
  /\ parse_date_patterns [u "2024-02-30"]
     = Ok [DateCand (VDatetime (mkdate 2024 2 1) midnight) production_date
                    (u "2024-02-30") (6 # 10)]
  /\ recognize_texts [u "2024-02-30"]
     = Ok (Some (DateCand (VDatetime (mkdate 2024 2 1) midnight)
                          production_date (u "2024-02-30") (6 # 10)))
  /\ valid_ymd 2023 4 31 = false
  /\ parse_date_patterns [u "2023-04-31"]
     = Ok [DateCand (VDatetime (mkdate 2023 4 1) midnight) production_date
                    (u "2023-04-31") (6 # 10)]
  /\ valid_ymd 24 2 30 = false
  /\ parse_date (u "24-02-30") = Ok (mkdate 30 2 24).
Proof. repeat split; vm_compute; reflexivity. Qed.

(** C6: what is rejected is the match, not the fragment.  An element of
    [re.findall] whose digits are no calendar date appends no candidate
    and raises nothing; the extraction never raises and every date among
    its candidates is a valid one.  On the ISO text of an impossible
    year, month and day (four-digit year) the full-date pattern so
    yields nothing, but the year-month pattern still reads the year and
    the month: when these are a calendar month the extraction returns
    the first of that month with confidence 0.6, and the recognition
    answers with it; when the month is impossible too, nothing is
    returned.  The typed-date parser returns valid dates only, and
    raises [ValueError] on such an ISO text. *)
Theorem C6_invalid_matches_dropped :
  (forall txt ys ms ds y m d,
      py_int ys = Ok y -> py_int ms = Ok m -> py_int ds = Ok d ->
      valid_ymd y m d = false ->
      on_match txt (FTuple [ys; ms; ds]) = Ok [])
  /\ (forall txt ys ms y m,
      py_int ys = Ok y -> py_int ms = Ok m -> valid_ymd y m 1 = false ->
      on_match txt (FTuple [ys; ms]) = Ok [])
  /\ (forall texts,
      exists l, parse_date_patterns texts = Ok l
                /\ forall c, In c l -> well_formed c)
  /\ (forall y m d,
      1000 <= y <= 9999 -> 0 <= m <= 99 -> 0 <= d <= 99 ->
      valid_ymd y m d = false ->
      pattern_candidates (iso_text y m d) pat_num_ymd = Ok []
      /\ parse_date_patterns [iso_text y m d]
         = Ok (if (1 <=? m) && (m <=? 12)
               then [DateCand (VDatetime (mkdate y m 1) midnight)
                              production_date (iso_text y m d) (6 # 10)]
               else [])
      /\ recognize_texts [iso_text y m d]
         = Ok (if (1 <=? m) && (m <=? 12)
               then Some (DateCand (VDatetime (mkdate y m 1) midnight)
                                   production_date (iso_text y m d) (6 # 10))
               else None))
  /\ (forall t x, parse_date t = Ok x -> valid_date x = true)
  /\ (forall y m d,
      1000 <= y <= 9999 -> 0 <= m <= 99 -> 0 <= d <= 99 ->
      valid_ymd y m d = false ->
      parse_date (iso_text y m d) = Raise ValueError).
Proof.
  split; [exact on_match_invalid_ymd|].
  split; [exact on_match_invalid_ym|].
  split.
  { intros texts. destruct (parse_date_patterns_spec texts) as (l & E & H).
    exists l. split; [exact E|]. intros c Hc.
    destruct (H c Hc) as (t & p & m & _ & _ & _ & Hcand).
    eapply candidate_of_well_formed; eauto. }
  split.
  { intros y m d Hy Hm Hd V.
    pose proof (text_candidates_iso_invalid y m d Hy Hm Hd V) as T.
    rewrite (valid_first_of_month y m) in T by lia.
    assert (P : parse_date_patterns [iso_text y m d]
                = Ok (if (1 <=? m) && (m <=? 12)
                      then [DateCand (VDatetime (mkdate y m 1) midnight)
                              production_date (iso_text y m d) (6 # 10)]
                      else [])).
    { unfold parse_date_patterns. cbn [for_each]. rewrite T. cbn [bind].
      now rewrite app_nil_r. }
    split; [| split; [exact P|]].
    - apply (full_date_pattern_iso_invalid y m d Hy Hm Hd V).
    - unfold recognize_texts. cbn [is_nil]. rewrite P. cbn [bind].
      destruct ((1 <=? m) && (m <=? 12)); reflexivity. }
  split; [exact parse_date_valid|].
  intros y m d Hy Hm Hd V. rewrite parse_date_iso by assumption.
  now rewrite V.
Qed.

Lemma C6_invalid_matches_dropped_witness :
  on_match (u "2024-02-30") (FTuple [u "2024"; u "02"; u "30"]) = Ok []
  /\ parse_date_patterns [iso_text 2024 2 30]
     = Ok [DateCand (VDatetime (mkdate 2024 2 1) midnight) production_date
                    (iso_text 2024 2 30) (6 # 10)]
  /\ parse_date_patterns [iso_text 2024 13 1] = Ok []
  /\ parse_date (iso_text 2024 2 30) = Raise ValueError.
Proof.
  destruct C6_invalid_matches_dropped as (H3 & _ & _ & Hfrag & _ & Hiso).
  split; [| split; [| split]].
  - apply (H3 (u "2024-02-30") (u "2024") (u "02") (u "30") 2024 2 30);
      reflexivity.
  - exact (proj1 (proj2 (Hfrag 2024 2 30 ltac:(lia) ltac:(lia) ltac:(lia)
                           eq_refl))).
  - exact (proj1 (proj2 (Hfrag 2024 13 1 ltac:(lia) ltac:(lia) ltac:(lia)
                           eq_refl))).
  - apply (Hiso 2024 2 30); [lia | lia | lia | reflexivity].
Defined.
